(* ===== verification/_CoqProject ===== *)
-Q . S2P
Prelude.v
Lookup.v
Book.v
User.v
Store.v
Lending.v
Invariant.v
Queue.v
Undo.v
Abstract.v
Failures.v
Messages.v
Controller.v
QtTable.v
View.v
System.v
Scenarios.v
