(* ===== verification/Prelude.v ===== *)
(** * A verified model of the library lending store (Estructura-de-datos)

    The repository is a small PyQt5 library-management application.  Its
    algorithmic core is [src/controllers/store.py] ([LibraryStore]): a
    catalogue of books and a membership of users, both Python lists searched
    linearly by identifier, and an undo stack of dictionaries.  Books come
    from the dataclass of [src/controllers/book.py]; each carries its total
    and available copy counts and a [deque] of user ids waiting for a copy
    (the reservation queue).  Users ([src/controllers/user.py]) are not in
    the repository; their shape (id, name, email, list [borrowed] of book
    ids, initially empty) is taken from the specification.  The controller
    [src/models/library_controller.py] strips the strings it receives,
    calls the store and hands the returned message to its logger.  The
    window [src/views/main_window.py] reads its forms, validates some
    fields, calls the controller and redraws two filterable tables;
    [src/main.py] builds a controller and its window.

    ** Files and what they model

    - [Prelude] (this file): the [lib_scope] notations, the [lib] hint
      databases, Python's [list.remove] as [py_remove], occurrence counting
      [occ], and the list lemmas (permutations, counts) the components use.
    - [Lookup]: the interface [HasId] between the entity records and the
      stores, the linear scans [find_by_id] ([find_book], [find_user]), the
      in-place mutation of the object a scan returns ([update_by_id]), and
      the map a scan agrees with ([to_map], a [gmap]).
    - [Book], [User]: the records and their constructors ([mk_book] runs
      [__post_init__]: the available copies start at the total).
    - [Store]: [LibraryStore] (books, users, undo stack), the undo records,
      the outcomes, [add_book], [add_user], [seed_sample_data].
    - [Lending]: [borrow_book], [return_book] and [undo_last], each a
      function from a store to the next store and the outcome, made of the
      mutations of the Python method in their order; their behaviour on
      every branch (claims C6-C9).
    - [Invariant]: well-formedness of a store (unique ids, copy
      conservation [copies_available + holders = copies_total],
      [0 <= copies_available], holdings and queues naming registered
      entities, known undo records), preserved by every operation (C1);
      the bounds [0 <= copies_available <= copies_total] on every store
      reachable by the [step] relation, which registers books at a
      non-negative total only (C2, rule induction); the bounds of the
      counts the outcomes report (C22).
    - [Queue]: liveness of the reservation queue: successive returns of a
      book serve the waiting users one per return, in the order they
      queued, and the undo stack records whom each copy went to (C14).
    - [Undo]: stores up to the order of each user's [borrowed] list ([≈]),
      the [Proper] instances of the operations for it, and the undo
      theorems: a borrow and a return (with or without a promotion) are
      undone exactly on well-formed stores (C3, C4), the stack undoes any
      sequence of successful operations in reverse order (C5), repeated
      undo runs out (C21); undoing a promoted return puts the promoted
      user back at the front of the queue even when already queued (C18),
      and undoing a loan frees a copy without serving the queue (C19).
    - [Abstract]: the specification's view of the store: books and users
      in [gmap]s, holdings as [gmultiset]s, and the five operations written
      on it; any run of the list store refines the abstract run (C13), and
      [≈] is equality of the abstractions ([abs_proper]).
    - [Failures]: a failed operation leaves the store as it was, except a
      failed undo, which has popped its record (C10-C12).
    - [Messages]: the text of every outcome, as the f-strings of the
      source write it.
    - [Controller]: [str.strip()], the controller's commands as the
      relations [ctl_step] (registration at a non-negative total) and
      [ctl_call] (every call the window makes), and the stripped ids of
      every reachable controller (C23).
    - [QtTable]: [tune_table] ([src/styles/style.py]) and the two tables
      as Qt 5's [QTableWidget] fills them: [setItem] with the sorted
      insertion that [setSortingEnabled(True)] turns on (the binary search
      [lower_bound] over [columnItems], then the row and its hidden flag
      moved), [setRowCount], [QTableModel::sort], and the loops of the
      listings; a listing keeps the sort column sorted, with an item in
      every row ([list_table_ok], [listing_full]).
    - [View]: the window: its state ([MainWindow]: controller, current tab,
      the two panes of [QTableWidget] and filter, alerts, activity list),
      each handler, the user's actions as [Event]s and [view_step].
      Whatever the user does, each table has one row per entity, all its
      cells, and the ids in descending order in its first column (C15),
      so neither table ever shows the store's rows in the store's order
      (C16); the book form registers any integer total, negative ones
      included (C20); no user with an empty id is registered (C24); the
      filters' hidden rows match the filter text except after a loans-tab
      action (C25); the activity list stays empty (C26); the loan form's
      validation (C27).  Every action is at most one controller command
      ([handle_refines]).
    - [System]: the loans tab's [Prestar] then [Deshacer último] through
      the window's handlers gives the store back and logs both messages
      (C17).
    - [Scenarios]: the specification's scenarios A to D run on the model,
      and concrete runs of the behaviours the findings describe.

    ** Correspondence with the code

    A Python object mutated through a reference that [find_book] or
    [find_user] returned is modelled by [update_by_id], which rewrites the
    first element of the list with that id: the element the scan returned.
    The mutations are done one after the other on the store, so the
    aliasing of [user] and [next_user] (one object when the ids are equal)
    is respected.  Integers are Python [int]s, hence [Z].  The undo stack is
    a list whose head is the top of the Python list: [append] is [cons],
    [pop()] takes the head.  Messages are an inductive type with one
    constructor per [return] of the source, carrying the interpolated
    values, which [Messages.render] writes out.  Python builtins ([str.strip], [str.lower], [in], [int()]) are
    modelled on ASCII text, and the Qt behaviour the view relies on
    ([isVisible()], [setRowCount], [textChanged]) from Qt's documentation;
    [QTableModel::setItem], [columnItems] and [sort] from Qt 5's
    implementation, whose documentation states the row move.  One
    definition has fuel: [QtTable.lower_bound_go], the binary search,
    whose loop halves [len]; the fuel [length l] is enough since [len]
    drops by one at least per iteration ([lower_bound_go_partition] and
    [lower_bound_sorted] are proved with that fuel).  Every other
    definition is structurally recursive.

    ** Findings

    The undo stack is multi-level where the specification says one level;
    undoing a promoted return re-queues the promoted user (possibly twice)
    rather than the original borrower; undoing a loan frees a copy ahead of
    the queue; a promoted user with the empty id is not taken back; a
    negative total is accepted by the store and the window; a user can hold
    two copies of one book; a failed undo loses its record; after a
    loans-tab action the filtered tables can show stale hidden rows; the
    tables are filled with sorting on, so rows move while they are
    written: the tables never show the store as written, at start they
    mix two books' data, and a later listing can drop a book and show
    another twice; the window never installs its logger, so no message is
    displayed; two imported modules ([controllers/user.py],
    [models/library_models.py]) are missing from the repository.

    ** Not modelled

    Widget construction, geometry, labels, focus and button texts of the
    window; a click on a table's header (it changes the sort indicator
    and sorts the rows): the model keeps the header's initial indicator;
    [setItem] with a column out of range (Qt checks the flat index
    [row * columnCount + column]; the window never passes such a column);
    the stylesheet
    [APP_STYLESHEET] (colours and sizes only),
    [QApplication] and the event loop beyond the user's actions,
    [src/models/__init__.py] (it only re-exports names, from a module the
    repository lacks), and the non-ASCII cases of the Python builtins.
    The logger receives the outcomes as values; [Messages.render] gives
    their text.

    ** Plan of the development

    Done: the store, the lending engine, its invariant, undo and failure
    theorems, the abstract specification and its refinement, the message
    texts, the controller, the window's logic, the composition of window,
    controller and store, the liveness of the reservation queue, and the
    tables as Qt fills them.  What is left of [src/] is presentation
    (widget layout, geometry, stylesheet), listed above.
    *)

From stdpp Require Export base list strings sets.
From Stdlib Require Export ZArith Lia Permutation Morphisms.

Declare Scope lib_scope.
Delimit Scope lib_scope with lib.
Open Scope lib_scope.

(** Python's [x in l] on a list or deque of comparable values. *)
Notation "x ∈? l" := (bool_decide (x ∈ l)) (at level 70, no associativity) : lib_scope.

Create HintDb lib discriminated.
Create Rewrite HintDb lib_rw.

(** ** Python's [list.remove]: delete the first occurrence.

    Python raises [ValueError] when the value is absent; every call site of
    the store checks membership first, so the absent case is never reached
    and the model returns the list unchanged there. *)
Fixpoint py_remove {A} `{EqDecision A} (x : A) (l : list A) : list A :=
  match l with
  | [] => []
  | y :: l' => if decide (y = x) then l' else y :: py_remove x l'
  end.

(** Occurrences of [x] in [l] ([l.count(x)] in Python). *)
Definition occ {A} `{EqDecision A} (x : A) (l : list A) : nat :=
  length (filter (fun y => y = x) l).

Section lists.
Context {A : Type} `{EqDecision A}.
Implicit Types (x y : A) (l k : list A).

Lemma py_remove_perm x l : x ∈ l -> l ≡ₚ x :: py_remove x l.
Proof.
  induction l as [|y l IH]; simpl; intros Hin; [set_solver|].
  case_decide as Hyx; [by subst|].
  apply elem_of_cons in Hin as [->|Hin]; [done|].
  etrans; [by apply perm_skip, IH|]. constructor.
Qed.

Lemma py_remove_not_in x l : x ∉ l -> py_remove x l = l.
Proof.
  induction l as [|y l IH]; simpl; intros Hin; [done|].
  case_decide; [set_solver|]. rewrite IH; set_solver.
Qed.

Lemma py_remove_app_last x l : py_remove x (l ++ [x]) ≡ₚ l.
Proof.
  destruct (decide (x ∈ l)) as [Hin|Hin].
  - apply (Permutation_cons_inv (a:=x)).
    rewrite <-py_remove_perm by set_solver.
    by rewrite Permutation_app_comm.
  - induction l as [|y l IH]; simpl.
    + by rewrite decide_True.
    + rewrite decide_False by set_solver. rewrite IH; set_solver.
Qed.

Lemma py_remove_app_perm x l : x ∈ l -> py_remove x l ++ [x] ≡ₚ l.
Proof. intros Hin. rewrite Permutation_app_comm. symmetry. by apply py_remove_perm. Qed.

Lemma elem_of_py_remove y x l : y ∈ py_remove x l -> y ∈ l.
Proof.
  induction l as [|z l IH]; simpl; [done|].
  case_decide; set_solver.
Qed.

Lemma elem_of_py_remove_ne y x l : y ≠ x -> y ∈ l -> y ∈ py_remove x l.
Proof.
  induction l as [|z l IH]; simpl; [done|].
  case_decide; set_solver.
Qed.

#[export] Instance py_remove_proper x :
  Proper (Permutation ==> Permutation) (py_remove x).
Proof.
  intros l k Hlk. destruct (decide (x ∈ l)) as [Hin|Hin].
  - apply (Permutation_cons_inv (a:=x)).
    rewrite <-!py_remove_perm; [done| |done].
    by rewrite <-Hlk.
  - rewrite !py_remove_not_in; [done| |done]. by rewrite <-Hlk.
Qed.

#[export] Instance occ_proper x : Proper (Permutation ==> eq) (occ x).
Proof. intros l k Hlk. unfold occ. by rewrite Hlk. Qed.

Lemma occ_nil x : occ x [] = 0.
Proof. done. Qed.

Lemma occ_app x l k : occ x (l ++ k) = occ x l + occ x k.
Proof. unfold occ. by rewrite filter_app, length_app. Qed.

Lemma occ_cons_eq x l : occ x (x :: l) = S (occ x l).
Proof. unfold occ. by rewrite filter_cons_True. Qed.

Lemma occ_cons_ne x y l : y ≠ x -> occ x (y :: l) = occ x l.
Proof. intros. unfold occ. by rewrite filter_cons_False. Qed.

Lemma occ_singleton x y : occ x [y] = if decide (y = x) then 1 else 0.
Proof. unfold occ. rewrite filter_cons. by repeat case_decide. Qed.

Lemma occ_py_remove_eq x l : x ∈ l -> S (occ x (py_remove x l)) = occ x l.
Proof. intros Hin. by rewrite (py_remove_perm x l Hin) at 2; rewrite occ_cons_eq. Qed.

Lemma occ_py_remove_ne x y l : y ≠ x -> occ y (py_remove x l) = occ y l.
Proof.
  intros Hne. destruct (decide (x ∈ l)) as [Hin|Hin].
  - rewrite (py_remove_perm x l Hin) at 2. by rewrite occ_cons_ne.
  - by rewrite py_remove_not_in.
Qed.

Lemma occ_pos x l : x ∈ l -> 0 < occ x l.
Proof. intros Hin. rewrite (py_remove_perm x l Hin), occ_cons_eq. lia. Qed.

Lemma occ_zero x l : x ∉ l -> occ x l = 0.
Proof.
  induction l as [|y l IH]; intros Hin; [done|].
  destruct (decide (y = x)) as [->|Hne]; [set_solver|].
  rewrite occ_cons_ne by done. apply IH. set_solver.
Qed.
End lists.

#[export] Hint Resolve elem_of_py_remove py_remove_app_last : lib.
#[export] Hint Rewrite @occ_app @occ_nil @occ_cons_eq @occ_py_remove_ne : lib_rw.

(** Case analysis on the boolean tests of the code ([in], comparisons) and
    on the options returned by the scans, with the equations kept. *)
Ltac case_tests :=
  repeat match goal with
  | |- context [bool_decide ?P] => case_bool_decide
  | |- context [if decide ?P then _ else _] => case_decide
  | |- context [Z.ltb ?a ?b] => destruct (Z.ltb_spec a b)
  end.
