(* ===== verification/Lookup.v ===== *)
(** * Lookup: the catalogue and membership as lists scanned by id

    [LibraryStore.find_book] and [LibraryStore.find_user]
    ([src/controllers/store.py], lines 12-16) are the same generator
    expression [next((x for x in xs if x.id == k), None)] over two lists.
    The class [HasId] is the interface between the entity records ([Book],
    [User]) and this scan; [find_by_id] is the scan and [update_by_id] the
    in-place mutation of the object the scan returns (Python mutates
    [book.copies_available] or [user.borrowed] through that reference).

    The specification allows an implementation to index the collections by a
    map "without changing observable behaviour".  [to_map] builds that
    index ([gmap string A]) and the refinement lemmas show that the scan,
    the in-place update and the append of a fresh record are [lookup],
    [alter] and [insert] on it: the list store refines the map store. *)

From S2P Require Import Prelude.
From stdpp Require Import gmap.

Class HasId (A : Type) := get_id : A -> string.

Section lookup.
Context {A : Type} `{HasId A}.
Implicit Types (x y : A) (l : list A) (k : string).

(** [next((x for x in l if x.id == k), None)] *)
Fixpoint find_by_id k l : option A :=
  match l with
  | [] => None
  | x :: l' => if decide (get_id x = k) then Some x else find_by_id k l'
  end.

(** Mutating the object returned by [find_by_id k l]: the first element
    whose id is [k] becomes [f] of it, the others are untouched. *)
Fixpoint update_by_id k (f : A -> A) l : list A :=
  match l with
  | [] => []
  | x :: l' => if decide (get_id x = k) then f x :: l' else x :: update_by_id k f l'
  end.

(** The mutations of the store never touch an identifier. *)
Definition keeps_id (f : A -> A) : Prop := forall x, get_id (f x) = get_id x.

(** The index an implementation may keep beside the list. *)
Definition to_map l : gmap string A := list_to_map ((fun x => (get_id x, x)) <$> l).

Lemma find_by_id_Some k l x : find_by_id k l = Some x -> x ∈ l /\ get_id x = k.
Proof.
  induction l as [|y l IH]; simpl; [done|].
  case_decide; [intros [=<-]; set_solver|]. intros Hf. destruct (IH Hf). set_solver.
Qed.

Lemma find_by_id_None k l : find_by_id k l = None <-> k ∉ get_id <$> l.
Proof.
  induction l as [|y l IH]; simpl; [set_solver|].
  case_decide; [split; [done|set_solver]|]. rewrite IH. set_solver.
Qed.

Lemma find_by_id_elem k l : k ∈ get_id <$> l -> exists x, find_by_id k l = Some x.
Proof.
  intros Hk. destruct (find_by_id k l) eqn:E; [eauto|].
  by apply find_by_id_None in E.
Qed.

Lemma find_by_id_nodup l x : NoDup (get_id <$> l) -> x ∈ l -> find_by_id (get_id x) l = Some x.
Proof.
  induction l as [|y l IH]; simpl; [set_solver|].
  rewrite NoDup_cons. intros [Hy Hl] Hx.
  case_decide as Hid.
  - apply elem_of_cons in Hx as [->|Hx]; [done|].
    contradict Hy. rewrite Hid. by apply list_elem_of_fmap_2.
  - apply elem_of_cons in Hx as [->|Hx]; [done|]. auto.
Qed.

(** The structural fact behind every lemma on [update_by_id]: the list is
    cut at the element the scan returns. *)
Lemma update_by_id_split k f l x :
  find_by_id k l = Some x ->
  exists l1 l2, l = l1 ++ x :: l2 /\ update_by_id k f l = l1 ++ f x :: l2
                /\ k ∉ get_id <$> l1.
Proof.
  induction l as [|y l IH]; simpl; [done|].
  case_decide as Hy.
  - intros [=<-]. exists [], l. set_solver.
  - intros Hf. destruct (IH Hf) as (l1 & l2 & -> & -> & Hk).
    exists (y :: l1), l2. split_and!; [done|done|set_solver].
Qed.

Lemma update_by_id_None k f l : find_by_id k l = None -> update_by_id k f l = l.
Proof.
  induction l as [|y l IH]; simpl; [done|].
  case_decide; [done|]. intros Hf. by rewrite IH.
Qed.

Lemma update_by_id_ids k f l : keeps_id f -> get_id <$> update_by_id k f l = get_id <$> l.
Proof.
  intros Hf. induction l as [|y l IH]; simpl; [done|].
  case_decide; simpl; [by rewrite Hf|f_equal; exact IH].
Qed.

(** Two mutations of the object found under the same id compose. *)
Lemma update_by_id_compose k f g l :
  keeps_id g -> update_by_id k f (update_by_id k g l) = update_by_id k (fun x => f (g x)) l.
Proof.
  intros Hg. induction l as [|y l IH]; simpl; [done|].
  case_decide as Hy; simpl.
  - by rewrite decide_True by (by rewrite Hg).
  - rewrite decide_False by done. by rewrite IH.
Qed.

(** An update that leaves the found element as it is changes nothing. *)
Lemma update_by_id_id k f l :
  (forall x, find_by_id k l = Some x -> f x = x) -> update_by_id k f l = l.
Proof.
  induction l as [|y l IH]; simpl; intros Hf; [done|].
  case_decide; [by rewrite Hf|]. by rewrite IH.
Qed.

(** Mutations of the objects found under two different ids commute. *)
Lemma update_by_id_comm k k' f g l :
  k ≠ k' -> keeps_id f -> keeps_id g ->
  update_by_id k f (update_by_id k' g l) = update_by_id k' g (update_by_id k f l).
Proof.
  intros Hne Hf Hg. induction l as [|y l IH]; simpl; [done|].
  repeat (case_decide; simpl); rewrite ?Hf, ?Hg in *; try congruence.
Qed.

Lemma find_update_eq k f l x :
  keeps_id f -> find_by_id k l = Some x -> find_by_id k (update_by_id k f l) = Some (f x).
Proof.
  intros Hf. induction l as [|y l IH]; simpl; [done|].
  case_decide as Hy; [intros [=<-]; simpl; by rewrite decide_True by (by rewrite Hf)|].
  intros Hl. simpl. rewrite decide_False by done. auto.
Qed.

Lemma find_update_fmap k f l :
  keeps_id f -> find_by_id k (update_by_id k f l) = f <$> find_by_id k l.
Proof.
  intros Hf. destruct (find_by_id k l) eqn:E; simpl.
  - by apply find_update_eq.
  - by rewrite update_by_id_None.
Qed.

Lemma find_update_ne k k' f l :
  keeps_id f -> k ≠ k' -> find_by_id k' (update_by_id k f l) = find_by_id k' l.
Proof.
  intros Hf Hne. induction l as [|y l IH]; simpl; [done|].
  case_decide as Hy; simpl.
  - rewrite Hf. case_decide; [congruence|done].
  - case_decide; [done|]. apply IH.
Qed.

Lemma elem_of_update_by_id k f l y :
  y ∈ update_by_id k f l -> y ∈ l \/ exists x, find_by_id k l = Some x /\ y = f x.
Proof.
  destruct (find_by_id k l) as [x|] eqn:E.
  - destruct (update_by_id_split k f l x E) as (l1 & l2 & -> & -> & _).
    rewrite !elem_of_app, !elem_of_cons. intros [|[->|]]; eauto.
  - rewrite update_by_id_None by done. auto.
Qed.

Lemma find_update_is_Some k k' f l :
  keeps_id f -> is_Some (find_by_id k' (update_by_id k f l)) <-> is_Some (find_by_id k' l).
Proof.
  intros Hf. rewrite <-!not_eq_None_Some, !find_by_id_None, update_by_id_ids by done. done.
Qed.

(** With unique ids, an element of the updated list is either an element
    of the old list under another id, or the updated element. *)
Lemma elem_of_update_by_id_nodup k f l y :
  NoDup (get_id <$> l) -> y ∈ update_by_id k f l ->
  (y ∈ l /\ get_id y ≠ k) \/ exists x, find_by_id k l = Some x /\ y = f x.
Proof.
  intros Hnd Hy. destruct (find_by_id k l) as [x|] eqn:E.
  - destruct (update_by_id_split k f l x E) as (l1 & l2 & -> & Hu & Hk).
    destruct (find_by_id_Some _ _ _ E) as [_ Hx].
    rewrite Hu, elem_of_app, elem_of_cons in Hy.
    rewrite fmap_app, fmap_cons in Hnd. apply NoDup_app in Hnd as (_ & Hdis & Hnd2).
    apply NoDup_cons in Hnd2 as [Hk2 _].
    destruct Hy as [Hy|[->|Hy]]; [left|right; eauto|left].
    + split; [set_solver|]. intros <-. apply Hk, list_elem_of_fmap_2, Hy.
    + split; [set_solver|]. intros <-. apply Hk2. rewrite Hx. apply list_elem_of_fmap_2, Hy.
  - rewrite update_by_id_None in Hy by done. left. split; [done|].
    intros <-. apply find_by_id_None in E. apply E, list_elem_of_fmap_2, Hy.
Qed.

(** A property of every element survives an update that keeps it. *)
Lemma Forall_update_by_id (P : A -> Prop) k f l :
  (forall x, find_by_id k l = Some x -> P (f x)) ->
  (forall y, y ∈ l -> P y) -> forall y, y ∈ update_by_id k f l -> P y.
Proof.
  intros Hf Hl y Hy. destruct (elem_of_update_by_id k f l y Hy) as [|(x & Hx & ->)]; auto.
Qed.

(** Sums over the collection (the number of holders of a book) change by
    the difference at the updated element only. *)
Lemma sum_update_by_id (g : A -> nat) k f l x :
  find_by_id k l = Some x ->
  sum_list_with g (update_by_id k f l) + g x = sum_list_with g l + g (f x).
Proof.
  intros Hx. destruct (update_by_id_split k f l x Hx) as (l1 & l2 & -> & -> & _).
  rewrite !sum_list_with_app. simpl. lia.
Qed.

Lemma find_by_id_app k l1 l2 :
  find_by_id k (l1 ++ l2) = match find_by_id k l1 with Some x => Some x | None => find_by_id k l2 end.
Proof.
  induction l1 as [|y l1 IH]; simpl; [done|]. case_decide; [done|]. apply IH.
Qed.

Lemma find_by_id_cons k x l :
  find_by_id k (x :: l) = if decide (get_id x = k) then Some x else find_by_id k l.
Proof. done. Qed.

Lemma find_by_id_singleton k x :
  find_by_id k [x] = if decide (get_id x = k) then Some x else None.
Proof. done. Qed.

(** ** Refinement: the list store implements the map store. *)

Lemma to_map_lookup k l : to_map l !! k = find_by_id k l.
Proof.
  unfold to_map. induction l as [|y l IH]; simpl; [apply lookup_empty|].
  rewrite lookup_insert. case_decide; [done|]. apply IH.
Qed.

Lemma to_map_update k f l :
  keeps_id f -> to_map (update_by_id k f l) = alter f k (to_map l).
Proof.
  intros Hf. apply map_eq. intros k'. rewrite lookup_alter, !to_map_lookup.
  case_decide as Hkk; [subst k'|by apply find_update_ne].
  destruct (find_by_id k l) eqn:E; simpl.
  - by erewrite find_update_eq.
  - by rewrite update_by_id_None.
Qed.

Lemma to_map_append_fresh l x :
  find_by_id (get_id x) l = None -> to_map (l ++ [x]) = <[get_id x := x]> (to_map l).
Proof.
  intros Hx. apply map_eq. intros k'. rewrite lookup_insert, !to_map_lookup, find_by_id_app.
  destruct (find_by_id k' l) eqn:E; simpl; repeat case_decide; subst; congruence.
Qed.
End lookup.

Arguments find_by_id {_ _} _ _ : simpl nomatch.
#[export] Hint Resolve find_by_id_Some find_update_eq find_update_ne update_by_id_ids : lib.
