(* ===== verification/Book.v ===== *)
(** * Book: the [Book] dataclass of [src/controllers/book.py]

    Fields in the order of the dataclass.  [copies_available] is declared
    [field(init=False)] and set by [__post_init__] to [copies_total];
    [reservations] defaults to an empty [deque] of user ids (the waiting
    queue, served from the left).  [mk_book] is the constructor call
    [Book(id=..., title=..., author=..., year=..., copies_total=...)] with
    its [__post_init__].  Python's [int] is [Z]. *)

From S2P Require Import Prelude Lookup.

Record Book := {
  id : string;
  title : string;
  author : string;
  year : Z;
  copies_total : Z;
  copies_available : Z;
  reservations : list string
}.

(** [Book(id, title, author, year, copies_total)] followed by
    [__post_init__]: [self.copies_available = self.copies_total]. *)
Definition mk_book (id title author : string) (year copies_total : Z) : Book :=
  {| id := id; title := title; author := author; year := year;
     copies_total := copies_total; copies_available := copies_total;
     reservations := [] |}.

#[export] Instance Book_HasId : HasId Book := id.

#[export] Instance Book_eq_dec : EqDecision Book.
Proof. solve_decision. Defined.

(** The three mutations the store performs on a book it has found. *)
(** The two kinds of mutation the store performs on a book it has found:
    [book.copies_available += 1] / [-= 1] is [map_available (Z.add 1)] /
    [map_available (fun n => n - 1)]; [book.reservations.append(u)],
    [.popleft()] and [.appendleft(u)] are [map_reservations] of the
    corresponding list function. *)
Definition map_available (g : Z -> Z) (b : Book) : Book :=
  {| id := id b; title := title b; author := author b; year := year b;
     copies_total := copies_total b; copies_available := g (copies_available b);
     reservations := reservations b |}.

Definition map_reservations (g : list string -> list string) (b : Book) : Book :=
  {| id := id b; title := title b; author := author b; year := year b;
     copies_total := copies_total b; copies_available := copies_available b;
     reservations := g (reservations b) |}.

Lemma map_available_keeps_id g : keeps_id (map_available g).
Proof. done. Qed.

Lemma map_reservations_keeps_id g : keeps_id (map_reservations g).
Proof. done. Qed.

#[export] Hint Resolve map_available_keeps_id map_reservations_keeps_id : lib.
