(* ===== verification/User.v ===== *)
(** * User: the [User] record

    [src/controllers/user.py] is imported by the store and the controller
    but is not part of the repository's sources.  Its shape is taken from
    the specification (section 3, "User"): an identifier, a name, an email
    and the ordered list [borrowed] of the book ids the user holds, empty
    when the user is created ([User(id=..., name=..., email=...)] in
    [src/models/library_controller.py], line 24). *)

From S2P Require Import Prelude Lookup.

Record User := {
  id : string;
  name : string;
  email : string;
  borrowed : list string
}.

(** [User(id=id, name=name, email=email)]. *)
Definition mk_user (id name email : string) : User :=
  {| id := id; name := name; email := email; borrowed := [] |}.

#[export] Instance User_HasId : HasId User := id.

#[export] Instance User_eq_dec : EqDecision User.
Proof. solve_decision. Defined.

(** The store mutates a user only through [user.borrowed]: [.append(b)]
    and [.remove(b)] are [map_borrowed] of the corresponding list function. *)
Definition map_borrowed (g : list string -> list string) (u : User) : User :=
  {| id := id u; name := name u; email := email u; borrowed := g (borrowed u) |}.

Lemma map_borrowed_keeps_id g : keeps_id (map_borrowed g).
Proof. done. Qed.

#[export] Hint Resolve map_borrowed_keeps_id : lib.
