(* ===== verification/Store.v ===== *)
(** * Store: the state of [LibraryStore] and its registration commands

    [src/controllers/store.py]: [__init__] (lines 6-9) creates two empty
    lists and an empty undo stack; [find_book]/[find_user] (lines 12-16) are
    the scans of [Lookup]; [add_book]/[add_user] (lines 19-29) append a
    record whose id is not yet present.  The undo stack holds dictionaries
    with an ["op"] key; the two shapes the store pushes are [RecBorrow]
    (line 38) and [RecReturn] (line 65), and [RecOther] stands for any other
    dictionary, which [undo_last] reports as an unknown operation.  The
    stack is a list whose head is the top (the last element of the Python
    list).

    Each [return f"..."] of the store is a constructor of [Msg] carrying
    the values the f-string interpolates. *)

From S2P Require Import Prelude Lookup Book User.
From stdpp Require Import gmap.

Local Open Scope string_scope.

Inductive UndoRecord :=
  | RecBorrow (user_id book_id : string)
  | RecReturn (user_id book_id : string) (autoloan_to_next : option string)
  | RecOther (op : string).

Record LibraryStore := {
  books : list Book;
  users : list User;
  undo_stack : list UndoRecord
}.

(** [LibraryStore()] *)
Definition empty_store : LibraryStore :=
  {| books := []; users := []; undo_stack := [] |}.

(** The suffix of [return_book]'s message (lines 52-64). *)
Inductive AutoLoan :=
  | NoReservation
  | AssignedTo (next_name : string)
  | NextGone.

Inductive Msg :=
  | BookExists (book_id : string)
  | BookAdded (title : string)
  | UserExists (user_id : string)
  | UserAdded (name : string)
  | UserNotFound (user_id : string)
  | BookNotFound (book_id : string)
  | Borrowed (title name : string) (available : Z)
  | AlreadyQueued (name title : string)
  | Queued (name title : string) (position : nat)
  | NotBorrowed (name title : string)
  | Returned (title : string) (auto : AutoLoan) (available : Z)
  | NothingToUndo
  | UndoneBorrow (title name : string)
  | UndoBorrowFailed
  | UndoReturnFailed
  | UndoneReturn (title name : string)
  | UndoNoCopy
  | UnknownOp.

#[export] Instance UndoRecord_eq_dec : EqDecision UndoRecord.
Proof. solve_decision. Defined.
#[export] Instance AutoLoan_eq_dec : EqDecision AutoLoan.
Proof. solve_decision. Defined.
#[export] Instance Msg_eq_dec : EqDecision Msg.
Proof. solve_decision. Defined.
#[export] Instance LibraryStore_eq_dec : EqDecision LibraryStore.
Proof. solve_decision. Defined.

(** [self.find_book(book_id)], [self.find_user(user_id)] *)
Definition find_book (book_id : string) (s : LibraryStore) : option Book :=
  find_by_id book_id (books s).

Definition find_user (user_id : string) (s : LibraryStore) : option User :=
  find_by_id user_id (users s).

(** Mutating the book (user) object found under [k]. *)
Definition update_book (k : string) (f : Book -> Book) (s : LibraryStore) : LibraryStore :=
  {| books := update_by_id k f (books s); users := users s; undo_stack := undo_stack s |}.

Definition update_user (k : string) (f : User -> User) (s : LibraryStore) : LibraryStore :=
  {| books := books s; users := update_by_id k f (users s); undo_stack := undo_stack s |}.

(** [self.undo_stack.append(r)] *)
Definition push_undo (r : UndoRecord) (s : LibraryStore) : LibraryStore :=
  {| books := books s; users := users s; undo_stack := r :: undo_stack s |}.

(** [add_book] (lines 19-23). *)
Definition add_book (book : Book) (s : LibraryStore) : LibraryStore * Msg :=
  match find_book (Book.id book) s with
  | Some _ => (s, BookExists (Book.id book))
  | None => ({| books := books s ++ [book]; users := users s; undo_stack := undo_stack s |},
             BookAdded (Book.title book))
  end.

(** [add_user] (lines 25-29). *)
Definition add_user (user : User) (s : LibraryStore) : LibraryStore * Msg :=
  match find_user (User.id user) s with
  | Some _ => (s, UserExists (User.id user))
  | None => ({| books := books s; users := users s ++ [user]; undo_stack := undo_stack s |},
             UserAdded (User.name user))
  end.

(** [LibraryController.seed_sample_data]
    ([src/models/library_controller.py], lines 47-51): two books and two
    users registered through [add_book]/[add_user], messages discarded. *)
Definition seed_sample_data (s : LibraryStore) : LibraryStore :=
  let s := fst (add_book (mk_book "B001" "El Quijote" "Cervantes" 1605 2) s) in
  let s := fst (add_book (mk_book "B002" "Cien años de soledad" "García Márquez" 1967 1) s) in
  let s := fst (add_user (mk_user "U001" "Ana" "ana@example.com") s) in
  fst (add_user (mk_user "U002" "Luis" "luis@example.com") s).

(** ** Lookups after a mutation *)

Section store_lemmas.
Implicit Types (s : LibraryStore) (k : string).

Lemma find_book_update_eq k f s b :
  keeps_id f -> find_book k s = Some b -> find_book k (update_book k f s) = Some (f b).
Proof. apply find_update_eq. Qed.

Lemma find_book_update_same k f s :
  keeps_id f -> find_book k (update_book k f s) = f <$> find_book k s.
Proof. apply find_update_fmap. Qed.

Lemma find_user_update_same k f s :
  keeps_id f -> find_user k (update_user k f s) = f <$> find_user k s.
Proof. apply find_update_fmap. Qed.

Lemma find_book_update_ne k k' f s :
  keeps_id f -> k ≠ k' -> find_book k' (update_book k f s) = find_book k' s.
Proof. apply find_update_ne. Qed.

Lemma find_user_update_eq k f s u :
  keeps_id f -> find_user k s = Some u -> find_user k (update_user k f s) = Some (f u).
Proof. apply find_update_eq. Qed.

Lemma find_user_update_ne k k' f s :
  keeps_id f -> k ≠ k' -> find_user k' (update_user k f s) = find_user k' s.
Proof. apply find_update_ne. Qed.

Lemma find_book_update k k' f s :
  keeps_id f ->
  find_book k' (update_book k f s) = if decide (k = k') then f <$> find_book k' s else find_book k' s.
Proof.
  intros Hf. case_decide; [subst; by apply find_book_update_same|by apply find_book_update_ne].
Qed.

Lemma find_user_update k k' f s :
  keeps_id f ->
  find_user k' (update_user k f s) = if decide (k = k') then f <$> find_user k' s else find_user k' s.
Proof.
  intros Hf. case_decide; [subst; by apply find_user_update_same|by apply find_user_update_ne].
Qed.

Lemma find_book_update_is_Some k k' f s :
  keeps_id f -> is_Some (find_book k' (update_book k f s)) <-> is_Some (find_book k' s).
Proof. apply find_update_is_Some. Qed.

Lemma find_user_update_is_Some k k' f s :
  keeps_id f -> is_Some (find_user k' (update_user k f s)) <-> is_Some (find_user k' s).
Proof. apply find_update_is_Some. Qed.

Lemma find_user_in k s u : find_user k s = Some u -> u ∈ users s.
Proof. apply find_by_id_Some. Qed.

Lemma find_book_in k s b : find_book k s = Some b -> b ∈ books s.
Proof. apply find_by_id_Some. Qed.

Lemma update_book_compose k f g s :
  keeps_id g -> update_book k f (update_book k g s) = update_book k (fun b => f (g b)) s.
Proof. intros Hg. unfold update_book. simpl. by rewrite update_by_id_compose. Qed.

(** The projections of a mutated store. *)
Lemma users_update_book k f s : users (update_book k f s) = users s.
Proof. done. Qed.
Lemma books_update_user k f s : books (update_user k f s) = books s.
Proof. done. Qed.
Lemma books_push r s : books (push_undo r s) = books s.
Proof. done. Qed.
Lemma users_push r s : users (push_undo r s) = users s.
Proof. done. Qed.
Lemma undo_stack_update_book k f s : undo_stack (update_book k f s) = undo_stack s.
Proof. done. Qed.
Lemma undo_stack_update_user k f s : undo_stack (update_user k f s) = undo_stack s.
Proof. done. Qed.

Lemma find_book_update_user k k' f s : find_book k' (update_user k f s) = find_book k' s.
Proof. done. Qed.

Lemma find_user_update_book k k' f s : find_user k' (update_book k f s) = find_user k' s.
Proof. done. Qed.

Lemma find_book_push r k s : find_book k (push_undo r s) = find_book k s.
Proof. done. Qed.

Lemma find_user_push r k s : find_user k (push_undo r s) = find_user k s.
Proof. done. Qed.
End store_lemmas.

#[export] Hint Rewrite find_book_update_user find_user_update_book find_book_push
  find_user_push : lib_rw.
#[export] Hint Rewrite find_book_update_same find_user_update_same using eauto with lib : lib_rw.
#[export] Hint Resolve find_user_in find_book_in : lib.
Create Rewrite HintDb known_rw.
#[export] Hint Rewrite users_update_book books_update_user books_push users_push
  undo_stack_update_book undo_stack_update_user : lib_rw known_rw.
#[export] Hint Rewrite find_book_update_is_Some find_user_update_is_Some using eauto with lib : known_rw.
#[export] Hint Rewrite find_book_update_user find_user_update_book find_book_push
  find_user_push : known_rw.
