(* ===== verification/Lending.v ===== *)
(** * Lending: [borrow_book], [return_book] and [undo_last]

    [src/controllers/store.py], lines 31-92.  Each method becomes a function
    from the store to the next store and the message it returns.  The
    mutations happen in the order of the source, each on the store left by
    the previous one, through [update_book]/[update_user] on the id the
    object was found under: this keeps the aliasing of the source (when the
    user promoted by [return_book] is the returning user, the second
    mutation sees the first).  An early [return] leaves the store as it is. *)

From S2P Require Import Prelude Lookup Book User Store.

(** [book.copies_available -= 1] and [+= 1]. *)
Definition dec_available : Book -> Book := map_available (fun n => n - 1)%Z.
Definition inc_available : Book -> Book := map_available (Z.add 1).

(** [borrow_book] (lines 31-44). *)
Definition borrow_book (user_id book_id : string) (s : LibraryStore) : LibraryStore * Msg :=
  match find_user user_id s, find_book book_id s with
  | None, _ => (s, UserNotFound user_id)
  | Some _, None => (s, BookNotFound book_id)
  | Some user, Some book =>
      if (0 <? copies_available book)%Z then
        let s := update_book book_id dec_available s in
        let s := update_user user_id (map_borrowed (fun l => l ++ [Book.id book])) s in
        let s := push_undo (RecBorrow user_id book_id) s in
        (s, Borrowed (title book) (User.name user) (copies_available book - 1)%Z)
      else if user_id ∈? reservations book then
        (s, AlreadyQueued (User.name user) (title book))
      else
        let s := update_book book_id (map_reservations (fun q => q ++ [user_id])) s in
        (s, Queued (User.name user) (title book) (length (reservations book) + 1))
  end.

(** Lines 52-64 of [return_book], after the copy is back: pop the head of
    the queue and lend it again when that user still exists.  Returns the
    store, the [autoloan_to_next] field of the undo record, the message
    suffix and [book.copies_available] at the end. *)
Definition serve_reservation (book_id : string) (book : Book) (s : LibraryStore)
    : LibraryStore * option string * AutoLoan * Z :=
  match reservations book with
  | [] => (s, None, NoReservation, (copies_available book + 1)%Z)
  | next_user_id :: _ =>
      let s := update_book book_id (map_reservations tail) s in
      match find_user next_user_id s with
      | Some next_user =>
          let s := update_book book_id dec_available s in
          let s := update_user next_user_id (map_borrowed (fun l => l ++ [Book.id book])) s in
          (s, Some next_user_id, AssignedTo (User.name next_user), copies_available book)
      | None => (s, None, NextGone, (copies_available book + 1)%Z)
      end
  end.

(** [return_book] (lines 46-66). *)
Definition return_book (user_id book_id : string) (s : LibraryStore) : LibraryStore * Msg :=
  match find_user user_id s, find_book book_id s with
  | None, _ => (s, UserNotFound user_id)
  | Some _, None => (s, BookNotFound book_id)
  | Some user, Some book =>
      if negb (book_id ∈? borrowed user) then (s, NotBorrowed (User.name user) (title book))
      else
        let s := update_user user_id (map_borrowed (py_remove book_id)) s in
        let s := update_book book_id inc_available s in
        let '(s, autoloan_to_next, msg_auto, available) := serve_reservation book_id book s in
        (push_undo (RecReturn user_id book_id autoloan_to_next) s,
         Returned (title book) msg_auto available)
  end.

(** Python's [if next_user_id:] on [last.get("autoloan_to_next")]: [None]
    and the empty string are both false. *)
Definition truthy_id (o : option string) : option string :=
  match o with
  | Some k => if decide (k = ""%string) then None else Some k
  | None => None
  end.

(** Lines 81-86 of [undo_last]: take the copy back from the promoted user,
    if that user still holds the book, and put the user back at the front
    of the queue. *)
Definition unserve_reservation (book_id : string) (book : Book) (autoloan : option string)
    (s : LibraryStore) : LibraryStore :=
  match truthy_id autoloan with
  | Some next_user_id =>
      match find_user next_user_id s with
      | Some next_user =>
          if Book.id book ∈? borrowed next_user then
            let s := update_user next_user_id (map_borrowed (py_remove (Book.id book))) s in
            let s := update_book book_id (map_reservations (cons next_user_id)) s in
            update_book book_id inc_available s
          else s
      | None => s
      end
  | None => s
  end.

(** Lines 70-92 of [undo_last]: the dispatch on the popped record, on the
    store whose stack no longer holds it. *)
Definition undo_record (last : UndoRecord) (s : LibraryStore) : LibraryStore * Msg :=
  match last with
  | RecBorrow user_id book_id =>
      match find_user user_id s, find_book book_id s with
      | Some user, Some book =>
          if Book.id book ∈? borrowed user then
            let s := update_user user_id (map_borrowed (py_remove (Book.id book))) s in
            let s := update_book book_id inc_available s in
            (s, UndoneBorrow (title book) (User.name user))
          else (s, UndoBorrowFailed)
      | _, _ => (s, UndoBorrowFailed)
      end
  | RecReturn user_id book_id autoloan =>
      match find_user user_id s, find_book book_id s with
      | Some user, Some book =>
          let s := unserve_reservation book_id book autoloan s in
          (* [book.copies_available] read again after the step above *)
          match find_book book_id s with
          | Some book_now =>
              if (0 <? copies_available book_now)%Z then
                let s := update_book book_id dec_available s in
                let s := update_user user_id (map_borrowed (fun l => l ++ [Book.id book])) s in
                (s, UndoneReturn (title book) (User.name user))
              else (s, UndoNoCopy)
          | None => (s, UndoNoCopy)
          end
      | _, _ => (s, UndoReturnFailed)
      end
  | RecOther _ => (s, UnknownOp)
  end.

(** [undo_last] (lines 68-92): [NothingToUndo] on an empty stack,
    otherwise pop the top record and undo it. *)
Definition undo_last (s : LibraryStore) : LibraryStore * Msg :=
  match undo_stack s with
  | [] => (s, NothingToUndo)
  | last :: rest => undo_record last {| books := books s; users := users s; undo_stack := rest |}
  end.

(** ** Functional behaviour, branch by branch *)

Lemma find_book_id bid s b : find_book bid s = Some b -> Book.id b = bid.
Proof. apply find_by_id_Some. Qed.

Lemma find_user_id uid s u : find_user uid s = Some u -> User.id u = uid.
Proof. apply find_by_id_Some. Qed.

(** Undoing right after a push pops exactly the pushed record. *)
Lemma undo_last_push r s : undo_last (push_undo r s) = undo_record r s.
Proof. by destruct s. Qed.

Lemma inc_dec_available b : inc_available (dec_available b) = b.
Proof. destruct b. unfold inc_available, dec_available, map_available. simpl. f_equal. lia. Qed.

Lemma dec_inc_available b : dec_available (inc_available b) = b.
Proof. destruct b. unfold inc_available, dec_available, map_available. simpl. f_equal. lia. Qed.

Lemma dec_available_keeps_id : keeps_id dec_available.
Proof. done. Qed.

Lemma inc_available_keeps_id : keeps_id inc_available.
Proof. done. Qed.

#[export] Hint Resolve dec_available_keeps_id inc_available_keeps_id : lib.

(** Rewrites the lookups of a store built by a chain of mutations, then
    the lookups of the initial store by the hypotheses. *)
Ltac simpl_find :=
  autorewrite with lib_rw;
  repeat match goal with
  | H : find_book ?k ?s = Some _ |- context [find_book ?k ?s] => rewrite H
  | H : find_user ?k ?s = Some _ |- context [find_user ?k ?s] => rewrite H
  end; simpl.

Section lending_spec.
Context (user_id book_id : string) (s : LibraryStore).

(** C6: a successful loan takes exactly one copy, appends the book to the
    borrower's holdings and pushes a [borrow] undo record. *)
Theorem borrow_book_lends u b s' m :
  find_user user_id s = Some u -> find_book book_id s = Some b ->
  (0 < copies_available b)%Z ->
  borrow_book user_id book_id s = (s', m) ->
  find_book book_id s' = Some (map_available (fun n => n - 1)%Z b) /\
  find_user user_id s' = Some (map_borrowed (fun l => l ++ [book_id]) u) /\
  undo_stack s' = RecBorrow user_id book_id :: undo_stack s /\
  m = Borrowed (title b) (User.name u) (copies_available b - 1)%Z.
Proof.
  intros Hu Hb Hpos. unfold borrow_book. rewrite Hu, Hb.
  apply Z.ltb_lt in Hpos as ->. intros [= <- <-].
  rewrite (find_book_id _ _ _ Hb). simpl_find. done.
Qed.
(** C7: with no copy available the loan never touches the copy counts,
    the holdings or the undo stack: a user not yet waiting is appended at
    the back of the queue (FIFO) and told the new length of the queue. *)
Theorem borrow_book_queues u b s' m :
  find_user user_id s = Some u -> find_book book_id s = Some b ->
  (copies_available b <= 0)%Z -> user_id ∉ reservations b ->
  borrow_book user_id book_id s = (s', m) ->
  find_book book_id s' = Some (map_reservations (fun q => q ++ [user_id]) b) /\
  users s' = users s /\ undo_stack s' = undo_stack s /\
  m = Queued (User.name u) (title b) (length (reservations b) + 1).
Proof.
  intros Hu Hb Hle Hq. unfold borrow_book. rewrite Hu, Hb.
  rewrite (proj2 (Z.ltb_ge _ _) Hle), bool_decide_false by done.
  intros [= <- <-]. simpl_find. done.
Qed.

(** A user already waiting is not queued twice and nothing changes. *)
Lemma borrow_book_already_queued u b :
  find_user user_id s = Some u -> find_book book_id s = Some b ->
  (copies_available b <= 0)%Z -> user_id ∈ reservations b ->
  borrow_book user_id book_id s = (s, AlreadyQueued (User.name u) (title b)).
Proof.
  intros Hu Hb Hle Hq. unfold borrow_book. rewrite Hu, Hb.
  by rewrite (proj2 (Z.ltb_ge _ _) Hle), bool_decide_true.
Qed.

(** C8: returning a book nobody waits for gives the copy back and removes
    one occurrence of the book from the user's holdings. *)
Theorem return_book_no_queue u b s' m :
  find_user user_id s = Some u -> find_book book_id s = Some b ->
  book_id ∈ borrowed u -> reservations b = [] ->
  return_book user_id book_id s = (s', m) ->
  find_book book_id s' = Some (map_available (Z.add 1) b) /\
  find_user user_id s' = Some (map_borrowed (py_remove book_id) u) /\
  undo_stack s' = RecReturn user_id book_id None :: undo_stack s /\
  m = Returned (title b) NoReservation (copies_available b + 1)%Z.
Proof.
  intros Hu Hb Hin Hq. unfold return_book. rewrite Hu, Hb, bool_decide_true by done.
  unfold serve_reservation. rewrite Hq. simpl. intros [= <- <-]. simpl_find. done.
Qed.
(** C9: returning a book with a non-empty queue serves the head of the
    queue at once when that user exists (looked up after the returning
    user's holdings changed, so a user returning and waiting for the same
    book is served too): the copy count ends where it started, the head
    leaves the queue and gets the book, and the undo record names it. *)
Theorem return_book_promotes u b next_user_id rest v s' m :
  find_user user_id s = Some u -> find_book book_id s = Some b ->
  book_id ∈ borrowed u -> reservations b = next_user_id :: rest ->
  find_user next_user_id (update_user user_id (map_borrowed (py_remove book_id)) s) = Some v ->
  return_book user_id book_id s = (s', m) ->
  (exists b', find_book book_id s' = Some b' /\
              copies_available b' = copies_available b /\ reservations b' = rest) /\
  find_user next_user_id s' = Some (map_borrowed (fun l => l ++ [book_id]) v) /\
  undo_stack s' = RecReturn user_id book_id (Some next_user_id) :: undo_stack s /\
  m = Returned (title b) (AssignedTo (User.name v)) (copies_available b).
Proof.
  intros Hu Hb Hin Hq Hv. unfold return_book. rewrite Hu, Hb, bool_decide_true by done.
  unfold serve_reservation. rewrite Hq. simpl_find.
  intros [= <- <-]. rewrite (find_book_id _ _ _ Hb). simpl_find.
  split_and!; [|done|done|done]. eexists; split; [done|]. simpl. rewrite Hq. split; [lia|done].
Qed.
End lending_spec.

(** ** The theorems at work on the sample data of the controller *)

Local Open Scope string_scope.

(** Closes a hypothesis about a concrete store by evaluation. *)
Ltac eval_hyp :=
  first [ reflexivity
        | apply (bool_decide_unpack _); vm_compute; exact I
        | vm_compute; congruence ].

Definition demo : LibraryStore := seed_sample_data empty_store.
Definition demo_lent : LibraryStore := fst (borrow_book "U001" "B002" demo).
Definition demo_waiting : LibraryStore := fst (borrow_book "U002" "B002" demo_lent).

Lemma borrow_book_lends_witness :
  exists u b, find_user "U001" demo = Some u /\ find_book "B001" demo = Some b /\
    (0 < copies_available b)%Z /\
    find_book "B001" (fst (borrow_book "U001" "B001" demo)) = Some (map_available (fun n => n - 1)%Z b).
Proof.
  do 2 eexists. split_and!; [eval_hyp..|].
  eapply (borrow_book_lends "U001" "B001" demo); [eval_hyp..|apply surjective_pairing].
Defined.

Lemma borrow_book_queues_witness :
  exists u b, find_user "U002" demo_lent = Some u /\ find_book "B002" demo_lent = Some b /\
    (copies_available b <= 0)%Z /\ ("U002" ∉ reservations b) /\
    snd (borrow_book "U002" "B002" demo_lent) = Queued (User.name u) (title b) 1.
Proof.
  do 2 eexists. split_and!; [eval_hyp..|].
  eapply (borrow_book_queues "U002" "B002" demo_lent); [eval_hyp..|apply surjective_pairing].
Defined.

Lemma return_book_no_queue_witness :
  exists u b, find_user "U001" demo_lent = Some u /\ find_book "B002" demo_lent = Some b /\
    "B002" ∈ borrowed u /\ reservations b = [] /\
    find_book "B002" (fst (return_book "U001" "B002" demo_lent)) = Some (map_available (Z.add 1) b).
Proof.
  do 2 eexists. split_and!; [eval_hyp..|].
  eapply (return_book_no_queue "U001" "B002" demo_lent); [eval_hyp..|apply surjective_pairing].
Defined.

Lemma return_book_promotes_witness :
  exists u b v, find_user "U001" demo_waiting = Some u /\ find_book "B002" demo_waiting = Some b /\
    "B002" ∈ borrowed u /\ reservations b = ["U002"] /\
    find_user "U002" (update_user "U001" (map_borrowed (py_remove "B002")) demo_waiting) = Some v /\
    find_user "U002" (fst (return_book "U001" "B002" demo_waiting))
      = Some (map_borrowed (fun l => (l ++ ["B002"])%list) v).
Proof.
  do 3 eexists. split_and!; [eval_hyp..|].
  eapply (return_book_promotes "U001" "B002" demo_waiting); [eval_hyp..|apply surjective_pairing].
Defined.
