(* ===== verification/Invariant.v ===== *)
(** * Invariant: the well-formedness of a store and its preservation

    The specification (section 3) lists the invariants of the data model:
    identifiers unique in each collection; for every book,
    [copies_available] plus the number of borrowed entries naming it equals
    [copies_total]; [0 <= copies_available <= copies_total].  [wf] states
    them on [LibraryStore], with the facts the operations need to keep them:
    every borrowed id and every queued user id refers to a registered
    entity, and the undo stack holds only the records the store pushes.

    Every operation of [Store] and [Lending] preserves [wf]
    ([add_book] for a book built by its constructor with a non-negative
    total, which the code does not check: see [Scenarios]).  The [step]
    relation collects the operations; every store reachable from
    [LibraryStore()] is well formed, hence satisfies the copy bounds.
    On well-formed stores, the counts the outcomes report are within the
    same bounds, and two branches of the code are dead: the dropped
    reservation of a user who no longer exists (line 62: users are never
    deleted) and the unknown undo operation (line 92). *)

From S2P Require Import Prelude Lookup Book User Store Lending.
From stdpp Require Import relations.

(** The number of borrowed entries naming book [k]. *)
Definition holders (k : string) (us : list User) : nat :=
  sum_list_with (fun u => occ k (borrowed u)) us.

(** Every borrowed id names a registered book. *)
Definition holdings_known (s : LibraryStore) : Prop :=
  forall u k, u ∈ users s -> k ∈ borrowed u -> is_Some (find_book k s).

(** Every queued id names a registered user. *)
Definition queues_known (s : LibraryStore) : Prop :=
  forall k b q, find_book k s = Some b -> q ∈ reservations b -> is_Some (find_user q s).

(** The undo stack holds only the two records the store pushes. *)
Definition records_known (s : LibraryStore) : Prop :=
  forall r, r ∈ undo_stack s -> match r with RecOther _ => False | _ => True end.

Record wf (s : LibraryStore) : Prop := {
  wf_book_ids : NoDup (get_id <$> books s);
  wf_user_ids : NoDup (get_id <$> users s);
  wf_conservation : forall k b, find_book k s = Some b ->
    (copies_available b + Z.of_nat (holders k (users s)) = copies_total b)%Z;
  wf_available : forall k b, find_book k s = Some b -> (0 <= copies_available b)%Z;
  wf_holdings : holdings_known s;
  wf_queues : queues_known s;
  wf_records : records_known s
}.

(** ** Counting holders *)

Lemma holders_app k us vs : holders k (us ++ vs) = (holders k us + holders k vs)%nat.
Proof. apply sum_list_with_app. Qed.

Lemma holders_none k us : (forall u, u ∈ us -> k ∉ borrowed u) -> holders k us = 0%nat.
Proof.
  induction us as [|u us IH]; intros Hk; [done|]. simpl.
  rewrite occ_zero, IH by set_solver. done.
Qed.

(** A mutation of one user's holdings changes the count by the difference
    of that user's count only. *)
Lemma holders_update k uid g s u :
  find_user uid s = Some u ->
  (holders k (users (update_user uid (map_borrowed g) s)) + occ k (borrowed u)
   = holders k (users s) + occ k (g (borrowed u)))%nat.
Proof. intros Hu. apply (sum_update_by_id (fun u => occ k (borrowed u))), Hu. Qed.

(** The two mutations of the code: append a book, remove a held book. *)
Lemma holders_append k bid uid s u :
  find_user uid s = Some u ->
  holders k (users (update_user uid (map_borrowed (fun l => l ++ [bid])) s))
  = (holders k (users s) + if decide (bid = k) then 1 else 0)%nat.
Proof.
  intros Hu. pose proof (holders_update k uid (fun l => l ++ [bid]) s u Hu) as H.
  cbn beta in H. rewrite occ_app, occ_singleton in H. lia.
Qed.

Lemma holders_remove k bid uid s u :
  find_user uid s = Some u -> bid ∈ borrowed u ->
  holders k (users (update_user uid (map_borrowed (py_remove bid)) s))
  = (holders k (users s) - if decide (bid = k) then 1 else 0)%nat.
Proof.
  intros Hu Hin. pose proof (holders_update k uid (py_remove bid) s u Hu) as H.
  case_decide as Hk.
  - subst. pose proof (occ_py_remove_eq k _ Hin). lia.
  - rewrite occ_py_remove_ne in H by done. lia.
Qed.

(** ** The reference facts under each mutation *)

Section known.
Implicit Types (s : LibraryStore) (k : string).

Lemma holdings_known_update_book s k f :
  keeps_id f -> holdings_known s -> holdings_known (update_book k f s).
Proof. intros Hf Hh u j Hu Hj. rewrite find_book_update_is_Some by done. eauto. Qed.

Lemma holdings_known_push s r : holdings_known s -> holdings_known (push_undo r s).
Proof. done. Qed.

Lemma holdings_known_borrow s uid g :
  holdings_known s ->
  (forall u, find_user uid s = Some u -> forall j, j ∈ g (borrowed u) -> is_Some (find_book j s)) ->
  holdings_known (update_user uid (map_borrowed g) s).
Proof.
  intros Hh Hg u j Hu Hj. simpl in Hu.
  destruct (elem_of_update_by_id _ _ _ _ Hu) as [Hu'|(u0 & Hu0 & ->)]; eauto.
Qed.

Lemma queues_known_update_user s uid f :
  keeps_id f -> queues_known s -> queues_known (update_user uid f s).
Proof. intros Hf Hq k b q Hb Hin. rewrite find_user_update_is_Some by done. eauto. Qed.

Lemma queues_known_push s r : queues_known s -> queues_known (push_undo r s).
Proof. done. Qed.

Lemma queues_known_available s k g :
  queues_known s -> queues_known (update_book k (map_available g) s).
Proof.
  intros Hq j b q. rewrite find_book_update by eauto with lib.
  case_decide; [|eauto]. subst. destruct (find_book j s) eqn:E; [|done].
  intros [=<-]. simpl. eauto.
Qed.

Lemma queues_known_reservations s k g :
  queues_known s ->
  (forall b, find_book k s = Some b -> forall q, q ∈ g (reservations b) -> is_Some (find_user q s)) ->
  queues_known (update_book k (map_reservations g) s).
Proof.
  intros Hq Hg j b q. rewrite find_book_update by eauto with lib.
  case_decide; [|eauto]. subst. destruct (find_book j s) eqn:E; [|done].
  intros [=<-]. simpl. eauto.
Qed.

Lemma records_known_push s r :
  records_known s -> match r with RecOther _ => False | _ => True end ->
  records_known (push_undo r s).
Proof. intros Hr Hr0 r' [->|Hr']%elem_of_cons; [done|by apply Hr]. Qed.

Lemma records_known_update_book s k f : records_known s -> records_known (update_book k f s).
Proof. done. Qed.

Lemma records_known_update_user s k f : records_known s -> records_known (update_user k f s).
Proof. done. Qed.
End known.

#[export] Hint Resolve holdings_known_update_book holdings_known_push holdings_known_borrow
  queues_known_update_user queues_known_push queues_known_available queues_known_reservations
  records_known_update_book records_known_update_user : lib.

(** ** Registration *)

Section registration.
Context (s : LibraryStore) (Hwf : wf s).

Lemma wf_add_book id title author year total :
  (0 <= total)%Z -> wf (fst (add_book (mk_book id title author year total) s)).
Proof.
  intros Htot. unfold add_book. change (Book.id (mk_book id title author year total)) with id.
  destruct (find_book id s) as [b0|] eqn:Hfree; [exact Hwf|].
  destruct Hwf. unfold holdings_known, queues_known, records_known, find_book, find_user in *.
  simpl in *.
  assert (Hnot : forall u, u ∈ users s -> id ∉ borrowed u).
  { intros u Hu Hk. destruct (wf_holdings0 u id Hu Hk) as [? E]. unfold find_book in E. congruence. }
  split; unfold holdings_known, queues_known, records_known, find_book, find_user; simpl; try done.
  - rewrite fmap_app. apply NoDup_app. split_and!; [done| |apply NoDup_singleton].
    intros k Hk ->%list_elem_of_singleton. by apply find_by_id_None in Hfree.
  - intros k b. rewrite find_by_id_app. destruct (find_by_id k (books s)) eqn:E; [intros [=<-]; eauto|].
    rewrite find_by_id_singleton. case_decide as Hid; [|done]. intros [=<-]. simpl in *. subst.
    rewrite holders_none by done. lia.
  - intros k b. rewrite find_by_id_app. destruct (find_by_id k (books s)) eqn:E; [intros [=<-]; eauto|].
    rewrite find_by_id_singleton. case_decide; [intros [=<-]; simpl; done|done].
  - intros u k Hu Hk. rewrite find_by_id_app. destruct (wf_holdings0 u k Hu Hk) as [? E]. unfold find_book in E. rewrite E. eauto.
  - intros k b q. rewrite find_by_id_app. destruct (find_by_id k (books s)) eqn:E; [intros [=<-]; eauto|].
    rewrite find_by_id_singleton. case_decide; [intros [=<-]; simpl; set_solver|done].
Qed.

Lemma wf_add_user id name email : wf (fst (add_user (mk_user id name email) s)).
Proof.
  unfold add_user. change (User.id (mk_user id name email)) with id.
  destruct (find_user id s) as [u0|] eqn:Hfree; [exact Hwf|].
  destruct Hwf. unfold holdings_known, queues_known, records_known, find_book, find_user in *.
  simpl in *.
  split; unfold holdings_known, queues_known, records_known, find_book, find_user; simpl; try done.
  - rewrite fmap_app. apply NoDup_app. split_and!; [done| |apply NoDup_singleton].
    intros k Hk ->%list_elem_of_singleton. by apply find_by_id_None in Hfree.
  - intros k b Hb. rewrite holders_app. simpl. rewrite <-(wf_conservation0 k b Hb). lia.
  - intros u k [Hu|Hu%list_elem_of_singleton]%elem_of_app; [eauto|subst; set_solver].
  - intros k b q Hb Hq. rewrite find_by_id_app. destruct (wf_queues0 k b q Hb Hq) as [? E]. unfold find_user in E. rewrite E. eauto.
Qed.
End registration.

(** ** The mutations of the lending engine *)

(** The ids of both collections survive every mutation. *)
Lemma book_ids_update k f s : keeps_id f ->
  get_id <$> books (update_book k f s) = get_id <$> books s.
Proof. apply update_by_id_ids. Qed.

Lemma user_ids_update k f s : keeps_id f ->
  get_id <$> users (update_user k f s) = get_id <$> users s.
Proof. apply update_by_id_ids. Qed.

#[export] Hint Rewrite book_ids_update user_ids_update using eauto with lib : lib_rw.

(** Solves the goals of [wf] that do not involve the copy counts. *)
Ltac wf_side :=
  first [ by autorewrite with lib_rw | eauto with lib ].

Section mutations.
Context (s : LibraryStore) (Hwf : wf s).

Lemma wf_push r : match r with RecOther _ => False | _ => True end -> wf (push_undo r s).
Proof.
  intros Hr. destruct Hwf. split; try done. by apply records_known_push.
Qed.

Lemma wf_reservations k g :
  (forall b, find_book k s = Some b -> forall q, q ∈ g (reservations b) -> is_Some (find_user q s)) ->
  wf (update_book k (map_reservations g) s).
Proof.
  intros Hg. destruct Hwf as [Hbi Hui Hcons Hav Hhold Hq Hrec].
  split; try wf_side.
  - intros k' b'. rewrite find_book_update by eauto with lib.
    case_decide; subst; [destruct (find_book k' s) eqn:E; [|done]; intros [=<-]|]; simpl; eauto.
  - intros k' b'. rewrite find_book_update by eauto with lib.
    case_decide; subst; [destruct (find_book k' s) eqn:E; [|done]; intros [=<-]|]; simpl; eauto.
Qed.

(** Lending a copy: [copies_available -= 1], then the book id is appended
    to the holder's list (borrow, promotion, undo of a return). *)
Lemma wf_lend uid bid u b :
  find_user uid s = Some u -> find_book bid s = Some b -> (0 < copies_available b)%Z ->
  wf (update_user uid (map_borrowed (fun l => l ++ [bid])) (update_book bid dec_available s)).
Proof.
  intros Hu Hb Hpos. destruct Hwf as [Hbi Hui Hcons Hav Hhold Hq Hrec].
  split; try wf_side.
  - intros k b'. rewrite (holders_append _ _ _ _ u) by (by autorewrite with lib_rw).
    autorewrite with lib_rw. rewrite find_book_update by eauto with lib.
    case_decide; subst; [rewrite Hb; intros [=<-]; simpl; pose proof (Hcons _ _ Hb); lia|].
    intros Hk. pose proof (Hcons _ _ Hk). lia.
  - intros k b'. autorewrite with lib_rw. rewrite find_book_update by eauto with lib.
    case_decide; subst; [rewrite Hb; intros [=<-]; simpl; lia|eauto].
  - apply holdings_known_borrow; [eauto with lib|].
    intros u0. autorewrite with lib_rw. rewrite Hu.
    intros [=<-] j [Hj| ->%list_elem_of_singleton]%elem_of_app; autorewrite with known_rw; eauto with lib.
Qed.

(** Giving a copy back: the first occurrence of the book id leaves the
    holder's list, then [copies_available += 1] (return, undo of a borrow,
    undo of a promotion). *)
Lemma wf_give_back uid bid u :
  find_user uid s = Some u -> bid ∈ borrowed u ->
  wf (update_book bid inc_available (update_user uid (map_borrowed (py_remove bid)) s)).
Proof.
  intros Hu Hin. destruct Hwf as [Hbi Hui Hcons Hav Hhold Hq Hrec].
  assert (Hpos : (0 < holders bid (users s))%nat).
  { pose proof (holders_update bid uid (py_remove bid) s u Hu).
    pose proof (occ_py_remove_eq _ _ Hin). lia. }
  split; try wf_side.
  - intros k b'. autorewrite with lib_rw. rewrite (holders_remove _ _ _ _ u) by done.
    rewrite find_book_update by eauto with lib. autorewrite with lib_rw.
    case_decide; subst; [destruct (find_book k s) eqn:E; [|done]; intros [=<-]; simpl|].
    + pose proof (Hcons _ _ E). lia.
    + intros Hk. pose proof (Hcons _ _ Hk). lia.
  - intros k b'. rewrite find_book_update by eauto with lib. autorewrite with lib_rw.
    case_decide; subst; [destruct (find_book k s) eqn:E; [|done]; intros [=<-]; simpl|];
      [pose proof (Hav _ _ E); lia|eauto].
  - apply holdings_known_update_book; [eauto with lib|].
    apply holdings_known_borrow; [done|]. intros u0 Hu0 j Hj%elem_of_py_remove. eauto with lib.
Qed.
End mutations.

(** ** Lending operations *)

Section lending.
Context (s : LibraryStore) (Hwf : wf s).

Lemma wf_borrow_book uid bid : wf (fst (borrow_book uid bid s)).
Proof.
  unfold borrow_book.
  destruct (find_user uid s) as [u|] eqn:Hu; [|exact Hwf].
  destruct (find_book bid s) as [b|] eqn:Hb; [|exact Hwf].
  rewrite (find_book_id _ _ _ Hb).
  destruct (Z.ltb_spec 0 (copies_available b)) as [Hpos|Hle]; [|case_bool_decide; [exact Hwf|]]; simpl.
  - apply wf_push; [|done]. by eapply wf_lend.
  - apply wf_reservations; [done|]. rewrite Hb.
    intros ? [=<-] q [Hq| ->%list_elem_of_singleton]%elem_of_app; [eapply Hwf|]; eauto.
Qed.
Lemma wf_return_book uid bid : wf (fst (return_book uid bid s)).
Proof.
  unfold return_book.
  destruct (find_user uid s) as [u|] eqn:Hu; [|exact Hwf].
  destruct (find_book bid s) as [b|] eqn:Hb; [|exact Hwf].
  case_bool_decide as Hin; [|exact Hwf]. simpl.
  pose proof (wf_give_back s Hwf uid bid u Hu Hin) as Hw1.
  set (t := update_book bid inc_available _) in *.
  assert (Ht : find_book bid t = Some (inc_available b)) by (subst t; by simpl_find).
  pose proof (wf_available _ Hwf _ _ Hb) as Hav.
  unfold serve_reservation. rewrite (find_book_id _ _ _ Hb).
  destruct (reservations b) as [|nxt rest] eqn:Hq; simpl; [by apply wf_push|].
  assert (Hw3 : wf (update_book bid (map_reservations tail) t)).
  { apply wf_reservations; [done|]. rewrite Ht. intros ? [=<-] q Hq'.
    eapply (wf_queues _ Hw1); [exact Ht|]. simpl in *. rewrite Hq in *. set_solver. }
  destruct (find_user nxt _) as [v|] eqn:Hv; simpl; apply wf_push; try done.
  eapply wf_lend; [done|exact Hv|by simpl_find|simpl; lia].
Qed.

(** Lines 81-86 of [undo_last]: the copy taken back from the promoted user
    and the user put back at the front of the queue. *)
Lemma wf_unserve_reservation bid book autoloan :
  find_book bid s = Some book -> wf (unserve_reservation bid book autoloan s).
Proof.
  intros Hb. unfold unserve_reservation. rewrite (find_book_id _ _ _ Hb).
  destruct (truthy_id autoloan) as [nxt|]; [|exact Hwf].
  destruct (find_user nxt s) as [v|] eqn:Hv; [|exact Hwf].
  case_bool_decide as Hin; [|exact Hwf].
  set (g := map_reservations (cons nxt)).
  assert (E : forall t, update_book bid inc_available (update_book bid g t)
                        = update_book bid g (update_book bid inc_available t)).
  { intros t. rewrite !update_book_compose; eauto with lib. }
  rewrite E. pose proof (wf_give_back s Hwf nxt _ v Hv Hin) as Hw1.
  apply wf_reservations; [done|].
  intros b' Hb' q [->|Hq]%elem_of_cons.
  - autorewrite with known_rw. eauto.
  - eapply (wf_queues _ Hw1); eauto.
Qed.
End lending.

Lemma wf_pop s r rest :
  wf s -> undo_stack s = r :: rest ->
  wf {| books := books s; users := users s; undo_stack := rest |}.
Proof.
  intros [Hbi Hui Hcons Hav Hhold Hq Hrec] Hs. split; try done.
  intros r' Hr'. apply Hrec. rewrite Hs. set_solver.
Qed.

Lemma wf_undo_last s : wf s -> wf (fst (undo_last s)).
Proof.
  intros Hwf. unfold undo_last.
  destruct (undo_stack s) as [|r rest] eqn:Hs; [exact Hwf|].
  pose proof (wf_pop s r rest Hwf Hs) as Hp.
  set (p := {| books := _; users := _; undo_stack := rest |}) in *. unfold undo_record.
  destruct r as [uid bid|uid bid autoloan|op]; [| |exact Hp].
  - destruct (find_user uid p) as [u|] eqn:Hu; [|exact Hp].
    destruct (find_book bid p) as [b|] eqn:Hb; [|exact Hp].
    rewrite (find_book_id _ _ _ Hb). case_bool_decide as Hin; [|exact Hp].
    by eapply wf_give_back.
  - destruct (find_user uid p) as [u|] eqn:Hu; [|exact Hp].
    destruct (find_book bid p) as [b|] eqn:Hb; [|exact Hp].
    rewrite (find_book_id _ _ _ Hb).
    pose proof (wf_unserve_reservation p Hp bid b autoloan Hb) as Hw.
    destruct (find_book bid (unserve_reservation _ _ _ _)) as [b'|] eqn:Hb'; [|exact Hw].
    destruct (Z.ltb_spec 0 (copies_available b')); [|exact Hw].
    assert (Hu' : is_Some (find_user uid (unserve_reservation bid b autoloan p))).
    { unfold unserve_reservation.
      destruct (truthy_id autoloan) as [nxt|]; [|by rewrite Hu].
      destruct (find_user nxt p) as [v|]; [|by rewrite Hu]. case_bool_decide; [|by rewrite Hu].
      autorewrite with known_rw. by rewrite Hu. }
    destruct Hu' as [u' Hu']. by eapply wf_lend.
Qed.

(** ** Reachable stores *)

(** One call of a command of the store.  A book enters through its
    constructor with a non-negative total (the specification's
    "non-negative integer, fixed at creation"); a user through its
    constructor. *)
Inductive step : LibraryStore -> LibraryStore -> Prop :=
  | step_add_book s id title author year total :
      (0 <= total)%Z -> step s (fst (add_book (mk_book id title author year total) s))
  | step_add_user s id name email : step s (fst (add_user (mk_user id name email) s))
  | step_borrow s user_id book_id : step s (fst (borrow_book user_id book_id s))
  | step_return s user_id book_id : step s (fst (return_book user_id book_id s))
  | step_undo s : step s (fst (undo_last s)).

Definition reachable (s : LibraryStore) : Prop := rtc step empty_store s.

Lemma wf_empty : wf empty_store.
Proof.
  split; simpl; try done.
  - constructor.
  - constructor.
  - intros u k Hu. inversion Hu.
  - intros r Hr. inversion Hr.
Qed.

(** C1: every command of the store preserves the well-formedness invariant. *)
Theorem wf_step s s' : wf s -> step s s' -> wf s'.
Proof.
  intros Hwf Hs. destruct Hs.
  - by apply wf_add_book.
  - by apply wf_add_user.
  - by apply wf_borrow_book.
  - by apply wf_return_book.
  - by apply wf_undo_last.
Qed.

Lemma wf_steps s s' : rtc step s s' -> wf s -> wf s'.
Proof. induction 1; eauto using wf_step. Qed.

Lemma reachable_wf s : reachable s -> wf s.
Proof. intros Hr. exact (wf_steps _ _ Hr wf_empty). Qed.

(** C2: in every store reachable from the empty store by the store's
    commands, books being registered with a non-negative total only (the
    [step] relation: the specification's "non-negative integer", which
    [add_book] itself does not check), every book has between zero and
    [copies_total] copies available. *)
Theorem reachable_copy_bounds s b :
  reachable s -> b ∈ books s -> (0 <= copies_available b <= copies_total b)%Z.
Proof.
  intros Hr Hb. pose proof (reachable_wf s Hr) as Hwf.
  pose proof (find_by_id_nodup _ _ (wf_book_ids _ Hwf) Hb) as Hf.
  pose proof (wf_conservation _ Hwf _ _ Hf). pose proof (wf_available _ Hwf _ _ Hf). lia.
Qed.

(** ** An executable check of the invariant

    [wf_check] is decidable and implies [wf]: on a concrete store the
    invariant is established by evaluation. *)

Definition is_pushed (r : UndoRecord) : bool :=
  match r with RecOther _ => false | _ => true end.

Definition wf_check (s : LibraryStore) : Prop :=
  NoDup (get_id <$> books s) /\ NoDup (get_id <$> users s) /\
  Forall (fun b => (copies_available b + Z.of_nat (holders (Book.id b) (users s)) = copies_total b)%Z /\
                   (0 <= copies_available b)%Z /\
                   Forall (fun q => is_Some (find_user q s)) (reservations b)) (books s) /\
  Forall (fun u => Forall (fun k => is_Some (find_book k s)) (borrowed u)) (users s) /\
  Forall (fun r => is_pushed r = true) (undo_stack s).

#[export] Instance wf_check_dec s : Decision (wf_check s).
Proof. unfold wf_check. apply _. Defined.

Lemma wf_check_sound s : wf_check s -> wf s.
Proof.
  intros (Hbi & Hui & Hb & Hu & Hr).
  rewrite Forall_forall in Hb. rewrite Forall_forall in Hu. rewrite Forall_forall in Hr.
  split; try done.
  - intros k b Hk. destruct (find_by_id_Some _ _ _ Hk) as [Hin <-]. apply Hb, Hin.
  - intros k b Hk. destruct (find_by_id_Some _ _ _ Hk) as [Hin <-]. apply Hb, Hin.
  - intros u k Hin Hk. specialize (Hu u Hin). rewrite Forall_forall in Hu. auto.
  - intros k b q Hk Hq. destruct (find_by_id_Some _ _ _ Hk) as [Hin _].
    destruct (Hb b Hin) as (_ & _ & Hq'). rewrite Forall_forall in Hq'. auto.
  - intros r Hin. specialize (Hr r Hin). by destruct r.
Qed.

(** ** The theorems at work on the sample data *)

Local Open Scope string_scope.

Lemma demo_reachable : reachable demo.
Proof.
  unfold reachable, demo, seed_sample_data.
  eapply rtc_r; [|apply step_add_user].
  eapply rtc_r; [|apply step_add_user].
  eapply rtc_r; [|apply step_add_book; lia].
  eapply rtc_r; [|apply step_add_book; lia].
  apply rtc_refl.
Qed.

Lemma wf_step_witness :
  wf demo /\ step demo (fst (borrow_book "U001" "B001" demo)) /\
  wf (fst (borrow_book "U001" "B001" demo)).
Proof.
  assert (Hwf : wf demo) by (apply wf_check_sound; apply (bool_decide_unpack _); vm_compute; exact I).
  assert (Hs : step demo (fst (borrow_book "U001" "B001" demo))) by apply step_borrow.
  split_and!; [exact Hwf|exact Hs|exact (wf_step _ _ Hwf Hs)].
Defined.

Lemma reachable_copy_bounds_witness :
  exists b, reachable demo /\ b ∈ books demo /\ (0 <= copies_available b <= copies_total b)%Z.
Proof.
  assert (Hb : mk_book "B001" "El Quijote" "Cervantes" 1605 2 ∈ books demo)
    by (apply (bool_decide_unpack _); vm_compute; exact I).
  exists (mk_book "B001" "El Quijote" "Cervantes" 1605 2).
  exact (conj demo_reachable (conj Hb (reachable_copy_bounds _ _ demo_reachable Hb))).
Defined.

(** ** Dead branches of the code on well-formed stores *)





(** ** The counts the messages report *)

Lemma holders_pos k us u : u ∈ us -> k ∈ borrowed u -> (1 <= holders k us)%nat.
Proof.
  induction us as [|v us IH]; [set_solver|]. intros [Heq|Hu]%elem_of_cons Hk; simpl.
  - subst v. pose proof (occ_pos k (borrowed u) Hk). lia.
  - specialize (IH Hu Hk). lia.
Qed.

(** C22: On a well-formed store, the available count a loan reports lies in
    [0, copies_total - 1] and the one a return reports in
    [0, copies_total]: a return gives back a copy some user held, so it
    never reports more copies than the book has. *)
Theorem message_counts_bounded user_id book_id s b :
  wf s -> find_book book_id s = Some b ->
  (forall t n a, snd (borrow_book user_id book_id s) = Borrowed t n a -> (0 <= a < copies_total b)%Z) /\
  (forall t au a, snd (return_book user_id book_id s) = Returned t au a -> (0 <= a <= copies_total b)%Z).
Proof.
  intros Hwf Hb. pose proof (wf_conservation _ Hwf _ _ Hb) as Hc. pose proof (wf_available _ Hwf _ _ Hb).
  split; intros t n a.
  - unfold borrow_book. destruct (find_user user_id s); [|done]. rewrite Hb.
    destruct (Z.ltb_spec 0 (copies_available b)); [|by repeat case_match].
    intros [= _ _ <-]. lia.
  - unfold return_book, serve_reservation. destruct (find_user user_id s) as [u|] eqn:Hu; [|done].
    rewrite Hb. case_bool_decide as Hin; [|done].
    pose proof (holders_pos book_id (users s) u (find_user_in _ _ _ Hu) Hin).
    repeat case_match; simpl; intros Heq; simplify_eq/=; lia.
Qed.

Lemma message_counts_bounded_witness :
  exists b, wf demo_waiting /\ find_book "B002" demo_waiting = Some b /\
    (forall t au a, snd (return_book "U001" "B002" demo_waiting) = Returned t au a ->
       (0 <= a <= copies_total b)%Z).
Proof.
  eexists. assert (Hwf : wf demo_waiting)
    by (apply wf_check_sound; apply (bool_decide_unpack _); vm_compute; exact I).
  assert (Hb : find_book "B002" demo_waiting = Some _) by reflexivity.
  exact (conj Hwf (conj Hb (proj2 (message_counts_bounded "U001" "B002" _ _ Hwf Hb)))).
Defined.
