(* ===== verification/Queue.v ===== *)
(** * Queue: the reservation queue is served first come, first served

    A user who finds no copy is appended to the book's [reservations]
    (line 43 of [src/controllers/store.py]); [return_book] hands the
    returned copy to the head of the queue and pops it (lines 53-59).  The
    specification calls this "FIFO — earliest reservation wins".

    The liveness property: from a well-formed store, a sequence of
    successful returns of a book serves the waiting users one per return,
    in the order they queued.  After [k] returns (no more than users
    waiting) the queue has lost exactly its first [k] users, and the undo
    records pushed name them, in that order, as the users the copy was
    handed to.  So every waiting user is served after the returns of the
    users ahead of them and their own; no later reservation overtakes an
    earlier one.  [returns_ok] is the progress assumption: each returning
    user holds the book when returning it. *)

From S2P Require Import Prelude Lookup Book User Store Lending Invariant.

(** Each returning user holds the book at their turn. *)
Fixpoint returns_ok (book_id : string) (rs : list string) (s : LibraryStore) : bool :=
  match rs with
  | [] => true
  | r :: rs' =>
      match find_user r s with Some u => book_id ∈? borrowed u | None => false end &&
      returns_ok book_id rs' (fst (return_book r book_id s))
  end.

(** The returns of [book_id] by [rs], one after the other. *)
Fixpoint run_returns (book_id : string) (rs : list string) (s : LibraryStore) : LibraryStore :=
  match rs with
  | [] => s
  | r :: rs' => run_returns book_id rs' (fst (return_book r book_id s))
  end.

(** One return while users wait: the head of the queue is served. *)
Lemma return_book_serves_head r bid s u b x q :
  wf s -> find_user r s = Some u -> bid ∈ borrowed u ->
  find_book bid s = Some b -> reservations b = x :: q ->
  (exists b', find_book bid (fst (return_book r bid s)) = Some b' /\ reservations b' = q) /\
  undo_stack (fst (return_book r bid s)) = RecReturn r bid (Some x) :: undo_stack s.
Proof.
  intros Hwf Hu Hin Hb Hq.
  destruct (wf_queues _ Hwf bid b x Hb) as [v Hv]; [rewrite Hq; set_solver|].
  unfold return_book. rewrite Hu, Hb, bool_decide_true by done.
  unfold serve_reservation. rewrite Hq.
  assert (Hx : is_Some (find_user x (update_book bid (map_reservations tail)
     (update_book bid inc_available (update_user r (map_borrowed (py_remove bid)) s)))))
    by (autorewrite with known_rw; eauto).
  destruct Hx as [v' ->]. simpl. rewrite (find_book_id _ _ _ Hb). simpl_find.
  split; [|done]. eexists; split; [done|]. simpl. by rewrite Hq.
Qed.

(** C14: the reservation queue is served in order: from a well-formed store,
    returns of a book by users who hold it serve the waiting users one per
    return, first come first served.  After the returns the queue has lost
    exactly its first [length rs] users, and the undo stack records, for
    each return, the user it handed the copy to: the users of the queue,
    in queue order. *)
Theorem returns_serve_queue_in_order book_id rs s b :
  wf s -> find_book book_id s = Some b -> returns_ok book_id rs s = true ->
  length rs <= length (reservations b) ->
  (exists b', find_book book_id (run_returns book_id rs s) = Some b' /\
              reservations b' = drop (length rs) (reservations b)) /\
  undo_stack (run_returns book_id rs s) =
    rev (zip_with (fun r x => RecReturn r book_id (Some x)) rs (reservations b)) ++ undo_stack s.
Proof.
  revert s b. induction rs as [|r rs IH]; intros s b Hwf Hb Hok Hlen; simpl.
  - split; [|done]. exists b. by rewrite drop_0.
  - apply andb_true_iff in Hok as [Hr Hok].
    destruct (find_user r s) as [u|] eqn:Hu; [|done]. apply bool_decide_eq_true in Hr.
    destruct (reservations b) as [|x q] eqn:Hq; simpl in Hlen; [lia|].
    destruct (return_book_serves_head r book_id s u b x q Hwf Hu Hr Hb Hq) as [(b1 & Hb1 & Hq1) Hst].
    destruct (IH _ b1 (wf_return_book s Hwf r book_id) Hb1 Hok) as [Hbook Hstack]; [rewrite Hq1; lia|].
    rewrite Hq1 in Hbook, Hstack. split; [done|].
    rewrite Hstack, Hst. simpl. by rewrite <-app_assoc.
Qed.

(** ** The theorem at work on the sample data *)

Local Open Scope string_scope.

(** In [demo_waiting] U001 holds the only copy of B002 and U002 waits. *)
Definition demo_b002 : Book := default (mk_book "" "" "" 0 0) (find_book "B002" demo_waiting).

Lemma returns_serve_queue_in_order_witness :
  wf demo_waiting /\ find_book "B002" demo_waiting = Some demo_b002 /\
  returns_ok "B002" ["U001"] demo_waiting = true /\ length ["U001"] <= length (reservations demo_b002) /\
  undo_stack (run_returns "B002" ["U001"] demo_waiting) =
    (rev (zip_with (fun r x => RecReturn r "B002" (Some x)) ["U001"] (reservations demo_b002))
     ++ undo_stack demo_waiting)%list.
Proof.
  assert (Hwf : wf demo_waiting)
    by (apply wf_check_sound; apply (bool_decide_unpack _); vm_compute; exact I).
  assert (Hb : find_book "B002" demo_waiting = Some demo_b002) by (vm_compute; reflexivity).
  assert (Hok : returns_ok "B002" ["U001"] demo_waiting = true) by (vm_compute; reflexivity).
  assert (Hl : length ["U001"] <= length (reservations demo_b002)) by (vm_compute; lia).
  exact (conj Hwf (conj Hb (conj Hok (conj Hl
    (proj2 (returns_serve_queue_in_order "B002" ["U001"] _ _ Hwf Hb Hok Hl)))))).
Defined.
