(* ===== verification/Undo.v ===== *)
(** * Undo: what [undo_last] restores

    [undo_last] ([src/controllers/store.py], lines 68-92) pops the record
    pushed by the last recorded [borrow_book] or [return_book] and applies
    the opposite mutations.  It restores the store only up to the order of
    the users' [borrowed] lists: a loan appends the book id at the end and
    its undo removes the first occurrence ([list.remove]), so a user holding
    two copies of a book sees them in another order.  [store_equiv] is that
    equivalence: same books, same undo stack, users pairwise equal up to a
    permutation of [borrowed].  It is a congruence for [undo_last]
    ([Proper] instance), which makes the stack a multi-level undo: after
    any number of recorded commands, as many undos give back the initial
    store up to [store_equiv].  Undo also always runs out: no undo pushes
    a record, so undoing once per record empties the stack. *)

From S2P Require Import Prelude Lookup Book User Store Lending Invariant.

(** ** The equivalence *)

Definition user_equiv (u v : User) : Prop :=
  User.id u = User.id v /\ name u = name v /\ email u = email v /\ borrowed u ≡ₚ borrowed v.

Definition store_equiv (s t : LibraryStore) : Prop :=
  books s = books t /\ Forall2 user_equiv (users s) (users t) /\ undo_stack s = undo_stack t.

Infix "≈" := store_equiv (at level 70) : lib_scope.

#[export] Instance user_equiv_equiv : Equivalence user_equiv.
Proof.
  split.
  - intros u. unfold user_equiv. done.
  - intros u v (? & ? & ? & Hp). unfold user_equiv. split_and!; [done..|by symmetry].
  - intros u v w (? & ? & ? & Hp1) (? & ? & ? & Hp2). split_and!; try congruence. by rewrite Hp1.
Qed.

#[export] Instance store_equiv_equiv : Equivalence store_equiv.
Proof.
  split.
  - intros s. split_and!; reflexivity.
  - intros s t (Hb & Hu & Hs). split_and!; by symmetry.
  - intros s t r (Hb1 & Hu1 & Hs1) (Hb2 & Hu2 & Hs2). split_and!; by etrans.
Qed.

(** ** Lookups and mutations respect the equivalence *)

Lemma find_by_id_equiv k us vs :
  Forall2 user_equiv us vs -> option_Forall2 user_equiv (find_by_id k us) (find_by_id k vs).
Proof.
  induction 1 as [|u v us vs Huv _ IH]; [constructor|]. rewrite !find_by_id_cons.
  destruct Huv as (Hid & ?). change (get_id u) with (User.id u). change (get_id v) with (User.id v).
  rewrite Hid. case_decide; [by constructor|done].
Qed.

Lemma update_by_id_equiv k (g : list string -> list string) us vs :
  Proper (Permutation ==> Permutation) g ->
  Forall2 user_equiv us vs ->
  Forall2 user_equiv (update_by_id k (map_borrowed g) us) (update_by_id k (map_borrowed g) vs).
Proof.
  intros Hg. induction 1 as [|u v us vs Huv Htl IH]; simpl; [constructor|].
  pose proof Huv as (Hid & Hn & He & Hp).
  change (get_id u) with (User.id u). change (get_id v) with (User.id v). rewrite Hid.
  case_decide; constructor; try done.
  unfold user_equiv, map_borrowed. simpl. split_and!; try done. by rewrite Hp.
Qed.

#[export] Instance app_singleton_proper (x : string) :
  Proper (Permutation ==> Permutation) (fun l : list string => l ++ [x]).
Proof. intros l k H. by rewrite H. Qed.

Lemma find_user_equiv k s t :
  s ≈ t -> option_Forall2 user_equiv (find_user k s) (find_user k t).
Proof. intros (_ & Hu & _). by apply find_by_id_equiv. Qed.

Lemma find_book_equiv k s t : s ≈ t -> find_book k s = find_book k t.
Proof. intros (Hb & _ & _). unfold find_book. by rewrite Hb. Qed.

Lemma update_user_equiv k g s t :
  Proper (Permutation ==> Permutation) g -> s ≈ t ->
  update_user k (map_borrowed g) s ≈ update_user k (map_borrowed g) t.
Proof. intros Hg (Hb & Hu & Hs). split_and!; simpl; [done| |done]. by apply update_by_id_equiv. Qed.

Lemma update_book_equiv k f s t : s ≈ t -> update_book k f s ≈ update_book k f t.
Proof. intros (Hb & Hu & Hs). split_and!; simpl; [by rewrite Hb|done|done]. Qed.

Lemma push_undo_equiv r s t : s ≈ t -> push_undo r s ≈ push_undo r t.
Proof. intros (Hb & Hu & Hs). split_and!; simpl; [done|done|by rewrite Hs]. Qed.

#[export] Hint Resolve update_user_equiv update_book_equiv push_undo_equiv : lib.

(** Equal messages and equivalent stores. *)
Definition result_equiv (r1 r2 : LibraryStore * Msg) : Prop :=
  fst r1 ≈ fst r2 /\ snd r1 = snd r2.

(** Case analysis on a user lookup in two equivalent stores. *)
Ltac case_find_user k H :=
  let Hf := fresh "Hf" in
  pose proof (find_user_equiv k _ _ H) as Hf;
  destruct (find_user k _), (find_user k _); inversion Hf; subst; clear Hf.

Lemma in_borrowed_equiv x u v : user_equiv u v -> (x ∈? borrowed u) = (x ∈? borrowed v).
Proof. intros (_ & _ & _ & Hp). apply bool_decide_ext. by rewrite Hp. Qed.

Lemma pop_equiv s t rest :
  s ≈ t -> {| books := books s; users := users s; undo_stack := rest |}
           ≈ {| books := books t; users := users t; undo_stack := rest |}.
Proof. intros (Hb & Hu & _). by split_and!. Qed.

Lemma unserve_reservation_equiv bid b a s t :
  s ≈ t -> unserve_reservation bid b a s ≈ unserve_reservation bid b a t.
Proof.
  intros H. unfold unserve_reservation. destruct (truthy_id a) as [nxt|]; [|done].
  case_find_user nxt H; [|done]. rewrite (in_borrowed_equiv _ _ _ H2).
  case_bool_decide; eauto 10 with lib typeclass_instances.
Qed.

#[export] Instance undo_last_proper : Proper (store_equiv ==> result_equiv) undo_last.
Proof.
  intros s t H. pose proof H as (Hb & Hu & Hs). unfold undo_last. rewrite Hs.
  destruct (undo_stack t) as [|r rest]; [done|].
  pose proof (pop_equiv s t rest H) as Hp.
  set (ps := {| books := books s; users := _; undo_stack := rest |}) in *.
  set (pt := {| books := books t; users := _; undo_stack := rest |}) in *. unfold undo_record.
  destruct r as [uid bid|uid bid a|op]; [| |done].
  - case_find_user uid Hp; [|done]. rewrite (find_book_equiv bid ps pt Hp).
    destruct (find_book bid pt) as [b|]; [|done].
    rewrite (in_borrowed_equiv _ _ _ H2). destruct H2 as (_ & Hn & _).
    case_bool_decide; split; simpl; try congruence; eauto 10 with lib typeclass_instances.
  - case_find_user uid Hp; [|done]. rewrite (find_book_equiv bid ps pt Hp).
    destruct (find_book bid pt) as [b|]; [|done].
    pose proof (unserve_reservation_equiv bid b a _ _ Hp) as Hun.
    rewrite (find_book_equiv bid _ _ Hun). destruct H2 as (_ & Hn & _).
    destruct (find_book bid (unserve_reservation _ _ _ pt)) as [b'|]; [|done].
    case_match; split; simpl; try congruence; eauto 10 with lib typeclass_instances.
Qed.

(** ** Undoing one recorded command *)

(** A mutation that leaves the found user equivalent leaves the users
    equivalent. *)
Lemma users_update_id k f us :
  (forall x, find_by_id k us = Some x -> user_equiv (f x) x) ->
  Forall2 user_equiv (update_by_id k f us) us.
Proof.
  intros Hf. destruct (find_by_id k us) as [x|] eqn:E.
  - destruct (update_by_id_split k f us x E) as (l1 & l2 & -> & -> & _).
    apply Forall2_app; [reflexivity|]. constructor; [by apply Hf|reflexivity].
  - rewrite update_by_id_None by done. reflexivity.
Qed.

Lemma user_equiv_borrowed g u : borrowed u ≡ₚ g (borrowed u) -> user_equiv (map_borrowed g u) u.
Proof. intros Hg. unfold user_equiv. repeat split. simpl. by symmetry. Qed.

(** Undo right after a successful loan. *)
Lemma undo_last_after_borrow user_id book_id s u b :
  find_user user_id s = Some u -> find_book book_id s = Some b ->
  (0 < copies_available b)%Z ->
  result_equiv (undo_last (fst (borrow_book user_id book_id s))) (s, UndoneBorrow (title b) (User.name u)).
Proof.
  intros Hu Hb Hpos. unfold borrow_book. rewrite Hu, Hb.
  apply Z.ltb_lt in Hpos as ->. simpl. rewrite undo_last_push. unfold undo_record.
  simpl_find. rewrite (find_book_id _ _ _ Hb), bool_decide_true by set_solver.
  split; [|done]. split_and!; simpl.
  - rewrite update_by_id_compose by eauto with lib.
    apply update_by_id_id. intros x Hx. by rewrite inc_dec_available.
  - rewrite update_by_id_compose by eauto with lib.
    apply users_update_id. intros x _.
    apply (user_equiv_borrowed (fun l => py_remove book_id (l ++ [book_id]))).
    by rewrite py_remove_app_last.
  - done.
Qed.

(** C3: undoing a successful loan gives the store back (up to the order of
    the borrower's list) and reports the undone loan. *)
Theorem undo_borrow_book user_id book_id s u b :
  find_user user_id s = Some u -> find_book book_id s = Some b ->
  (0 < copies_available b)%Z ->
  result_equiv (undo_last (fst (borrow_book user_id book_id s))) (s, UndoneBorrow (title b) (User.name u)).
Proof. exact (undo_last_after_borrow user_id book_id s u b). Qed.

(** The users after the returning user gives the book back and gets it
    again (undo of a return). *)
Lemma users_give_back_take uid bid us u :
  find_by_id uid us = Some u -> bid ∈ borrowed u ->
  Forall2 user_equiv
    (update_by_id uid (map_borrowed (fun l => l ++ [bid]))
       (update_by_id uid (map_borrowed (py_remove bid)) us)) us.
Proof.
  intros Hu Hin. rewrite update_by_id_compose by eauto with lib.
  apply users_update_id. intros x Hx. rewrite Hu in Hx. injection Hx as <-.
  apply (user_equiv_borrowed (fun l => py_remove bid l ++ [bid]) u).
  by rewrite py_remove_app_perm.
Qed.

Lemma undo_return_plain user_id book_id s u b :
  find_user user_id s = Some u -> find_book book_id s = Some b -> book_id ∈ borrowed u ->
  reservations b = [] -> (0 <= copies_available b)%Z ->
  result_equiv (undo_last (fst (return_book user_id book_id s)))
    (s, UndoneReturn (title b) (User.name u)).
Proof.
  intros Hu Hb Hin Hq Hav. unfold return_book. rewrite Hu, Hb, bool_decide_true by done.
  unfold serve_reservation. rewrite Hq. simpl. rewrite undo_last_push. unfold undo_record.
  simpl_find. unfold unserve_reservation. simpl. simpl_find.
  rewrite (proj2 (Z.ltb_lt _ _)) by lia. rewrite (find_book_id _ _ _ Hb).
  split; [|done]. split_and!; simpl.
  - rewrite update_by_id_compose by eauto with lib.
    apply update_by_id_id. intros x Hx. by rewrite dec_inc_available.
  - by eapply users_give_back_take.
  - done.
Qed.

(** The book after a promotion and its undo: the copy count and the queue
    are back. *)
Lemma book_promote_undo b q rest :
  reservations b = q :: rest ->
  dec_available (inc_available (map_reservations (cons q)
    (dec_available (map_reservations tail (inc_available b))))) = b.
Proof.
  intros Hq. destruct b. unfold dec_available, inc_available, map_available, map_reservations.
  simpl in *. subst. f_equal. lia.
Qed.

Lemma books_promote_undo bid b q rest bs :
  find_by_id bid bs = Some b -> reservations b = q :: rest ->
  update_by_id bid dec_available (update_by_id bid inc_available
    (update_by_id bid (map_reservations (cons q)) (update_by_id bid dec_available
      (update_by_id bid (map_reservations tail) (update_by_id bid inc_available bs))))) = bs.
Proof.
  intros Hb Hq. rewrite !update_by_id_compose by eauto with lib.
  apply update_by_id_id. intros x Hx. rewrite Hb in Hx. injection Hx as <-.
  by apply book_promote_undo with rest.
Qed.

(** The users after a promotion of the returning user itself and its undo. *)
Lemma users_promote_undo_self uid bid us u :
  find_by_id uid us = Some u -> bid ∈ borrowed u ->
  Forall2 user_equiv
    (update_by_id uid (map_borrowed (fun l => l ++ [bid]))
      (update_by_id uid (map_borrowed (py_remove bid))
        (update_by_id uid (map_borrowed (fun l => l ++ [bid]))
          (update_by_id uid (map_borrowed (py_remove bid)) us)))) us.
Proof.
  intros Hu Hin. rewrite !update_by_id_compose by eauto with lib.
  apply users_update_id. intros x Hx. rewrite Hu in Hx. injection Hx as <-.
  apply (user_equiv_borrowed (fun l => py_remove bid (py_remove bid l ++ [bid]) ++ [bid]) u).
  by rewrite py_remove_app_last, py_remove_app_perm.
Qed.

(** The users after a promotion of another user and its undo. *)
Lemma users_promote_undo_other uid nxt bid us u v :
  find_by_id uid us = Some u -> bid ∈ borrowed u -> find_by_id nxt us = Some v -> nxt ≠ uid ->
  Forall2 user_equiv
    (update_by_id uid (map_borrowed (fun l => l ++ [bid]))
      (update_by_id nxt (map_borrowed (py_remove bid))
        (update_by_id nxt (map_borrowed (fun l => l ++ [bid]))
          (update_by_id uid (map_borrowed (py_remove bid)) us)))) us.
Proof.
  intros Hu Hin Hv Hne. rewrite update_by_id_compose by eauto with lib.
  rewrite (update_by_id_comm nxt uid) by (done || intros ?; done).
  rewrite update_by_id_compose by eauto with lib.
  etrans; apply users_update_id.
  - intros x Hx. rewrite find_update_ne in Hx by (done || intros ?; done).
    rewrite Hu in Hx. injection Hx as <-.
    apply (user_equiv_borrowed (fun l => py_remove bid l ++ [bid]) u).
    by rewrite py_remove_app_perm.
  - intros x Hx. rewrite Hv in Hx. injection Hx as <-.
    apply (user_equiv_borrowed (fun l => py_remove bid (l ++ [bid])) v).
    by rewrite py_remove_app_last.
Qed.

Lemma undo_return_promoted user_id book_id s u b next_user_id rest v0 :
  find_user user_id s = Some u -> find_book book_id s = Some b -> book_id ∈ borrowed u ->
  reservations b = next_user_id :: rest -> find_user next_user_id s = Some v0 ->
  next_user_id ≠ ""%string -> (0 <= copies_available b)%Z ->
  result_equiv (undo_last (fst (return_book user_id book_id s)))
    (s, UndoneReturn (title b) (User.name u)).
Proof.
  intros Hu Hb Hin Hq Hv0 Hne Hav. unfold return_book. rewrite Hu, Hb, bool_decide_true by done.
  unfold serve_reservation. rewrite Hq. simpl_find.
  assert (Hv : exists v, find_user next_user_id (update_user user_id (map_borrowed (py_remove book_id)) s) = Some v).
  { rewrite find_user_update by eauto with lib. case_decide; subst; [rewrite Hu|rewrite Hv0]; eauto. }
  destruct Hv as [v Hv]. rewrite Hv. simpl. rewrite undo_last_push. unfold undo_record.
  rewrite (find_book_id _ _ _ Hb).
  destruct (decide (next_user_id = user_id)) as [->|Hne'].
  - simpl_find. unfold unserve_reservation, truthy_id. rewrite decide_False by done.
    simpl_find. rewrite (find_book_id _ _ _ Hb), bool_decide_true by set_solver.
    simpl_find. rewrite (proj2 (Z.ltb_lt _ _)) by lia.
    split; [|rewrite Hu in Hv0; by injection Hv0 as ->]. split_and!; simpl; [| |done].
    + exact (books_promote_undo _ _ _ _ _ Hb Hq).
    + exact (users_promote_undo_self _ _ _ _ Hu Hin).
  - assert (Hne'' : user_id ≠ next_user_id) by congruence.
    rewrite (find_user_update_ne next_user_id user_id) by eauto with lib.
    rewrite find_user_update_ne in Hv by eauto with lib. simpl_find.
    unfold unserve_reservation, truthy_id. rewrite decide_False by done. simpl_find.
    rewrite (find_user_update_ne user_id next_user_id) by eauto with lib.
    simpl_find. rewrite (find_book_id _ _ _ Hb), bool_decide_true by set_solver.
    simpl_find. rewrite (proj2 (Z.ltb_lt _ _)) by lia.
    split; [|done]. split_and!; simpl; [| |done].
    + exact (books_promote_undo _ _ _ _ _ Hb Hq).
    + exact (users_promote_undo_other _ _ _ _ _ _ Hu Hin Hv Hne').
Qed.

(** C4: undoing a successful return, on a well-formed store where no user
    has the empty id, gives the store back (up to the order of the
    borrowers' lists), the reservation queue included, and reports it. *)
Theorem undo_return_book user_id book_id s u b :
  wf s -> find_user ""%string s = None ->
  find_user user_id s = Some u -> find_book book_id s = Some b -> book_id ∈ borrowed u ->
  result_equiv (undo_last (fst (return_book user_id book_id s)))
    (s, UndoneReturn (title b) (User.name u)).
Proof.
  intros Hwf Hempty Hu Hb Hin. pose proof (wf_available _ Hwf _ _ Hb).
  destruct (reservations b) as [|nxt rest] eqn:Hq; [by apply undo_return_plain|].
  destruct (wf_queues _ Hwf book_id b nxt Hb) as [v0 Hv0]; [rewrite Hq; set_solver|].
  eapply undo_return_promoted; eauto. intros ->. congruence.
Qed.

(** ** The undo stack is a multi-level undo *)

(** The recorded commands of the store. *)
Inductive Cmd :=
  | Borrow (user_id book_id : string)
  | Return (user_id book_id : string).

Definition run_cmd (c : Cmd) (s : LibraryStore) : LibraryStore :=
  match c with
  | Borrow user_id book_id => fst (borrow_book user_id book_id s)
  | Return user_id book_id => fst (return_book user_id book_id s)
  end.

Fixpoint run_cmds (cs : list Cmd) (s : LibraryStore) : LibraryStore :=
  match cs with
  | [] => s
  | c :: cs' => run_cmds cs' (run_cmd c s)
  end.

(** The command pushed an undo record. *)
Definition pushes (c : Cmd) (s : LibraryStore) : Prop :=
  length (undo_stack (run_cmd c s)) = S (length (undo_stack s)).

Fixpoint all_push (cs : list Cmd) (s : LibraryStore) : Prop :=
  match cs with
  | [] => True
  | c :: cs' => pushes c s /\ all_push cs' (run_cmd c s)
  end.

(** [n] consecutive calls of [undo_last]. *)
Definition undo_n (n : nat) (s : LibraryStore) : LibraryStore :=
  Nat.iter n (fun t => fst (undo_last t)) s.

Lemma undo_n_proper n s t : s ≈ t -> undo_n n s ≈ undo_n n t.
Proof. induction n as [|n IH]; simpl; [done|]. intros H. apply undo_last_proper, IH, H. Qed.

Lemma run_cmd_wf c s : wf s -> wf (run_cmd c s).
Proof. destruct c; simpl; eauto using wf_borrow_book, wf_return_book. Qed.

Lemma run_cmd_user_ids c s : get_id <$> users (run_cmd c s) = get_id <$> users s.
Proof.
  destruct c as [uid bid|uid bid]; simpl.
  - unfold borrow_book. repeat case_match; simpl; try done.
    all: by rewrite ?update_by_id_ids by (intros ?; done).
  - unfold return_book, serve_reservation. repeat case_match; simplify_eq/=; try done.
    all: by rewrite ?update_by_id_ids by (intros ?; done).
Qed.

Lemma run_cmd_find_user_None k c s :
  find_user k s = None -> find_user k (run_cmd c s) = None.
Proof. unfold find_user. rewrite !find_by_id_None, run_cmd_user_ids. done. Qed.

(** A command that pushed a record is undone by the next [undo_last]. *)
Lemma undo_run_cmd c s :
  wf s -> find_user ""%string s = None -> pushes c s -> fst (undo_last (run_cmd c s)) ≈ s.
Proof.
  intros Hwf Hempty. unfold pushes. destruct c as [uid bid|uid bid]; simpl.
  - destruct (find_user uid s) as [u|] eqn:Hu;
      [|unfold borrow_book; rewrite Hu; simpl; lia].
    destruct (find_book bid s) as [b|] eqn:Hb;
      [|unfold borrow_book; rewrite Hu, Hb; simpl; lia].
    destruct (Z.ltb_spec 0 (copies_available b)) as [Hpos|Hle].
    + intros _. apply (undo_borrow_book uid bid s u b Hu Hb Hpos).
    + unfold borrow_book. rewrite Hu, Hb, (proj2 (Z.ltb_ge _ _) Hle).
      case_bool_decide; simpl; lia.
  - destruct (find_user uid s) as [u|] eqn:Hu;
      [|unfold return_book; rewrite Hu; simpl; lia].
    destruct (find_book bid s) as [b|] eqn:Hb;
      [|unfold return_book; rewrite Hu, Hb; simpl; lia].
    destruct (decide (bid ∈ borrowed u)) as [Hin|Hin].
    + intros _. apply (undo_return_book uid bid s u b Hwf Hempty Hu Hb Hin).
    + unfold return_book. rewrite Hu, Hb, bool_decide_false by done. simpl. lia.
Qed.

(** C5: the undo stack is multi-level (and not of depth one): from a
    well-formed store in which no user has the empty id, after any
    sequence of commands that each pushed a record, as many calls of
    [undo_last] give back the initial store, up to the order of the
    borrowers' lists. *)
Theorem undo_n_run_cmds cs s :
  wf s -> find_user ""%string s = None -> all_push cs s ->
  undo_n (length cs) (run_cmds cs s) ≈ s.
Proof.
  revert s. induction cs as [|c cs IH]; intros s Hwf Hempty; simpl; [done|].
  intros [Hp Hall]. change (undo_n (S (length cs)) (run_cmds cs (run_cmd c s)))
    with (fst (undo_last (undo_n (length cs) (run_cmds cs (run_cmd c s))))).
  etrans; [apply undo_last_proper, IH; eauto using run_cmd_wf, run_cmd_find_user_None|].
  by apply undo_run_cmd.
Qed.

(** ** Undo and the reservation queue *)

(** The store [undo_last] works on once it has popped the top record. *)
Definition popped (s : LibraryStore) (rest : list UndoRecord) : LibraryStore :=
  {| books := books s; users := users s; undo_stack := rest |}.

Lemma undo_last_top s r rest : undo_stack s = r :: rest -> undo_last s = undo_record r (popped s rest).
Proof. intros Hs. unfold undo_last. by rewrite Hs. Qed.

Lemma find_user_popped k s rest : find_user k (popped s rest) = find_user k s.
Proof. done. Qed.

Lemma find_book_popped k s rest : find_book k (popped s rest) = find_book k s.
Proof. done. Qed.

#[export] Hint Rewrite find_user_popped find_book_popped : lib_rw.

(** C18: Undoing a return that promoted [x] (a non-empty id of a user who
    still holds the book) puts [x] back at the front of the book's queue,
    whether or not [x] is waiting already, and whether or not the undo
    then finds a copy for the returning user (lines 81-86 run before the
    test of line 87): a user who queued again after the promotion ends up
    in the queue twice.  The specification puts the original borrower back
    at the front and keeps the queue free of duplicates. *)
Theorem undo_return_requeues_front s rest uid bid x u b nu :
  undo_stack s = RecReturn uid bid (Some x) :: rest -> x ≠ ""%string ->
  find_user uid s = Some u -> find_book bid s = Some b ->
  find_user x s = Some nu -> bid ∈ borrowed nu ->
  reservations <$> find_book bid (fst (undo_last s)) = Some (x :: reservations b).
Proof.
  intros Hs Hx Hu Hb Hnu Hin. rewrite (undo_last_top _ _ _ Hs). cbn [undo_record].
  simpl_find. unfold unserve_reservation, truthy_id. rewrite decide_False by done.
  simpl_find. rewrite (find_book_id _ _ _ Hb), bool_decide_true by done.
  simpl_find. destruct (_ <? _)%Z; cbn [fst]; simpl_find; by destruct b.
Qed.

(** C19: Undoing a loan gives the copy back but does not serve the queue:
    the book's queue stays as it was and the next caller of
    [borrow_book], whoever it is, takes the copy ahead of the users
    waiting (lines 73-74).  The specification does not say what undo does
    with the queue. *)
Theorem undo_borrow_skips_queue s rest uid bid u b v uv :
  undo_stack s = RecBorrow uid bid :: rest ->
  find_user uid s = Some u -> find_book bid s = Some b -> bid ∈ borrowed u ->
  (0 <= copies_available b)%Z -> find_user v s = Some uv ->
  reservations <$> find_book bid (fst (undo_last s)) = Some (reservations b) /\
  exists t n a, snd (borrow_book v bid (fst (undo_last s))) = Borrowed t n a.
Proof.
  intros Hs Hu Hb Hin Hav Hv. rewrite (undo_last_top _ _ _ Hs). cbn [undo_record].
  simpl_find. rewrite (find_book_id _ _ _ Hb), bool_decide_true by done. simpl.
  simpl_find. split; [by destruct b|].
  unfold borrow_book. simpl_find.
  destruct (find_user_update_is_Some uid v (map_borrowed (py_remove bid)) (popped s rest))
    as [_ Hsome]; [intros ?; done|].
  destruct Hsome as [uv' Huv']; [rewrite find_user_popped, Hv; eauto|]. rewrite Huv'.
  rewrite (proj2 (Z.ltb_lt _ _)) by (simpl; lia). eauto.
Qed.

(** ** The theorems at work on the sample data *)

Local Open Scope string_scope.

Ltac check_wf := apply wf_check_sound; apply (bool_decide_unpack _); vm_compute; exact I.

Lemma undo_borrow_book_witness :
  exists u b, find_user "U001" demo = Some u /\ find_book "B001" demo = Some b /\
    (0 < copies_available b)%Z /\
    result_equiv (undo_last (fst (borrow_book "U001" "B001" demo)))
                 (demo, UndoneBorrow (title b) (User.name u)).
Proof.
  do 2 eexists. split_and!; [eval_hyp..|].
  apply undo_borrow_book; eval_hyp.
Defined.

Lemma undo_return_book_witness :
  exists u b, wf demo_waiting /\ find_user "" demo_waiting = None /\
    find_user "U001" demo_waiting = Some u /\ find_book "B002" demo_waiting = Some b /\
    "B002" ∈ borrowed u /\
    result_equiv (undo_last (fst (return_book "U001" "B002" demo_waiting)))
                 (demo_waiting, UndoneReturn (title b) (User.name u)).
Proof.
  assert (Hwf : wf demo_waiting) by check_wf.
  do 2 eexists. split_and!; [exact Hwf|eval_hyp..|].
  apply undo_return_book; [exact Hwf|eval_hyp..].
Defined.

Definition demo_cmds : list Cmd :=
  [Return "U001" "B002"; Borrow "U002" "B002"; Borrow "U001" "B001";
   Return "U002" "B002"; Borrow "U002" "B001"].

Lemma undo_n_run_cmds_witness :
  wf demo_lent /\ find_user "" demo_lent = None /\ all_push demo_cmds demo_lent /\
  undo_n 5 (run_cmds demo_cmds demo_lent) ≈ demo_lent.
Proof.
  assert (Hwf : wf demo_lent) by check_wf.
  assert (Hp : all_push demo_cmds demo_lent) by (vm_compute; tauto).
  split_and!; [exact Hwf|eval_hyp|exact Hp|].
  apply (undo_n_run_cmds demo_cmds); [exact Hwf|eval_hyp|exact Hp].
Defined.

(** ** Undo always runs out *)

Lemma undo_record_stack r s : undo_stack (fst (undo_record r s)) = undo_stack s.
Proof. unfold undo_record, unserve_reservation. by repeat case_match. Qed.

Lemma undo_last_stack s : undo_stack (fst (undo_last s)) = tail (undo_stack s).
Proof. unfold undo_last. destruct (undo_stack s) eqn:E; [done|]. apply undo_record_stack. Qed.

Lemma undo_n_stack n s : undo_stack (undo_n n s) = drop n (undo_stack s).
Proof.
  induction n as [|n IH]; [by rewrite drop_0|].
  change (undo_n (S n) s) with (fst (undo_last (undo_n n s))).
  rewrite undo_last_stack, IH. destruct (drop n (undo_stack s)) as [|r rest] eqn:E; simpl.
  - replace (S n) with (n + 1) by lia. by rewrite <-drop_drop, E.
  - replace (S n) with (n + 1) by lia. by rewrite <-drop_drop, E.
Qed.

(** C21: Each [undo_last] pops exactly one record and pushes none, so pressing
    undo once per record on the stack empties it, whatever the records and
    whether their undo succeeds, and one more press reports that there is
    nothing to undo: repeated undo terminates. *)
Theorem undo_n_exhausts s :
  undo_stack (undo_n (length (undo_stack s)) s) = [] /\
  snd (undo_last (undo_n (length (undo_stack s)) s)) = NothingToUndo.
Proof.
  assert (H : undo_stack (undo_n (length (undo_stack s)) s) = []) by (by rewrite undo_n_stack, drop_all).
  split; [done|]. unfold undo_last. by rewrite H.
Qed.

(** ** The undo of the queue on the sample data *)

(** [U001] returns [B002] to [U002], who waited and is promoted, and who
    then asks for [B002] again: no copy is free, so [U002] queues. *)
Definition demo_requeued : LibraryStore :=
  fst (borrow_book "U002" "B002" (fst (return_book "U001" "B002" demo_waiting))).

Lemma undo_return_requeues_front_witness :
  exists u b nu,
    undo_stack demo_requeued = RecReturn "U001" "B002" (Some "U002") :: tail (undo_stack demo_requeued) /\
    find_user "U001" demo_requeued = Some u /\ find_book "B002" demo_requeued = Some b /\
    find_user "U002" demo_requeued = Some nu /\ "B002" ∈ borrowed nu /\
    reservations b = ["U002"] /\
    reservations <$> find_book "B002" (fst (undo_last demo_requeued)) = Some ("U002" :: reservations b).
Proof.
  do 3 eexists. split_and!; [reflexivity|eval_hyp..|].
  eapply (undo_return_requeues_front _ (tail (undo_stack demo_requeued)) "U001");
    [reflexivity|discriminate|eval_hyp..].
Defined.

(** [U002] waits for [B002], which [U001] holds; the loan is undone and
    [U001] takes the copy again ahead of [U002]. *)
Lemma undo_borrow_skips_queue_witness :
  exists u b uv,
    undo_stack demo_waiting = RecBorrow "U001" "B002" :: tail (undo_stack demo_waiting) /\
    find_user "U001" demo_waiting = Some u /\ find_book "B002" demo_waiting = Some b /\
    "B002" ∈ borrowed u /\ (0 <= copies_available b)%Z /\ find_user "U001" demo_waiting = Some uv /\
    reservations b = ["U002"] /\
    reservations <$> find_book "B002" (fst (undo_last demo_waiting)) = Some (reservations b) /\
    exists t n a, snd (borrow_book "U001" "B002" (fst (undo_last demo_waiting))) = Borrowed t n a.
Proof.
  do 3 eexists. split_and!; try solve [eval_hyp].
  refine (proj2 (undo_borrow_skips_queue _ (tail (undo_stack demo_waiting)) "U001" _ _ _ _ _ _ _ _ _ _ _));
    eval_hyp.
Defined.
