(* ===== verification/Abstract.v ===== *)
(** * Abstract: the store as maps and multisets, and its refinement

    The specification describes the catalogue and the membership as
    collections indexed by identifier, and a user's holdings as a
    collection of book ids whose order plays no role.  [AStore] is that
    description: a [gmap] of books, a [gmap] of users whose holdings are a
    [gmultiset], and the undo stack.  [a_borrow], [a_return], [a_undo],
    [a_add_book] and [a_add_user] are the operations of
    [src/controllers/store.py] written on it with map lookups ([!!]),
    [alter], [insert] and multiset union and difference.

    [abs] maps a [LibraryStore] to its [AStore]: the first entry of each id
    (the one the linear scans find) and the multiset of each [borrowed]
    list.  The refinement theorems state that each list operation of
    [Lending] and [Store] commutes with [abs] and returns the same message,
    with no hypothesis on the store (a scan finds the entry [to_map]
    keeps); for whole runs of operations too.  [abs] identifies the stores
    that [Undo.store_equiv] identifies, so on the abstract store the undo
    theorems of [Undo] become equalities. *)

From S2P Require Import Prelude Lookup Book User Store Lending Undo.
From stdpp Require Import gmap gmultiset.

(** ** The abstract store *)

Record AUser := { a_name : string; a_email : string; a_borrowed : gmultiset string }.

Record AStore := {
  a_books : gmap string Book;
  a_users : gmap string AUser;
  a_stack : list UndoRecord
}.

Definition a_take (bid : string) (u : AUser) : AUser :=
  {| a_name := a_name u; a_email := a_email u; a_borrowed := a_borrowed u ⊎ {[+ bid +]} |}.

Definition a_give (bid : string) (u : AUser) : AUser :=
  {| a_name := a_name u; a_email := a_email u; a_borrowed := a_borrowed u ∖ {[+ bid +]} |}.

Definition a_alter_book (f : Book -> Book) (k : string) (a : AStore) : AStore :=
  {| a_books := alter f k (a_books a); a_users := a_users a; a_stack := a_stack a |}.

Definition a_alter_user (f : AUser -> AUser) (k : string) (a : AStore) : AStore :=
  {| a_books := a_books a; a_users := alter f k (a_users a); a_stack := a_stack a |}.

Definition a_push (r : UndoRecord) (a : AStore) : AStore :=
  {| a_books := a_books a; a_users := a_users a; a_stack := r :: a_stack a |}.

(** ** The operations on the abstract store *)

Definition a_add_book (b : Book) (a : AStore) : AStore * Msg :=
  match a_books a !! Book.id b with
  | Some _ => (a, BookExists (Book.id b))
  | None => ({| a_books := <[Book.id b := b]> (a_books a); a_users := a_users a; a_stack := a_stack a |},
             BookAdded (title b))
  end.

Definition abs_user (u : User) : AUser :=
  {| a_name := User.name u; a_email := email u; a_borrowed := list_to_set_disj (borrowed u) |}.

Definition a_add_user (u : User) (a : AStore) : AStore * Msg :=
  match a_users a !! User.id u with
  | Some _ => (a, UserExists (User.id u))
  | None => ({| a_books := a_books a; a_users := <[User.id u := abs_user u]> (a_users a);
                a_stack := a_stack a |}, UserAdded (User.name u))
  end.

Definition a_borrow (uid bid : string) (a : AStore) : AStore * Msg :=
  match a_users a !! uid, a_books a !! bid with
  | None, _ => (a, UserNotFound uid)
  | Some _, None => (a, BookNotFound bid)
  | Some u, Some b =>
      if (0 <? copies_available b)%Z then
        (a_push (RecBorrow uid bid) (a_alter_user (a_take bid) uid (a_alter_book dec_available bid a)),
         Borrowed (title b) (a_name u) (copies_available b - 1)%Z)
      else if uid ∈? reservations b then (a, AlreadyQueued (a_name u) (title b))
      else (a_alter_book (map_reservations (fun q => q ++ [uid])) bid a,
            Queued (a_name u) (title b) (length (reservations b) + 1))
  end.

Definition a_return (uid bid : string) (a : AStore) : AStore * Msg :=
  match a_users a !! uid, a_books a !! bid with
  | None, _ => (a, UserNotFound uid)
  | Some _, None => (a, BookNotFound bid)
  | Some u, Some b =>
      if negb (bid ∈? a_borrowed u) then (a, NotBorrowed (a_name u) (title b))
      else
        let a := a_alter_book inc_available bid (a_alter_user (a_give bid) uid a) in
        match reservations b with
        | [] => (a_push (RecReturn uid bid None) a, Returned (title b) NoReservation (copies_available b + 1)%Z)
        | nxt :: _ =>
            let a := a_alter_book (map_reservations tail) bid a in
            match a_users a !! nxt with
            | Some v =>
                (a_push (RecReturn uid bid (Some nxt)) (a_alter_user (a_take bid) nxt (a_alter_book dec_available bid a)),
                 Returned (title b) (AssignedTo (a_name v)) (copies_available b))
            | None => (a_push (RecReturn uid bid None) a, Returned (title b) NextGone (copies_available b + 1)%Z)
            end
        end
  end.

Definition a_unserve (bid : string) (autoloan : option string) (a : AStore) : AStore :=
  match truthy_id autoloan with
  | Some nxt =>
      match a_users a !! nxt with
      | Some v =>
          if bid ∈? a_borrowed v then
            a_alter_book inc_available bid (a_alter_book (map_reservations (cons nxt)) bid
              (a_alter_user (a_give bid) nxt a))
          else a
      | None => a
      end
  | None => a
  end.

Definition a_undo_record (r : UndoRecord) (a : AStore) : AStore * Msg :=
  match r with
  | RecBorrow uid bid =>
      match a_users a !! uid, a_books a !! bid with
      | Some u, Some b =>
          if bid ∈? a_borrowed u then
            (a_alter_book inc_available bid (a_alter_user (a_give bid) uid a), UndoneBorrow (title b) (a_name u))
          else (a, UndoBorrowFailed)
      | _, _ => (a, UndoBorrowFailed)
      end
  | RecReturn uid bid autoloan =>
      match a_users a !! uid, a_books a !! bid with
      | Some u, Some b =>
          let a := a_unserve bid autoloan a in
          match a_books a !! bid with
          | Some b' =>
              if (0 <? copies_available b')%Z then
                (a_alter_user (a_take bid) uid (a_alter_book dec_available bid a), UndoneReturn (title b) (a_name u))
              else (a, UndoNoCopy)
          | None => (a, UndoNoCopy)
          end
      | _, _ => (a, UndoReturnFailed)
      end
  | RecOther _ => (a, UnknownOp)
  end.

Definition a_undo (a : AStore) : AStore * Msg :=
  match a_stack a with
  | [] => (a, NothingToUndo)
  | r :: rest => a_undo_record r {| a_books := a_books a; a_users := a_users a; a_stack := rest |}
  end.

(** ** The abstraction *)

Definition abs (s : LibraryStore) : AStore :=
  {| a_books := to_map (books s); a_users := abs_user <$> to_map (users s); a_stack := undo_stack s |}.

Definition abs_result (r : LibraryStore * Msg) : AStore * Msg := (abs (fst r), snd r).

(** ** [abs] commutes with the lookups and the mutations *)

Lemma abs_find_book k s : a_books (abs s) !! k = find_book k s.
Proof. apply to_map_lookup. Qed.

Lemma abs_find_user k s : a_users (abs s) !! k = abs_user <$> find_user k s.
Proof. simpl. by rewrite lookup_fmap, to_map_lookup. Qed.

Lemma list_to_set_disj_py_remove (x : string) l :
  list_to_set_disj (py_remove x l) =@{gmultiset string} list_to_set_disj l ∖ {[+ x +]}.
Proof.
  destruct (decide (x ∈ l)) as [Hx|Hx].
  - rewrite <-(py_remove_app_perm x l Hx) at 2. rewrite list_to_set_disj_app. multiset_solver.
  - rewrite py_remove_not_in by done. rewrite <-elem_of_list_to_set_disj in Hx. multiset_solver.
Qed.

Lemma abs_user_take x u : abs_user (map_borrowed (fun l => l ++ [x]) u) = a_take x (abs_user u).
Proof. unfold abs_user, a_take. simpl. f_equal. rewrite list_to_set_disj_app. multiset_solver. Qed.

Lemma abs_user_give x u : abs_user (map_borrowed (py_remove x) u) = a_give x (abs_user u).
Proof. unfold abs_user, a_give. simpl. by rewrite list_to_set_disj_py_remove. Qed.

Lemma abs_in_borrowed x u :
  (x ∈? borrowed u) = (x ∈? (list_to_set_disj (borrowed u) : gmultiset string)).
Proof. apply bool_decide_ext. by rewrite elem_of_list_to_set_disj. Qed.

Lemma abs_update_book k f s : keeps_id f -> abs (update_book k f s) = a_alter_book f k (abs s).
Proof. intros Hf. unfold abs, a_alter_book. simpl. by rewrite to_map_update. Qed.

Lemma abs_update_user k g h s :
  (forall u, abs_user (map_borrowed g u) = h (abs_user u)) ->
  abs (update_user k (map_borrowed g) s) = a_alter_user h k (abs s).
Proof.
  intros Hg. unfold abs, a_alter_user. simpl. rewrite to_map_update by eauto with lib.
  f_equal. apply fmap_alter. auto.
Qed.

Lemma abs_update_user_take k x s :
  abs (update_user k (map_borrowed (fun l => l ++ [x])) s) = a_alter_user (a_take x) k (abs s).
Proof. apply abs_update_user, abs_user_take. Qed.

Lemma abs_update_user_give k x s :
  abs (update_user k (map_borrowed (py_remove x)) s) = a_alter_user (a_give x) k (abs s).
Proof. apply abs_update_user, abs_user_give. Qed.

Lemma abs_push r s : abs (push_undo r s) = a_push r (abs s).
Proof. done. Qed.

Lemma abs_pop s rest :
  abs {| books := books s; users := users s; undo_stack := rest |} =
  {| a_books := a_books (abs s); a_users := a_users (abs s); a_stack := rest |}.
Proof. done. Qed.

(** Folds the abstract side of a refinement goal into [abs] of concrete
    stores, then reads its lookups as the concrete scans. *)
Create Rewrite HintDb abs_fold.
#[export] Hint Rewrite <- abs_update_book using eauto with lib : abs_fold.
#[export] Hint Rewrite <- abs_update_user_take abs_update_user_give abs_push abs_pop : abs_fold.
#[export] Hint Rewrite abs_find_book abs_find_user : abs_fold.

(** ** Refinement, operation by operation *)

Section refinement.
Context (s : LibraryStore).

Lemma add_book_refines b : abs_result (add_book b s) = a_add_book b (abs s).
Proof.
  unfold add_book, a_add_book, abs_result. rewrite abs_find_book.
  destruct (find_book (Book.id b) s) eqn:Hb; [done|]. simpl. f_equal.
  unfold abs. simpl. f_equal. by apply to_map_append_fresh.
Qed.

Lemma add_user_refines u : abs_result (add_user u s) = a_add_user u (abs s).
Proof.
  unfold add_user, a_add_user, abs_result. rewrite abs_find_user.
  destruct (find_user (User.id u) s) eqn:Hu; [done|]. simpl. f_equal.
  unfold abs. simpl. f_equal. rewrite (to_map_append_fresh _ u Hu). apply fmap_insert.
Qed.

Lemma borrow_book_refines uid bid : abs_result (borrow_book uid bid s) = a_borrow uid bid (abs s).
Proof.
  unfold borrow_book, a_borrow. rewrite abs_find_user, abs_find_book.
  destruct (find_user uid s) as [u|]; [|done]. destruct (find_book bid s) as [b|] eqn:Hb; [|done].
  simpl. rewrite (find_book_id _ _ _ Hb).
  repeat case_match; unfold abs_result; simpl; autorewrite with abs_fold; done.
Qed.
Lemma return_book_refines uid bid : abs_result (return_book uid bid s) = a_return uid bid (abs s).
Proof.
  unfold return_book, serve_reservation, a_return. rewrite abs_find_user, abs_find_book.
  destruct (find_user uid s) as [u|]; [|done]. destruct (find_book bid s) as [b|] eqn:Hb; [|done].
  cbn -[abs a_alter_book a_alter_user a_push find_user find_book]. rewrite (find_book_id _ _ _ Hb), abs_in_borrowed.
  case_match; [done|].
  destruct (reservations b) as [|nxt rest]; autorewrite with abs_fold; simpl; [done|].
  destruct (find_user nxt _); simpl; autorewrite with abs_fold; done.
Qed.

Lemma unserve_refines bid b autoloan :
  find_book bid s = Some b -> abs (unserve_reservation bid b autoloan s) = a_unserve bid autoloan (abs s).
Proof.
  intros Hb. unfold unserve_reservation, a_unserve. rewrite (find_book_id _ _ _ Hb).
  destruct (truthy_id autoloan) as [nxt|]; [|done]. rewrite abs_find_user.
  destruct (find_user nxt s) as [v|]; [|done]. simpl. rewrite abs_in_borrowed.
  case_match; [|done]. by autorewrite with abs_fold.
Qed.
End refinement.

(** The two lookups every undo record starts with. *)
Ltac undo_lookups uid bid s b Hb :=
  rewrite abs_find_user, abs_find_book;
  destruct (find_user uid s) as [?|]; [|by destruct (find_book bid s)];
  destruct (find_book bid s) as [b|] eqn:Hb; [|done];
  cbn -[abs a_alter_book a_alter_user a_push a_unserve find_user find_book];
  rewrite (find_book_id _ _ _ Hb).

Lemma undo_record_refines r s : abs_result (undo_record r s) = a_undo_record r (abs s).
Proof.
  unfold undo_record, a_undo_record. destruct r as [uid bid|uid bid autoloan|op]; [| |done].
  - undo_lookups uid bid s b Hb. rewrite abs_in_borrowed. case_match; [|done].
    by autorewrite with abs_fold.
  - undo_lookups uid bid s b Hb. rewrite <-(unserve_refines s bid b autoloan Hb), abs_find_book.
    repeat case_match; simpl; autorewrite with abs_fold; done.
Qed.

Lemma undo_last_refines s : abs_result (undo_last s) = a_undo (abs s).
Proof.
  unfold undo_last, a_undo. change (a_stack (abs s)) with (undo_stack s).
  destruct (undo_stack s) as [|r rest]; [done|].
  rewrite <-abs_pop. apply undo_record_refines.
Qed.

(** ** Whole runs *)

(** The store's commands. *)
Inductive Op :=
  | OpAddBook (b : Book)
  | OpAddUser (u : User)
  | OpBorrow (user_id book_id : string)
  | OpReturn (user_id book_id : string)
  | OpUndo.

Definition exec (o : Op) (s : LibraryStore) : LibraryStore * Msg :=
  match o with
  | OpAddBook b => add_book b s
  | OpAddUser u => add_user u s
  | OpBorrow uid bid => borrow_book uid bid s
  | OpReturn uid bid => return_book uid bid s
  | OpUndo => undo_last s
  end.

Definition a_exec (o : Op) (a : AStore) : AStore * Msg :=
  match o with
  | OpAddBook b => a_add_book b a
  | OpAddUser u => a_add_user u a
  | OpBorrow uid bid => a_borrow uid bid a
  | OpReturn uid bid => a_return uid bid a
  | OpUndo => a_undo a
  end.

(** A run: the final store and the messages returned, in order. *)
Fixpoint run (os : list Op) (s : LibraryStore) : LibraryStore * list Msg :=
  match os with
  | [] => (s, [])
  | o :: os => let r := exec o s in let r' := run os (fst r) in (fst r', snd r :: snd r')
  end.

Fixpoint a_run (os : list Op) (a : AStore) : AStore * list Msg :=
  match os with
  | [] => (a, [])
  | o :: os => let r := a_exec o a in let r' := a_run os (fst r) in (fst r', snd r :: snd r')
  end.

Lemma exec_refines o s : abs_result (exec o s) = a_exec o (abs s).
Proof.
  destruct o; simpl; auto using add_book_refines, add_user_refines, borrow_book_refines,
    return_book_refines, undo_last_refines.
Qed.

(** C13: The list store implements the abstract store: any run of commands
    from any store ends in a store whose abstraction is the abstract run's
    result, and returns the same messages. *)
Theorem run_refines os s : (abs (fst (run os s)), snd (run os s)) = a_run os (abs s).
Proof.
  revert s. induction os as [|o os IH]; intros s; [done|]. simpl.
  pose proof (exec_refines o s) as E. unfold abs_result in E.
  rewrite <-E. simpl. by rewrite <-IH.
Qed.

(** ** The abstraction forgets exactly the order of the holdings *)

Lemma abs_users_equiv us vs :
  Forall2 user_equiv us vs -> abs_user <$> to_map us = abs_user <$> to_map vs.
Proof.
  induction 1 as [|u v us vs (Hid & Hn & He & Hp) _ IH]; [done|].
  change (to_map (u :: us)) with (<[get_id u := u]> (to_map us)).
  change (to_map (v :: vs)) with (<[get_id v := v]> (to_map vs)).
  rewrite !fmap_insert, IH.
  change (get_id u) with (User.id u). change (get_id v) with (User.id v).
  rewrite Hid. unfold abs_user. by rewrite Hn, He, Hp.
Qed.

(** Stores equal up to the order of each user's holdings ([Undo]'s [≈])
    have the same abstraction: [≈] is the equality of the specification. *)
#[export] Instance abs_proper : Proper (store_equiv ==> eq) abs.
Proof.
  intros s t (Hb & Hu & Hs). unfold abs. rewrite Hb, Hs. f_equal. by apply abs_users_equiv.
Qed.
