(* ===== verification/Failures.v ===== *)
(** * Failures: what the error outcomes of the store leave behind

    Section 7 of the specification: every failure is reported as an outcome
    and "if a precondition fails, nothing changes".  [is_failure] lists the
    failure messages of [src/controllers/store.py].  A failed
    [add_book], [add_user], [borrow_book] or [return_book] returns the store
    unchanged.  A failed [undo_last] has still popped its record (line 70
    pops before looking at it) but leaves books and users unchanged; for
    [UndoNoCopy], reported after the promotion may already have been taken
    back (lines 81-90), this needs the store to be well formed.
    The two branches that are dead on well-formed stores (lines 62 and
    92) are shown in [Invariant]. *)

From S2P Require Import Prelude Lookup Book User Store Lending Invariant.

Definition is_failure (m : Msg) : bool :=
  match m with
  | BookExists _ | UserExists _ | UserNotFound _ | BookNotFound _ | AlreadyQueued _ _
  | NotBorrowed _ _ | NothingToUndo | UndoBorrowFailed | UndoReturnFailed | UndoNoCopy
  | UnknownOp => true
  | _ => false
  end.

(** The store with its top record popped. *)
Definition pop (s : LibraryStore) : LibraryStore :=
  {| books := books s; users := users s; undo_stack := tail (undo_stack s) |}.

Lemma add_book_failure b s : is_failure (snd (add_book b s)) = true -> fst (add_book b s) = s.
Proof. unfold add_book. by case_match. Qed.

Lemma add_user_failure u s : is_failure (snd (add_user u s)) = true -> fst (add_user u s) = s.
Proof. unfold add_user. by case_match. Qed.

(** C10: a loan that fails (unknown user or book, user already waiting)
    changes nothing. *)
Theorem borrow_book_failure user_id book_id s :
  is_failure (snd (borrow_book user_id book_id s)) = true -> fst (borrow_book user_id book_id s) = s.
Proof. unfold borrow_book. by repeat case_match. Qed.

(** C11: a return that fails (unknown user or book, book not held) changes
    nothing. *)
Theorem return_book_failure user_id book_id s :
  is_failure (snd (return_book user_id book_id s)) = true -> fst (return_book user_id book_id s) = s.
Proof.
  unfold return_book, serve_reservation. by repeat case_match.
Qed.

(** The promotion reversal either changes nothing or leaves a copy. *)
Lemma unserve_reservation_cases bid b a s :
  find_book bid s = Some b -> (0 <= copies_available b)%Z ->
  unserve_reservation bid b a s = s \/
  exists b', find_book bid (unserve_reservation bid b a s) = Some b' /\ (0 < copies_available b')%Z.
Proof.
  intros Hb Hav. unfold unserve_reservation.
  destruct (truthy_id a) as [nxt|]; [|auto]. destruct (find_user nxt s); [|auto].
  case_bool_decide; [right|auto]. simpl_find. eexists; split; [done|]. simpl. lia.
Qed.

(** C12: a failed undo (nothing to undo, record that no longer applies, no
    copy to give back) pops the record and leaves books and users as they
    were, on every well-formed store. *)
Theorem undo_last_failure s :
  wf s -> is_failure (snd (undo_last s)) = true -> fst (undo_last s) = pop s \/ undo_stack s = [].
Proof.
  intros Hwf Hf. unfold undo_last, pop in *.
  destruct (undo_stack s) as [|r rest] eqn:Hs; [auto|left]. pose proof (wf_pop s r rest Hwf Hs) as Hp.
  set (p := {| books := _; users := _; undo_stack := rest |}) in *. simpl.
  unfold undo_record in *. destruct r as [uid bid|uid bid a|op]; [| |done].
  - repeat case_match; simpl in *; first [discriminate | reflexivity].
  - destruct (find_user uid p) as [u|]; [|done]. destruct (find_book bid p) as [b|] eqn:Hb; [|done].
    destruct (unserve_reservation_cases bid b a p Hb (wf_available _ Hp _ _ Hb)) as [Hun|(b' & Hb' & Hpos)].
    + rewrite Hun, Hb in *. destruct (0 <? copies_available b)%Z; simpl in *; first [discriminate | reflexivity].
    + rewrite Hb' in *. apply Z.ltb_lt in Hpos. rewrite Hpos in Hf. done.
Qed.



(** ** The theorems at work on the sample data *)

Local Open Scope string_scope.

Lemma borrow_book_failure_witness :
  is_failure (snd (borrow_book "U009" "B001" demo)) = true /\
  fst (borrow_book "U009" "B001" demo) = demo.
Proof.
  assert (H : is_failure (snd (borrow_book "U009" "B001" demo)) = true) by reflexivity.
  exact (conj H (borrow_book_failure "U009" "B001" demo H)).
Defined.

Lemma return_book_failure_witness :
  is_failure (snd (return_book "U002" "B002" demo_lent)) = true /\
  fst (return_book "U002" "B002" demo_lent) = demo_lent.
Proof.
  assert (H : is_failure (snd (return_book "U002" "B002" demo_lent)) = true) by reflexivity.
  exact (conj H (return_book_failure "U002" "B002" demo_lent H)).
Defined.

(** A promoted user with the empty id: the undo reports [UndoNoCopy]. *)
Definition demo_empty_id : LibraryStore :=
  let s := fst (add_user (mk_user "" "Nadie" "x@example.com") demo) in
  let s := fst (borrow_book "U001" "B002" s) in
  let s := fst (borrow_book "" "B002" s) in
  fst (return_book "U001" "B002" s).

Lemma undo_last_failure_witness :
  wf demo_empty_id /\ is_failure (snd (undo_last demo_empty_id)) = true /\
  (fst (undo_last demo_empty_id) = pop demo_empty_id \/ undo_stack demo_empty_id = []).
Proof.
  assert (Hwf : wf demo_empty_id)
    by (apply wf_check_sound; apply (bool_decide_unpack _); vm_compute; exact I).
  assert (H : is_failure (snd (undo_last demo_empty_id)) = true) by (vm_compute; reflexivity).
  exact (conj Hwf (conj H (undo_last_failure demo_empty_id Hwf H))).
Defined.


