(* ===== verification/Messages.v ===== *)
(** * Messages: the text of every outcome of the store

    Each [return] of [src/controllers/store.py] returns an f-string; the
    model keeps the outcome as a [Msg] carrying the interpolated values,
    and [render] writes the string the Python code returns, character for
    character ([str] of an [int] is stdpp's [pretty]).  [msg_auto] is the
    suffix [return_book] builds in lines 52-64.

    The specification asks that success, not-found, already-queued,
    nothing-to-undo and undo-failed outcomes be distinguishable by the
    caller.  The code distinguishes them by the tag the text starts with:
    "[X]" for an error, "[i]" for information, "[✓]", "[→]" or "[↶]" for
    a success. *)

From S2P Require Import Prelude Store Failures.
From Stdlib Require String.
From stdpp Require Import pretty.

Local Open Scope string_scope.

(** Lines 52-64: the suffix naming the promoted user. *)
Definition msg_auto (a : AutoLoan) : string :=
  match a with
  | AssignedTo name => " y asignado automáticamente a " +:+ name +:+ " por reserva."
  | NextGone => " (el siguiente en cola ya no existe)."
  | NoReservation => ""
  end.

Definition render (m : Msg) : string :=
  match m with
  | BookExists id_ => "[X] Ya existe un libro con ID " +:+ id_ +:+ "."
  | BookAdded title => "[✓] Libro '" +:+ title +:+ "' agregado."
  | UserExists id_ => "[X] Ya existe un usuario con ID " +:+ id_ +:+ "."
  | UserAdded name => "[✓] Usuario '" +:+ name +:+ "' agregado."
  | UserNotFound user_id => "[X] Usuario " +:+ user_id +:+ " no existe."
  | BookNotFound book_id => "[X] Libro " +:+ book_id +:+ " no existe."
  | Borrowed title name available =>
      "[✓] Préstamo exitoso: '" +:+ title +:+ "' para " +:+ name +:+ ". Disponibles: "
        +:+ pretty available +:+ "."
  | AlreadyQueued name title => "[i] " +:+ name +:+ " ya está en la lista de espera de '" +:+ title +:+ "'."
  | Queued name title position =>
      "[→] Sin copias. " +:+ name +:+ " quedó en cola para '" +:+ title +:+ "'. Posición: "
        +:+ pretty position +:+ "."
  | NotBorrowed name title => "[X] " +:+ name +:+ " no tiene prestado '" +:+ title +:+ "'."
  | Returned title auto available =>
      "[✓] Devolución de '" +:+ title +:+ "' registrada" +:+ msg_auto auto +:+ " Disponibles: "
        +:+ pretty available +:+ "."
  | NothingToUndo => "[i] No hay operaciones para deshacer."
  | UndoneBorrow title name => "[↶] Deshecho: préstamo de '" +:+ title +:+ "' a " +:+ name +:+ "."
  | UndoBorrowFailed => "[X] No se pudo deshacer el préstamo."
  | UndoReturnFailed => "[X] No se pudo deshacer la devolución."
  | UndoneReturn title name => "[↶] Deshecho: devolución de '" +:+ title +:+ "' de " +:+ name +:+ "."
  | UndoNoCopy => "[X] No se pudo deshacer: no hay copia disponible."
  | UnknownOp => "[X] Operación desconocida en pila."
  end.

