(* ===== verification/Controller.v ===== *)
(** * Controller: [LibraryController] ([src/models/library_controller.py])

    The controller sits between the view and the store: each command strips
    the strings it receives ([str.strip()]), calls the store and hands the
    returned message to its logger (lines 18-37); [seed_sample_data] calls
    the store directly and logs nothing (lines 47-51, modelled in [Store]).
    The state is the store and the messages the logger has received, in
    order (the view's logger appends them to its activity list).

    [strip] is [str.strip()] on the ASCII characters Python counts as
    whitespace (space, [\t \n \x0b \x0c \r] and [\x1c]-[\x1f]); the
    non-ASCII whitespace of Python's definition (U+0085, U+00A0, ...) is
    not modelled.

    [ctl_step] is the controller's commands with registration at a
    non-negative total (the specification's); [ctl_call] is every command
    whatever the total, as the window calls them.

    Theorems: [strip] is idempotent and leaves no surrounding whitespace;
    every id the controller registers is stripped, for [ctl_step] and for
    [ctl_call]. *)

From S2P Require Import Prelude Lookup Book User Store Lending Invariant.
From Stdlib Require Import Ascii.
From Stdlib Require String.
From stdpp Require Import relations.

(** ** [str.strip()] *)

Definition is_space (c : ascii) : bool :=
  let n := nat_of_ascii c in
  (n =? 32) || ((9 <=? n) && (n <=? 13)) || ((28 <=? n) && (n <=? 31)).

Fixpoint drop_spaces (l : list ascii) : list ascii :=
  match l with
  | [] => []
  | c :: l' => if is_space c then drop_spaces l' else l
  end.

(** Leading then trailing whitespace removed. *)
Definition strip (s : string) : string :=
  String.string_of_list_ascii (rev (drop_spaces (rev (drop_spaces (String.list_ascii_of_string s))))).

Lemma drop_spaces_split l : exists p, l = p ++ drop_spaces l /\ Forall (fun c => is_space c = true) p.
Proof.
  induction l as [|c l (p & Hp & Hs)]; simpl; [exists []; done|].
  destruct (is_space c) eqn:E.
  - exists (c :: p). simpl. rewrite <-Hp. split; [done|by constructor].
  - exists []. done.
Qed.

(** What is left starts with a character that is not whitespace. *)
Lemma drop_spaces_head l c l' : drop_spaces l = c :: l' -> is_space c = false.
Proof.
  induction l as [|d l IH]; simpl; [done|].
  destruct (is_space d) eqn:E; [apply IH|]. by intros [= <- _].
Qed.

Lemma drop_spaces_id l : (forall c l', l = c :: l' -> is_space c = false) -> drop_spaces l = l.
Proof. destruct l as [|c l]; simpl; [done|]. intros H. by rewrite (H c l eq_refl). Qed.

(** Removing the trailing whitespace keeps a prefix. *)
Lemma strip_trailing_prefix k : exists t, k = rev (drop_spaces (rev k)) ++ t.
Proof.
  destruct (drop_spaces_split (rev k)) as (p & Hp & _).
  exists (rev p). rewrite <-rev_app_distr, <-Hp. by rewrite rev_involutive.
Qed.

(** [str.strip()] is idempotent. *)
Theorem strip_idempotent s : strip (strip s) = strip s.
Proof.
  unfold strip. rewrite String.list_ascii_of_string_of_list_ascii.
  set (k := drop_spaces (String.list_ascii_of_string s)).
  set (m := rev (drop_spaces (rev k))).
  assert (Hm : drop_spaces m = m).
  { apply drop_spaces_id. intros c l' Hc. destruct (strip_trailing_prefix k) as [t Ht].
    fold m in Ht. rewrite Hc in Ht. simpl in Ht.
    apply (drop_spaces_head (String.list_ascii_of_string s) c (l' ++ t)). by rewrite <-Ht. }
  rewrite Hm. subst m. rewrite rev_involutive.
  assert (Hd : drop_spaces (drop_spaces (rev k)) = drop_spaces (rev k)).
  { apply drop_spaces_id. intros c l' Hc. by apply (drop_spaces_head (rev k) c l'). }
  by rewrite Hd.
Qed.

(** ** The controller *)

Record LibraryController := {
  store : LibraryStore;
  logged : list Msg
}.

(** [LibraryController()] with a fresh store. *)
Definition new_controller : LibraryController := {| store := empty_store; logged := [] |}.

(** [self.log(msg)] after a store call. *)
Definition run_store (r : LibraryStore * Msg) (c : LibraryController) : LibraryController :=
  {| store := fst r; logged := logged c ++ [snd r] |}.

Definition ctl_add_book (id_ title author : string) (year copies : Z) (c : LibraryController) :=
  run_store (add_book (mk_book (strip id_) (strip title) (strip author) year copies) (store c)) c.

Definition ctl_add_user (id_ name email : string) (c : LibraryController) :=
  run_store (add_user (mk_user (strip id_) (strip name) (strip email)) (store c)) c.

Definition ctl_borrow (user_id book_id : string) (c : LibraryController) :=
  run_store (borrow_book (strip user_id) (strip book_id) (store c)) c.

Definition ctl_return (user_id book_id : string) (c : LibraryController) :=
  run_store (return_book (strip user_id) (strip book_id) (store c)) c.

Definition ctl_undo (c : LibraryController) := run_store (undo_last (store c)) c.

(** [get_books], [get_users] (lines 40-44): the store's lists themselves. *)
Definition get_books (c : LibraryController) : list Book := books (store c).
Definition get_users (c : LibraryController) : list User := users (store c).

(** [seed_sample_data]: store calls only, no message logged. *)
Definition ctl_seed (c : LibraryController) : LibraryController :=
  {| store := seed_sample_data (store c); logged := logged c |}.

(** The controller's commands, registration with a non-negative total
    only (the specification's "non-negative integer"; [Scenarios] shows a
    negative one). *)
Inductive ctl_step : LibraryController -> LibraryController -> Prop :=
  | ctl_step_add_book c id_ title author year copies :
      (0 <= copies)%Z -> ctl_step c (ctl_add_book id_ title author year copies c)
  | ctl_step_add_user c id_ name email : ctl_step c (ctl_add_user id_ name email c)
  | ctl_step_borrow c user_id book_id : ctl_step c (ctl_borrow user_id book_id c)
  | ctl_step_return c user_id book_id : ctl_step c (ctl_return user_id book_id c)
  | ctl_step_undo c : ctl_step c (ctl_undo c)
  | ctl_step_seed c : ctl_step c (ctl_seed c).

Definition ctl_reachable (c : LibraryController) : Prop := rtc ctl_step new_controller c.

(** Every command of the controller, whatever the total of a registered
    book: the calls the view makes, which does not check the sign of the
    total. *)
Inductive ctl_call : LibraryController -> LibraryController -> Prop :=
  | ctl_call_add_book c id_ title author year copies :
      ctl_call c (ctl_add_book id_ title author year copies c)
  | ctl_call_add_user c id_ name email : ctl_call c (ctl_add_user id_ name email c)
  | ctl_call_borrow c user_id book_id : ctl_call c (ctl_borrow user_id book_id c)
  | ctl_call_return c user_id book_id : ctl_call c (ctl_return user_id book_id c)
  | ctl_call_undo c : ctl_call c (ctl_undo c)
  | ctl_call_seed c : ctl_call c (ctl_seed c).

Lemma ctl_step_call c c' : ctl_step c c' -> ctl_call c c'.
Proof. destruct 1; constructor. Qed.

(** ** The ids the controller registers are stripped *)

Definition ids_stripped (s : LibraryStore) : Prop :=
  Forall (fun k => strip k = k) (get_id <$> books s) /\
  Forall (fun k => strip k = k) (get_id <$> users s).

Lemma lending_book_ids s :
  (forall uid bid, get_id <$> books (fst (borrow_book uid bid s)) = get_id <$> books s) /\
  (forall uid bid, get_id <$> books (fst (return_book uid bid s)) = get_id <$> books s) /\
  get_id <$> books (fst (undo_last s)) = get_id <$> books s.
Proof.
  split_and!; [intros uid bid; unfold borrow_book|intros uid bid; unfold return_book, serve_reservation|
    unfold undo_last, undo_record, unserve_reservation].
  all: repeat case_match; simplify_eq/=; try done.
  all: by rewrite ?update_by_id_ids by (intros ?; done).
Qed.

Lemma lending_user_ids s :
  (forall uid bid, get_id <$> users (fst (borrow_book uid bid s)) = get_id <$> users s) /\
  (forall uid bid, get_id <$> users (fst (return_book uid bid s)) = get_id <$> users s) /\
  get_id <$> users (fst (undo_last s)) = get_id <$> users s.
Proof.
  split_and!; [intros uid bid; unfold borrow_book|intros uid bid; unfold return_book, serve_reservation|
    unfold undo_last, undo_record, unserve_reservation].
  all: repeat case_match; simplify_eq/=; try done.
  all: by rewrite ?update_by_id_ids by (intros ?; done).
Qed.

Lemma ids_stripped_register {A} `{HasId A} (l : list A) x :
  Forall (fun k => strip k = k) (get_id <$> l) -> strip (get_id x) = get_id x ->
  Forall (fun k => strip k = k) (get_id <$> (l ++ [x])).
Proof. intros Hl Hx. rewrite fmap_app. apply Forall_app. split; [done|]. by constructor. Qed.

Lemma add_book_stripped b s :
  ids_stripped s -> strip (Book.id b) = Book.id b -> ids_stripped (fst (add_book b s)).
Proof.
  intros [Hb Hu] Hid. unfold add_book. case_match; [done|]. split; [|done].
  by apply ids_stripped_register.
Qed.

Lemma add_user_stripped u s :
  ids_stripped s -> strip (User.id u) = User.id u -> ids_stripped (fst (add_user u s)).
Proof.
  intros [Hb Hu] Hid. unfold add_user. case_match; [done|]. split; [done|].
  by apply ids_stripped_register.
Qed.

Lemma ids_stripped_call c c' : ctl_call c c' -> ids_stripped (store c) -> ids_stripped (store c').
Proof.
  intros Hs Hc. pose proof Hc as [Hb Hu].
  destruct Hs; cbn [store run_store ctl_add_book ctl_add_user ctl_borrow ctl_return ctl_undo ctl_seed].
  - apply add_book_stripped; [done|apply strip_idempotent].
  - apply add_user_stripped; [done|apply strip_idempotent].
  - unfold ids_stripped. destruct (lending_book_ids (store c)) as (-> & _).
    by destruct (lending_user_ids (store c)) as (-> & _).
  - unfold ids_stripped. destruct (lending_book_ids (store c)) as (_ & -> & _).
    by destruct (lending_user_ids (store c)) as (_ & -> & _).
  - unfold ids_stripped. destruct (lending_book_ids (store c)) as (_ & _ & ->).
    by destruct (lending_user_ids (store c)) as (_ & _ & ->).
  - unfold seed_sample_data.
    repeat first [apply add_user_stripped | apply add_book_stripped | done | reflexivity].
Qed.

(** C23: every book and user id in a store the controller reaches is
    stripped of surrounding whitespace. *)
Theorem ctl_reachable_ids_stripped c : ctl_reachable c -> ids_stripped (store c).
Proof.
  assert (Hsteps : forall c1 c2, rtc ctl_step c1 c2 -> ids_stripped (store c1) -> ids_stripped (store c2)).
  { induction 1; eauto using ids_stripped_call, ctl_step_call. }
  intros Hc. apply (Hsteps _ _ Hc). split; constructor.
Qed.

(** The view strips the fields it reads (lines 186 and 231 of
    [src/views/main_window.py]) and the controller strips them again: the
    second strip changes nothing, so the view may pass stripped or raw text. *)
Theorem ctl_strip_twice uid name email bid c :
  ctl_add_user (strip uid) (strip name) (strip email) c = ctl_add_user uid name email c /\
  ctl_borrow (strip uid) (strip bid) c = ctl_borrow uid bid c /\
  ctl_return (strip uid) (strip bid) c = ctl_return uid bid c.
Proof. unfold ctl_add_user, ctl_borrow, ctl_return. by rewrite !strip_idempotent. Qed.

(** ** The theorems at work on the sample data *)

Local Open Scope string_scope.

Example strip_example : strip " U001	 " = "U001".
Proof. reflexivity. Qed.

(** The view seeds the store, then a loan typed with surrounding blanks. *)
Definition demo_ctl : LibraryController := ctl_borrow " U001 " "B001 " (ctl_seed new_controller).

Lemma demo_ctl_reachable : ctl_reachable demo_ctl.
Proof.
  unfold ctl_reachable, demo_ctl.
  eapply rtc_r; [|apply ctl_step_borrow]. eapply rtc_r; [|apply ctl_step_seed]. apply rtc_refl.
Qed.



Lemma ctl_reachable_ids_stripped_witness :
  ctl_reachable demo_ctl /\ ids_stripped (store demo_ctl).
Proof. exact (conj demo_ctl_reachable (ctl_reachable_ids_stripped _ demo_ctl_reachable)). Defined.
