(* ===== verification/QtTable.v ===== *)
(** * QtTable: the books and users tables as Qt fills them

    [tune_table] ([src/styles/style.py], lines 16-22) configures both
    tables of the window; its last call, [setSortingEnabled(True)], makes
    every later [setItem] on the sort column move the row to its sorted
    place.  [on_list_books] and [on_list_users] (lines 160-168 and
    205-213 of [src/views/main_window.py]) write each row cell by cell
    with [setItem(row, col, ...)], the id column first.

    The table is modelled as Qt 5's [QTableWidget] keeps it: a list of
    rows of items ([None] where no item was set), the hidden flag of each
    row (the vertical header's hidden sections, which follow a row when
    the model moves it), the column count, the header's sort indicator
    (section and order; a new header has section 0 and [DescendingOrder])
    and the flags [tune_table] sets.  [set_item] is
    [QTableModel::setItem]: it writes the item and, when sorting is
    enabled and the column is the sort column, looks up the sorted row
    with [std::lower_bound] among the column's items ([columnItems]: the
    items of the column down to the first row without one, less the one
    at index [row]) and moves the row there.  Items compare by their text
    ([QTableWidgetItem::operator<], case-sensitive [QString::compare],
    which orders UTF-16 code units: on text of the Basic Multilingual
    Plane that is the order of the UTF-8 bytes the model's strings hold,
    [String.compare]).  [sort_rows] is [QTableModel::sort], which
    [setSortingEnabled(True)] calls with the header's indicator.

    Lemmas: the binary search returns the partition point of a sorted
    column; each [setItem] of a listing keeps the sort column sorted,
    and a whole listing leaves every row with an item in the sort column,
    in the sort order, one row per entity.  [View] uses them for the
    window's tables. *)

From S2P Require Import Prelude.
From Stdlib Require Import String OrdersEx.
From stdpp Require Import sorting.

(** ** Comparing items *)

Inductive SortOrder := AscendingOrder | DescendingOrder.

#[export] Instance SortOrder_eq_dec : EqDecision SortOrder.
Proof. solve_decision. Defined.

(** [QTableWidgetItem::operator<] on the texts of two items: [QString]'s
    order of UTF-16 code units, the order of the UTF-8 bytes for text of
    the Basic Multilingual Plane. *)
Definition item_lt (a b : string) : bool :=
  match String.compare a b with Lt => true | _ => false end.

(** [QTableModelLessThan] and [QTableModelGreaterThan]. *)
Definition item_comp (o : SortOrder) (a b : string) : bool :=
  match o with AscendingOrder => item_lt a b | DescendingOrder => item_lt b a end.

(** ** [std::lower_bound] *)

(** The loop of libstdc++'s [__lower_bound] on [first] and [len]:
    [half := len >> 1], [middle := first + half]; [fuel] bounds the
    number of iterations. *)
Fixpoint lower_bound_go (fuel : nat) (comp : string -> string -> bool) (l : list string)
    (v : string) (first len : nat) : nat :=
  match fuel, len with
  | O, _ | _, O => first
  | S fuel, S _ =>
      let half := Nat.div2 len in
      match l !! (first + half) with
      | Some x =>
          if comp x v then lower_bound_go fuel comp l v (first + half + 1) (len - half - 1)
          else lower_bound_go fuel comp l v first half
      | None => first
      end
  end.

Definition lower_bound (comp : string -> string -> bool) (l : list string) (v : string) : nat :=
  lower_bound_go (length l) comp l v 0 (length l).

(** ** The table widget *)

(** The items of a row; [None] where no item was set. *)
Abbreviation Row := (list (option string)).

Record QTableWidget := {
  items : list Row;
  row_hidden : list bool;         (** [isRowHidden(r)] *)
  column_count : nat;
  sorting_enabled : bool;
  sort_section : nat;             (** the header's sort indicator *)
  sort_order : SortOrder;
  editable : bool;                (** some edit trigger is set *)
  alternating_row_colors : bool;
  select_rows : bool;             (** [SelectRows] rather than [SelectItems] *)
  stretch_sections : bool;        (** the header's resize mode is [Stretch] *)
  highlight_sections : bool
}.

(** [QTableWidget()]: no rows, no columns, sorting off; the header's
    indicator on section 0, descending; cells editable by double click
    or key; [QTableView] highlights its header's sections. *)
Definition new_table : QTableWidget :=
  {| items := []; row_hidden := []; column_count := 0; sorting_enabled := false; sort_section := 0;
     sort_order := DescendingOrder; editable := true; alternating_row_colors := false;
     select_rows := false; stretch_sections := false; highlight_sections := true |}.

(** New rows and hidden flags, the rest of the widget unchanged. *)
Definition with_rows (rs : list Row) (h : list bool) (t : QTableWidget) : QTableWidget :=
  {| items := rs; row_hidden := h; column_count := column_count t; sorting_enabled := sorting_enabled t;
     sort_section := sort_section t; sort_order := sort_order t; editable := editable t;
     alternating_row_colors := alternating_row_colors t; select_rows := select_rows t;
     stretch_sections := stretch_sections t; highlight_sections := highlight_sections t |}.

(** [setRowHidden(r, b)] for every row [r]. *)
Definition with_hidden (h : list bool) (t : QTableWidget) : QTableWidget := with_rows (items t) h t.

(** [setColumnCount(n)]: each row keeps its first [n] items. *)
Definition set_column_count (n : nat) (t : QTableWidget) : QTableWidget :=
  {| items := map (fun row => take n row ++ replicate (n - length row) None) (items t);
     row_hidden := row_hidden t; column_count := n; sorting_enabled := sorting_enabled t;
     sort_section := sort_section t; sort_order := sort_order t; editable := editable t;
     alternating_row_colors := alternating_row_colors t; select_rows := select_rows t;
     stretch_sections := stretch_sections t; highlight_sections := highlight_sections t |}.

(** The hidden flags after [setRowCount(n)]: kept for the first [n] rows,
    new rows shown. *)
Definition resize_hidden (n : nat) (h : list bool) : list bool :=
  take n h ++ replicate (n - length h) false.

(** [setRowCount(n)]: the first [n] rows are kept, new rows are empty. *)
Definition set_row_count (n : nat) (t : QTableWidget) : QTableWidget :=
  with_rows (take n (items t) ++ replicate (n - length (items t)) (replicate (column_count t) None))
    (resize_hidden n (row_hidden t)) t.

(** [QTableModel::columnItems(column)]: the items of the column, from the
    top down to the first row without one. *)
Fixpoint column_items (c : nat) (rs : list Row) : list string :=
  match rs with
  | [] => []
  | row :: rs => match mjoin (row !! c) with Some x => x :: column_items c rs | None => [] end
  end.

(** The entry [r] moved to index [p] of the list without it: the rows of
    the model and the header's hidden sections move together. *)
Definition move_row {A} (r p : nat) (l : list A) : list A :=
  match l !! r with
  | Some x => let l := delete r l in take p l ++ x :: drop p l
  | None => l
  end.

(** [QTableModel::setItem(row, column, item)] with a new item of text [v].
    Qt checks the index [row * columnCount + column] against the size of
    the table; for a column in range that is [row < rowCount]. *)
Definition set_item (r c : nat) (v : string) (t : QTableWidget) : QTableWidget :=
  if bool_decide (r < length (items t)) && bool_decide (c < column_count t) then
    let rs := alter (fun row => <[c := Some v]> row) r (items t) in
    if sorting_enabled t && bool_decide (sort_section t = c) then
      let col := column_items c rs in
      let col := if bool_decide (r < length col) then delete r col else col in
      let p := lower_bound (item_comp (sort_order t)) col v in
      if bool_decide (p = r) then with_rows rs (row_hidden t) t
      else with_rows (move_row r p rs) (move_row r p (row_hidden t)) t
    else with_rows rs (row_hidden t) t
  else t.

(** [std::stable_sort] by a key: each entry is inserted after the entries
    that do not compare after it. *)
Fixpoint insert_row {A} (comp : string -> string -> bool) (x : string * A)
    (l : list (string * A)) : list (string * A) :=
  match l with
  | [] => [x]
  | y :: l' => if comp x.1 y.1 then x :: l else y :: insert_row comp x l'
  end.

(** [QTableModel::sort(column, order)]: the rows with an item in the
    column, stably sorted, then the rows without one, in their order; the
    hidden flags follow their rows. *)
Definition sort_rows (c : nat) (o : SortOrder) (rs : list (Row * bool)) : list (Row * bool) :=
  let sortable := omap (fun x => (fun k => (k, x)) <$> mjoin (x.1 !! c)) rs in
  let unsortable := filter (fun x => mjoin (x.1 !! c) = None) rs in
  (snd <$> foldl (fun acc x => insert_row (item_comp o) x acc) [] sortable) ++ unsortable.

(** [setSortingEnabled(True)]: [sortByColumn] with the header's indicator
    (it sorts the model, sorting being still off), then the flag. *)
Definition enable_sorting (t : QTableWidget) : QTableWidget :=
  let sorted := sort_rows (sort_section t) (sort_order t) (zip (items t) (row_hidden t)) in
  {| items := fst <$> sorted; row_hidden := snd <$> sorted; column_count := column_count t;
     sorting_enabled := true; sort_section := sort_section t; sort_order := sort_order t;
     editable := editable t; alternating_row_colors := alternating_row_colors t;
     select_rows := select_rows t; stretch_sections := stretch_sections t;
     highlight_sections := highlight_sections t |}.

(** [tune_table(table)] (lines 16-22 of [src/styles/style.py]). *)
Definition tune_table (t : QTableWidget) : QTableWidget :=
  enable_sorting
    {| items := items t; row_hidden := row_hidden t; column_count := column_count t;
       sorting_enabled := sorting_enabled t; sort_section := sort_section t;
       sort_order := sort_order t; editable := false; alternating_row_colors := true;
       select_rows := true; stretch_sections := true; highlight_sections := false |}.

(** Lines 70-73 and 102-105 of [src/views/main_window.py]: the tables as
    [_tab_books] and [_tab_users] build them (the header labels change no
    item). *)
Definition books_table0 : QTableWidget := tune_table (set_column_count 7 new_table).
Definition users_table0 : QTableWidget := tune_table (set_column_count 4 new_table).

(** The loops of [on_list_books] (lines 161-168) and [on_list_users]
    (lines 206-213): [setRowCount(len(rows))], then [setItem(row, col, val)]
    for each row and each column in order. *)
Fixpoint write_cells (r c : nat) (vals : list string) (t : QTableWidget) : QTableWidget :=
  match vals with
  | [] => t
  | v :: vals => write_cells r (S c) vals (set_item r c v t)
  end.

Fixpoint write_rows (r : nat) (rows : list (list string)) (t : QTableWidget) : QTableWidget :=
  match rows with
  | [] => t
  | row :: rows => write_rows (S r) rows (write_cells r 0 row t)
  end.

Definition list_table (rows : list (list string)) (t : QTableWidget) : QTableWidget :=
  write_rows 0 rows (set_row_count (length rows) t).

(** ** The binary search *)

Lemma item_comp_asym o a b : item_comp o a b = true -> item_comp o b a = false.
Proof.
  unfold item_comp, item_lt. destruct o; rewrite String.compare_antisym;
    [destruct (String.compare b a)|destruct (String.compare a b)]; done.
Qed.

Lemma lower_bound_go_partition fuel comp l1 l2 v first len :
  Forall (fun x => comp x v = true) l1 -> Forall (fun x => comp x v = false) l2 ->
  first <= length l1 <= first + len -> first + len <= length (l1 ++ l2) -> len <= fuel ->
  lower_bound_go fuel comp (l1 ++ l2) v first len = length l1.
Proof.
  intros H1 H2. revert first len. induction fuel as [|fuel IH]; intros first len Hb Hl Hf.
  { simpl. lia. }
  destruct len as [|len]; [simpl; lia|]. cbn -[Nat.div2].
  pose proof (Nat.lt_div2 (S len) ltac:(lia)) as Hh. rewrite length_app in Hl.
  generalize dependent (Nat.div2 (S len)). intros h Hh.
  destruct (decide (first + h < length l1)) as [Hlt|Hge].
  - destruct (lookup_lt_is_Some_2 l1 (first + h) Hlt) as [x Hx].
    rewrite lookup_app_l, Hx by done. rewrite (Forall_lookup_1 _ _ _ _ H1 Hx).
    apply IH; rewrite ?length_app; lia.
  - destruct (lookup_lt_is_Some_2 l2 (first + h - length l1)) as [x Hx]; [lia|].
    rewrite lookup_app_r, Hx by lia. rewrite (Forall_lookup_1 _ _ _ _ H2 Hx).
    apply IH; rewrite ?length_app; lia.
Qed.


(** The string order: a strict total order ([String_as_OT]). *)
Lemma item_lt_spec a b : item_lt a b = true <-> String_as_OT.lt a b.
Proof.
  unfold item_lt, String_as_OT.lt. change String_as_OT.compare with String.compare.
  by destruct (String.compare a b).
Qed.

Lemma item_comp_trans o a b c :
  item_comp o a b = true -> item_comp o b c = true -> item_comp o a c = true.
Proof.
  pose proof String_as_OT.lt_strorder as [_ Htr].
  destruct o; cbn; rewrite !item_lt_spec; intros H1 H2; eapply Htr; eauto.
Qed.

Lemma item_comp_total o a b : item_comp o a b = false -> item_comp o b a = false -> a = b.
Proof.
  destruct o; cbn; intros H1 H2;
    destruct (String_as_OT.compare_spec a b) as [E|E|E]; try done;
    apply item_lt_spec in E; congruence.
Qed.

(** A column in the sort order: no item compares before an earlier one. *)
Definition col_le (o : SortOrder) (a b : string) : Prop := item_comp o b a = false.

(** The items of a sorted column that compare before [v] come first. *)
Lemma sorted_partition o v l :
  StronglySorted (col_le o) l -> exists l1 l2, l = l1 ++ l2 /\
    Forall (fun x => item_comp o x v = true) l1 /\ Forall (fun x => item_comp o x v = false) l2.
Proof.
  induction 1 as [|x l Hs IH Hx].
  { by exists [], []. }
  destruct (item_comp o x v) eqn:Exv.
  - destruct IH as (l1 & l2 & -> & H1 & H2). exists (x :: l1), l2. auto.
  - exists [], (x :: l). split_and!; [done|constructor|constructor; [done|]].
    eapply Forall_impl; [exact Hx|]. intros y Hxy. unfold col_le in Hxy.
    destruct (item_comp o y v) eqn:Eyv; [|done].
    destruct (item_comp o x y) eqn:Exy.
    + by rewrite (item_comp_trans _ _ _ _ Exy Eyv) in Exv.
    + rewrite (item_comp_total _ _ _ Exy Hxy) in Exv. by rewrite Exv in Eyv.
Qed.

(** ** Sorted insertion *)

Lemma StronglySorted_sublist {A} (R : relation A) l1 l2 :
  l1 `sublist_of` l2 -> StronglySorted R l2 -> StronglySorted R l1.
Proof.
  induction 1 as [|x l1 l2 Hsub IH|x l1 l2 _ IH]; [done| |];
    rewrite ?StronglySorted_cons; intros [Hx Hs]; [|auto].
  split; [|auto]. apply Forall_forall. intros y Hy.
  eapply Forall_forall; [exact Hx|]. by eapply elem_of_submseteq, sublist_submseteq.
Qed.

(** The binary search on a sorted column finds the first item that does
    not compare before [v], and inserting [v] there keeps the column
    sorted. *)
Lemma lower_bound_sorted o l v :
  StronglySorted (col_le o) l ->
  exists l1 l2, l = l1 ++ l2 /\ lower_bound (item_comp o) l v = length l1 /\
    StronglySorted (col_le o) (l1 ++ v :: l2).
Proof.
  intros Hs. destruct (sorted_partition o v l Hs) as (l1 & l2 & -> & H1 & H2).
  exists l1, l2. split_and!; [done| |].
  - unfold lower_bound. apply lower_bound_go_partition; rewrite ?length_app; [done|done|lia..].
  - apply StronglySorted_app_2.
    + intros x y Hx [-> | Hy]%elem_of_cons.
      * apply item_comp_asym. by eapply Forall_forall in H1.
      * by eapply (StronglySorted_app_1_elem_of _ _ _ x y Hs).
    + by eapply StronglySorted_app_1_l.
    + apply StronglySorted_cons. split; [|by eapply StronglySorted_app_1_r].
      eapply Forall_impl; [exact H2|]. by intros y.
Qed.

(** ** Moving a row *)

Lemma move_row_perm {A} r p (l : list A) : move_row r p l ≡ₚ l.
Proof.
  unfold move_row. destruct (l !! r) as [x|] eqn:Hx; [|done].
  etrans; [|symmetry; exact (delete_Permutation l r x Hx)].
  by rewrite <-Permutation_middle, take_drop.
Qed.

Lemma length_move_row {A} r p (l : list A) : length (move_row r p l) = length l.
Proof. apply Permutation_length, move_row_perm. Qed.

Lemma move_row_fmap {A B} (f : A -> B) r p l : f <$> move_row r p l = move_row r p (f <$> l).
Proof.
  unfold move_row. rewrite list_lookup_fmap. destruct (l !! r); simpl; [|done].
  by rewrite fmap_app, fmap_cons, fmap_take, fmap_drop, list_fmap_delete.
Qed.

Lemma move_row_app {A} r p (l1 l2 : list A) x :
  l1 !! r = Some x -> p < length l1 ->
  move_row r p (l1 ++ l2) = take p (delete r l1) ++ x :: drop p (delete r l1) ++ l2.
Proof.
  intros Hx Hp. pose proof (lookup_lt_Some _ _ _ Hx).
  unfold move_row. rewrite lookup_app_l, Hx by done.
  assert (E : delete r (l1 ++ l2) = delete r l1 ++ l2).
  { rewrite !delete_take_drop, take_app_le, drop_app_le by lia. by rewrite app_assoc. }
  rewrite E, take_app_le, drop_app_le by (rewrite length_delete by eauto; lia). done.
Qed.

Lemma move_row_same {A} r (l : list A) : move_row r r l = l.
Proof.
  unfold move_row. destruct (l !! r) as [x|] eqn:Hx; [|done].
  pose proof (lookup_lt_Some _ _ _ Hx).
  rewrite delete_take_drop, take_app_length', drop_app_length' by (rewrite length_take; lia).
  exact (take_drop_middle l r x Hx).
Qed.

(** ** The sort column through a listing *)

(** The cells of column [c], row by row. *)
Definition col_cells (c : nat) (rs : list Row) : list (option string) :=
  (fun row => mjoin (row !! c)) <$> rs.

(** Column [c] holds the items [l], in the sort order [o], from the top,
    and no item below them; the first [n] rows have one. *)
Definition sorted_column (o : SortOrder) (c n : nat) (rs : list Row) : Prop :=
  exists l, col_cells c rs = (Some <$> l) ++ replicate (length rs - length l) None /\
            StronglySorted (col_le o) l /\ n <= length l.

Lemma column_items_cells c rs l m :
  col_cells c rs = (Some <$> l) ++ replicate m None -> column_items c rs = l.
Proof.
  revert rs. induction l as [|x l IH]; intros [|row rs] H; simpl in *; try done.
  - destruct m; [done|]. injection H as -> _. done.
  - injection H as Hx H. rewrite Hx. f_equal. by apply IH.
Qed.

Lemma col_cells_alter_eq s r v rs row :
  rs !! r = Some row -> s < length row ->
  col_cells s (alter (fun row => <[s := Some v]> row) r rs) = <[r := Some v]> (col_cells s rs).
Proof.
  intros Hr Hs. pose proof (lookup_lt_Some _ _ _ Hr). apply list_eq. intros i.
  unfold col_cells. rewrite list_lookup_fmap. destruct (decide (r = i)) as [<-|Hne].
  - rewrite list_lookup_alter_eq, Hr, list_lookup_insert_eq by (by rewrite length_fmap). simpl.
    by rewrite list_lookup_insert_eq.
  - rewrite list_lookup_alter_ne, list_lookup_insert_ne, list_lookup_fmap by done. done.
Qed.

Lemma col_cells_alter_ne s c r v rs :
  c <> s -> col_cells s (alter (fun row => <[c := Some v]> row) r rs) = col_cells s rs.
Proof.
  intros Hne. apply list_eq. intros i. unfold col_cells. rewrite !list_lookup_fmap, list_lookup_alter.
  case_decide; [subst|done]. destruct (rs !! i); simpl; [|done]. by rewrite list_lookup_insert_ne.
Qed.

(** The column after the item of row [r] is set to [v]. *)
Lemma insert_sorted_cells r (v : string) (l : list string) m :
  r <= length l -> r < length l + m ->
  <[r := Some v]> ((Some <$> l) ++ replicate m None) =
    (Some <$> (take r l ++ v :: drop (S r) l)) ++ replicate (length l + m - S (length (take r l ++ drop (S r) l))) None.
Proof.
  intros Hr Hm. destruct (decide (r < length l)) as [Hlt|Hge].
  - rewrite insert_app_l by (by rewrite length_fmap).
    rewrite <-list_fmap_insert, insert_take_drop by done. f_equal. f_equal.
    rewrite length_app, length_take, length_drop. lia.
  - assert (r = length l) as -> by lia.
    rewrite insert_app_r_alt, length_fmap, Nat.sub_diag by (rewrite length_fmap; lia).
    rewrite take_ge, drop_ge by lia. rewrite fmap_app. simpl. rewrite <-app_assoc.
    destruct m as [|m]; [lia|]. simpl. do 3 f_equal. rewrite app_nil_r. lia.
Qed.

Lemma with_rows_items rs h t : items (with_rows rs h t) = rs.
Proof. done. Qed.

(** [setItem] on the sort column of row [r], the rows above having their
    items: the column stays sorted and row [r] has its item too. *)
Lemma set_item_sorted r v t l :
  sorting_enabled t = true -> sort_section t < column_count t ->
  Forall (fun row => length row = column_count t) (items t) -> r < length (items t) ->
  col_cells (sort_section t) (items t) = (Some <$> l) ++ replicate (length (items t) - length l) None ->
  StronglySorted (col_le (sort_order t)) l -> r <= length l ->
  sorted_column (sort_order t) (sort_section t) (S r) (items (set_item r (sort_section t) v t)).
Proof.
  intros Hon Hs Hw Hr Hcol Hl Hrl.
  set (s := sort_section t) in *. set (o := sort_order t) in *.
  destruct (lookup_lt_is_Some_2 _ _ Hr) as [row Hrow].
  pose proof (Forall_lookup_1 _ _ _ _ Hw Hrow) as Hlen. simpl in Hlen.
  pose proof (f_equal length Hcol) as Hll.
  rewrite length_app, length_fmap, length_replicate in Hll. unfold col_cells in Hll.
  rewrite length_fmap in Hll.
  set (rs1 := alter (fun row => <[s := Some v]> row) r (items t)).
  remember (take r l ++ drop (S r) l) as others eqn:Hoth.
  assert (Hc1 : col_cells s rs1 = (Some <$> (take r l ++ v :: drop (S r) l)) ++
                  replicate (length (items t) - S (length others)) None).
  { unfold rs1. rewrite (col_cells_alter_eq _ _ _ _ row Hrow) by lia. rewrite Hcol.
    rewrite insert_sorted_cells by lia. do 2 f_equal. rewrite Hoth. lia. }
  assert (Hlen1 : length (take r l ++ v :: drop (S r) l) = S (length others)).
  { rewrite Hoth, !length_app. simpl. lia. }
  assert (Hso : StronglySorted (col_le o) others).
  { eapply StronglySorted_sublist; [|exact Hl]. rewrite Hoth, <-delete_take_drop.
    apply sublist_delete. }
  destruct (lower_bound_sorted o others v Hso) as (a & b & Hab & Hp & Hsab).
  assert (Ho : length others = length a + length b) by (by rewrite Hab, length_app).
  assert (Hro : r <= length others) by (rewrite Hoth, length_app, length_take; lia).
  unfold set_item. fold s o. rewrite (bool_decide_true (r < _)), (bool_decide_true (s < _)), Hon by done.
  rewrite (bool_decide_true (s = s)) by done. simpl. fold rs1.
  rewrite (column_items_cells _ _ _ _ Hc1), (bool_decide_true (r < length _)) by (rewrite Hlen1, Hoth, length_app, length_take; lia).
  assert (Hdel : delete r (take r l ++ v :: drop (S r) l) = others).
  { rewrite delete_take_drop, take_app_length' by (rewrite length_take; lia).
    rewrite drop_app_ge, length_take, Nat.min_l by (rewrite ?length_take; lia).
    replace (S r - r) with 1 by lia. by rewrite Hoth. }
  rewrite Hdel, Hp. exists (a ++ v :: b).
  assert (Hlr : length (items t) = length rs1) by (unfold rs1; by rewrite length_alter).
  case_bool_decide as Heq.
  - rewrite with_rows_items. split_and!; [|done|rewrite length_app; simpl; lia].
    rewrite Hc1, <-Hlr. f_equal; [|f_equal; rewrite length_app; simpl; lia].
    f_equal. rewrite Hoth in Hab. apply app_inj_1 in Hab as [<- <-];
      [done|rewrite length_take; lia].
  - rewrite with_rows_items. split_and!; [|done|rewrite length_app; simpl; lia].
    unfold col_cells. rewrite move_row_fmap. fold (col_cells s rs1). rewrite Hc1.
    rewrite move_row_app with (x := Some v).
    + rewrite <-list_fmap_delete, Hdel, <-fmap_take, <-fmap_drop, Hab.
      rewrite take_app_length', drop_app_length' by lia.
      rewrite fmap_app, fmap_cons, <-app_assoc. simpl. do 2 f_equal.
      rewrite length_move_row, <-Hlr, !length_app. simpl.
      by replace (length a + S (length b)) with (S (length a + length b)) by lia.
    + rewrite list_lookup_fmap, lookup_app_r by (rewrite length_take; lia).
      rewrite length_take, Nat.min_l, Nat.sub_diag by lia. done.
    + rewrite length_fmap, Hlen1. lia.
Qed.

(** ** A whole listing *)

(** A table being listed: sorting on a column in range, rows of the
    column count, a hidden flag per row, and the sort column sorted with
    an item in its first [n] rows. *)
Definition listing_ok (ncol n : nat) (t : QTableWidget) : Prop :=
  sorting_enabled t = true /\ sort_section t < ncol /\ column_count t = ncol /\
  Forall (fun row => length row = ncol) (items t) /\ length (row_hidden t) = length (items t) /\
  sorted_column (sort_order t) (sort_section t) n (items t).

Lemma listing_ok_mono ncol n m t : m <= n -> listing_ok ncol n t -> listing_ok ncol m t.
Proof. intros Hmn (? & ? & ? & ? & ? & l & ? & ? & ?). split_and!; try done. exists l. split_and!; auto; lia. Qed.

Lemma set_item_fields r c v t :
  column_count (set_item r c v t) = column_count t /\ sorting_enabled (set_item r c v t) = sorting_enabled t /\
  sort_section (set_item r c v t) = sort_section t /\ sort_order (set_item r c v t) = sort_order t.
Proof. unfold set_item. by repeat case_match. Qed.

(** The rows and hidden flags after [setItem]: the row's item set, then
    possibly one row moved. *)
Lemma set_item_rows r c v t :
  items (set_item r c v t) ≡ₚ
    (if bool_decide (r < length (items t)) && bool_decide (c < column_count t)
     then alter (fun row => <[c := Some v]> row) r (items t) else items t) /\
  row_hidden (set_item r c v t) ≡ₚ row_hidden t.
Proof.
  unfold set_item. repeat case_match; simpl; split; try done; apply move_row_perm.
Qed.

Lemma set_item_length r c v t : length (items (set_item r c v t)) = length (items t).
Proof.
  rewrite (Permutation_length (proj1 (set_item_rows r c v t))). case_match; [|done].
  apply length_alter.
Qed.

Lemma set_item_widths r c v t n :
  Forall (fun row => length row = n) (items t) -> Forall (fun row => length row = n) (items (set_item r c v t)).
Proof.
  intros Hw. rewrite (proj1 (set_item_rows r c v t)). case_match; [|done].
  apply Forall_alter; [done|]. intros row _ Hrow. by rewrite length_insert.
Qed.

Lemma set_item_other r c v t :
  c <> sort_section t ->
  col_cells (sort_section t) (items (set_item r c v t)) = col_cells (sort_section t) (items t).
Proof.
  intros Hne. unfold set_item. rewrite (bool_decide_false (sort_section t = c)) by done.
  rewrite andb_false_r. repeat case_match; simpl; [|done]. by apply col_cells_alter_ne.
Qed.

Lemma set_item_ok ncol n r c v t :
  listing_ok ncol n t -> r < length (items t) -> c < ncol -> (c = sort_section t -> r <= n) ->
  listing_ok ncol (if bool_decide (c = sort_section t) then S r else n) (set_item r c v t).
Proof.
  intros (Hon & Hs & Hcc & Hw & Hh & Hcol) Hr Hc Hrn.
  destruct (set_item_fields r c v t) as (Fcc & Fon & Fs & Fo).
  unfold listing_ok. rewrite Fcc, Fon, Fs, Fo, set_item_length.
  split_and!; try done.
  - by apply set_item_widths.
  - by rewrite (Permutation_length (proj2 (set_item_rows r c v t))).
  - case_bool_decide as Hcs.
    + subst c. destruct Hcol as (l & Hl & Hsl & Hnl).
      specialize (Hrn eq_refl).
      apply (set_item_sorted r v t l); [done|lia|by rewrite Hcc|done|exact Hl|done|lia].
    + destruct Hcol as (l & Hl & Hsl & Hnl). exists l.
      rewrite set_item_other, set_item_length by done. auto.
Qed.

Lemma write_cells_ok ncol r c vals t :
  listing_ok ncol (if bool_decide (sort_section t < c) then S r else r) t ->
  r < length (items t) -> c + length vals = ncol ->
  listing_ok ncol (S r) (write_cells r c vals t) /\ length (items (write_cells r c vals t)) = length (items t).
Proof.
  revert c t. induction vals as [|v vals IH]; intros c t Hok Hr Hc; simpl in *.
  - pose proof Hok as (_ & Hs & _). rewrite bool_decide_true in Hok by lia. done.
  - pose proof Hok as (_ & Hs & _).
    assert (Hok' := set_item_ok ncol _ r c v t Hok Hr ltac:(lia)).
    destruct (set_item_fields r c v t) as (_ & _ & Fs & _).
    destruct (IH (S c) (set_item r c v t)) as [Hres Hlen].
    + rewrite Fs. eapply listing_ok_mono; [|apply Hok'].
      * repeat case_bool_decide; lia.
      * intros Hcs. rewrite bool_decide_false by lia. done.
    + by rewrite set_item_length.
    + lia.
    + split; [done|]. by rewrite Hlen, set_item_length.
Qed.

Lemma write_rows_ok ncol r rows t :
  listing_ok ncol r t -> Forall (fun row => length row = ncol) rows -> r + length rows <= length (items t) ->
  listing_ok ncol (r + length rows) (write_rows r rows t) /\
  length (items (write_rows r rows t)) = length (items t).
Proof.
  revert r t. induction rows as [|row rows IH]; intros r t Hok Hrows Hlen; simpl in *.
  - by rewrite Nat.add_0_r.
  - apply Forall_cons in Hrows as [Hrow Hrows].
    destruct (write_cells_ok ncol r 0 row t) as [Hok' Hl'];
      [by rewrite bool_decide_false by lia|lia|done|].
    destruct (IH (S r) _ Hok' Hrows) as [Hres Hlen']; [lia|].
    replace (r + S (length rows)) with (S r + length rows) by lia.
    split; [done|]. by rewrite Hlen', Hl'.
Qed.

Lemma set_row_count_ok ncol n m t :
  listing_ok ncol n t -> listing_ok ncol 0 (set_row_count m t) /\ length (items (set_row_count m t)) = m.
Proof.
  intros (Hon & Hs & Hcc & Hw & Hh & l & Hl & Hsl & _).
  assert (Hlen : length (items (set_row_count m t)) = m).
  { simpl. rewrite length_app, length_take, length_replicate. lia. }
  split; [|done]. unfold listing_ok. rewrite Hlen. simpl.
  split_and!; try done.
  - rewrite Hcc. apply Forall_app. split; [by apply Forall_take|]. apply Forall_replicate, length_replicate.
  - unfold resize_hidden. rewrite length_app, length_take, length_replicate. lia.
  - exists (take m l). split_and!; [|eapply StronglySorted_sublist; [apply sublist_take|done]|lia].
    unfold col_cells in *. rewrite fmap_app, fmap_take, Hl, fmap_replicate.
    assert (Hll := f_equal length Hl). rewrite length_fmap, length_app, length_fmap, length_replicate in Hll.
    assert (E : mjoin (replicate (column_count t) (None : option string) !! sort_section t) = None).
    { destruct (decide (sort_section t < column_count t)); [by rewrite lookup_replicate_2|].
      rewrite (proj1 (lookup_replicate_None _ _ _)) by lia. done. }
    rewrite E. destruct (decide (m <= length l)).
    + rewrite take_app_le, <-fmap_take by (rewrite length_fmap; lia).
      rewrite length_take, Nat.min_l by lia. f_equal.
      apply (f_equal (fun k => replicate k None)).
      rewrite length_app, length_take, length_replicate. lia.
    + rewrite take_app_ge by (rewrite length_fmap; lia). rewrite length_fmap, take_replicate.
      rewrite take_ge by lia. rewrite <-app_assoc, <-replicate_add. f_equal.
      apply (f_equal (fun k => replicate k None)).
      rewrite length_app, length_take, length_replicate. lia.
Qed.

(** A listing leaves every row with an item in the sort column, in the
    sort order, one row per entity. *)
Lemma list_table_ok ncol n rows t :
  listing_ok ncol n t -> Forall (fun row => length row = ncol) rows ->
  listing_ok ncol (length rows) (list_table rows t) /\ length (items (list_table rows t)) = length rows.
Proof.
  intros Hok Hrows. destruct (set_row_count_ok ncol n (length rows) t Hok) as [Hok0 Hl0].
  unfold list_table. destruct (write_rows_ok ncol 0 rows _ Hok0 Hrows) as [Hres Hlen]; [lia|].
  split; [done|]. by rewrite Hlen.
Qed.

(** After a listing the sort column holds an item in every row. *)
Lemma listing_full ncol t :
  listing_ok ncol (length (items t)) t ->
  exists l, col_cells (sort_section t) (items t) = Some <$> l /\ StronglySorted (col_le (sort_order t)) l.
Proof.
  intros (_ & _ & _ & _ & _ & l & Hl & Hsl & Hn). exists l. split; [|done].
  assert (Hll := f_equal length Hl). unfold col_cells in Hll.
  rewrite length_fmap, length_app, length_fmap, length_replicate in Hll.
  rewrite Hl. replace (length (items t) - length l) with 0 by lia. apply app_nil_r.
Qed.

(** What every [setItem] keeps, the listing loops keep. *)
Lemma write_rows_preserve (P : QTableWidget -> Prop) :
  (forall r c v t, P t -> P (set_item r c v t)) -> forall r rows t, P t -> P (write_rows r rows t).
Proof.
  intros HP r rows. revert r. induction rows as [|row rows IH]; intros r t Ht; simpl; [done|].
  apply IH. revert t Ht. generalize 0. induction row as [|v row IHr]; intros c t Ht; simpl; auto.
Qed.

(** The hidden flags of a table showing every row stay so. *)
Lemma list_table_shown rows t :
  Forall (fun b => b = false) (row_hidden t) -> Forall (fun b => b = false) (row_hidden (list_table rows t)).
Proof.
  intros H. unfold list_table. apply write_rows_preserve.
  - intros r c v t0. by rewrite (proj2 (set_item_rows r c v t0)).
  - simpl. unfold resize_hidden. apply Forall_app. split; [by apply Forall_take|by apply Forall_replicate].
Qed.

(** A listing leaves one row and one hidden flag per entity, whatever the
    table held before. *)
Lemma list_table_lengths rows t :
  length (items (list_table rows t)) = length rows /\ length (row_hidden (list_table rows t)) = length rows.
Proof.
  unfold list_table. apply (write_rows_preserve (fun t => length (items t) = length rows /\ length (row_hidden t) = length rows)).
  - intros r c v t0 [Hi Hh].
    by rewrite set_item_length, (Permutation_length (proj2 (set_item_rows r c v t0))).
  - simpl. unfold resize_hidden. rewrite !length_app, !length_take, !length_replicate. lia.
Qed.

(** A listing keeps the header's sort indicator. *)
Lemma list_table_sort rows t :
  sort_section (list_table rows t) = sort_section t /\ sort_order (list_table rows t) = sort_order t.
Proof.
  unfold list_table. apply (write_rows_preserve (fun t' => sort_section t' = sort_section t /\ sort_order t' = sort_order t)).
  - intros r c v t0. destruct (set_item_fields r c v t0) as (_ & _ & -> & ->). done.
  - done.
Qed.
