(* ===== verification/View.v ===== *)
(** * View: the logic of [MainWindow] ([src/views/main_window.py])

    The window has three tabs.  The books and users tabs each hold a form,
    a button that shows or hides a table of the store's entities together
    with a filter line, and the table; the loans tab holds the loan form,
    the borrow, return and undo buttons and the activity list.  Every
    handler reads the texts of the form, checks some of them, calls the
    controller and redraws the tables ([on_list_books], [on_list_users]).

    What is modelled:
    - the rendering of a book and a user as a table row ([book_row],
      [user_row]): Python's [str] of an [int] is stdpp's [pretty];
    - [filter_books_table]/[filter_users_table] (the two methods have the
      same body): a row is hidden unless the stripped, lower-cased text is
      empty or occurs in the lower-cased text of one of its cells
      ([py_lower] is [str.lower] on ASCII letters; [contains] is [in]);
    - Python's [int()] on the year and copies fields ([py_int]: surrounding
      whitespace, an optional sign, decimal digits with single underscores
      between them; non-ASCII digits are not modelled);
    - the window as a record [MainWindow]: the controller, the current tab,
      one [Pane] per list (whether it is shown, the filter text, and the
      table as a [QtTable.QTableWidget]), the alerts shown and the
      activity list; the handlers as functions on it, the user's actions
      as [Event]s enabled by the current tab, and [view_step] with its
      reachable windows from the one [src/main.py] builds.
    The listings write the tables as [QtTable.list_table] does: sorting is
    on ([tune_table]), so each [setItem] on the id column moves the row it
    writes.  The other Qt behaviour the handlers rely on is modelled from
    Qt's documentation: [isVisible()] of a widget in a tab is its own
    visibility flag and the tab being current; [clear()] emits
    [textChanged] only when the text was not empty.

    Theorems: whatever the user does, each table has one row per entity,
    every cell, and the ids in descending order in its first column, and
    so never shows the store's rows in the store's order; the book form
    registers any integer total; the loan form's validation; no user with
    an empty id is ever registered through the window; the activity list
    stays empty (the logger is never installed); the hidden rows of a
    table match its filter after every action except a loan-tab action
    with a non-empty filter.  Examples show the exception, the scrambled
    tables at start and a book lost by a later listing. *)

From S2P Require Import Prelude Lookup Book User Store Lending Controller QtTable.
From Stdlib Require Import Ascii.
From Stdlib Require String.
From stdpp Require Import relations pretty sorting.

Local Open Scope string_scope.

(** ** Strings: [str.lower], [in], [int()] *)

Definition lower_char (c : ascii) : ascii :=
  let n := N_of_ascii c in
  if ((65 <=? n) && (n <=? 90))%N then ascii_of_N (n + 32) else c.

Fixpoint py_lower (s : string) : string :=
  match s with
  | EmptyString => EmptyString
  | String c s' => String (lower_char c) (py_lower s')
  end.

Fixpoint starts_with (p s : string) : bool :=
  match p, s with
  | EmptyString, _ => true
  | String a p', String b s' => bool_decide (a = b) && starts_with p' s'
  | String _ _, EmptyString => false
  end.

(** [p in s]. *)
Fixpoint contains (p s : string) : bool :=
  starts_with p s ||
  match s with
  | EmptyString => false
  | String _ s' => contains p s'
  end.

Definition digit_val (c : ascii) : option Z :=
  let n := N_of_ascii c in
  if ((48 <=? n) && (n <=? 57))%N then Some (Z.of_N (n - 48)) else None.

(** Decimal digits, an underscore allowed only between two digits;
    [after_digit] records that the previous character was a digit. *)
Fixpoint py_digits (l : list ascii) (acc : Z) (after_digit : bool) : option Z :=
  match l with
  | [] => if after_digit then Some acc else None
  | c :: l' =>
      match digit_val c with
      | Some d => py_digits l' (10 * acc + d)%Z true
      | None => if bool_decide (c = "_"%char) && after_digit then py_digits l' acc false else None
      end
  end.

(** [int(text)]; [None] is the [ValueError]. *)
Definition py_int (text : string) : option Z :=
  match String.list_ascii_of_string (strip text) with
  | [] => None
  | c :: l =>
      if bool_decide (c = "-"%char) then Z.opp <$> py_digits l 0 false
      else if bool_decide (c = "+"%char) then py_digits l 0 false
      else py_digits (c :: l) 0 false
  end.

(** ** Tables *)

(** Lines 164-166: [str] of the year, the counts and the queue length. *)
Definition book_row (b : Book) : list string :=
  [Book.id b; title b; author b; pretty (year b); pretty (copies_total b);
   pretty (copies_available b); pretty (length (reservations b))].

(** Lines 209-213: [", ".join(u.borrowed) if u.borrowed else "—"]. *)
Definition user_row (u : User) : list string :=
  [User.id u; User.name u; email u;
   match borrowed u with [] => "—" | l => String.concat ", " l end].

(** Lines 173-182: the row is shown when the text is empty or occurs in
    the text of one of its items, both lower-cased; a cell without an
    item ([item(r, c)] is [None]) matches nothing.  The loop runs over
    the [columnCount()] cells of the row, which are the row's cells
    ([QtTable.listing_ok]). *)
Definition row_shown (text : string) (row : Row) : bool :=
  let t := py_lower (strip text) in
  bool_decide (t = "") ||
  existsb (fun cell => match cell with Some s => contains t (py_lower s) | None => false end) row.

(** A list: whether [table_books]/[book_filter] are shown (they are always
    shown and hidden together), the filter text and the table. *)
Record Pane := { listed : bool; filter_text : string; table : QTableWidget }.

(** The pane as [_tab_books]/[_tab_users] build it: table and filter
    hidden, the filter empty. *)
Definition pane0 (t : QTableWidget) : Pane := {| listed := false; filter_text := ""; table := t |}.

(** [filter_books_table(text)] / [filter_users_table(text)]:
    [setRowHidden(r, not show)] for each row, in order. *)
Definition filter_table (text : string) (p : Pane) : Pane :=
  {| listed := listed p; filter_text := filter_text p;
     table := with_hidden ((fun row => negb (row_shown text row)) <$> items (table p)) (table p) |}.

(** A new filter text; [textChanged] runs the filter when the text changes. *)
Definition set_filter_text (text : string) (p : Pane) : Pane :=
  if bool_decide (text = filter_text p) then p
  else filter_table text {| listed := listed p; filter_text := text; table := table p |}.

(** [on_list_books]/[on_list_users] (lines 160-170, 205-215): the rows are
    written into the table as [QtTable.list_table] does ([setRowCount],
    then [setItem] cell by cell), then the filter runs again if it is
    visible and not blank. *)
Definition list_pane (rows : list (list string)) (filter_visible : bool) (p : Pane) : Pane :=
  let p := {| listed := listed p; filter_text := filter_text p; table := list_table rows (table p) |} in
  if filter_visible && negb (bool_decide (strip (filter_text p) = "")) then filter_table (filter_text p) p
  else p.

(** [on_toggle_list_books]/[on_toggle_list_users] (lines 147-158,
    192-203): showing lists the rows first (the filter is still hidden);
    hiding clears the filter text, which shows every row again. *)
Definition toggle_pane (rows : list (list string)) (table_visible : bool) (p : Pane) : Pane :=
  if table_visible then
    set_filter_text "" {| listed := false; filter_text := filter_text p; table := table p |}
  else
    let p := list_pane rows false p in
    {| listed := true; filter_text := filter_text p; table := table p |}.

(** ** The window *)

Inductive Tab := TabBooks | TabUsers | TabLoans.

#[export] Instance Tab_eq_dec : EqDecision Tab.
Proof. solve_decision. Defined.

Record MainWindow := {
  controller : LibraryController;
  current : Tab;
  books_pane : Pane;
  users_pane : Pane;
  alerts : list string;       (** texts of the [QMessageBox]es shown *)
  activity : list Msg;        (** items of the [self.log] list *)
  logger_set : bool           (** [set_logger] has run *)
}.

Definition set_panes (bp up : Pane) (w : MainWindow) : MainWindow :=
  {| controller := controller w; current := current w; books_pane := bp; users_pane := up;
     alerts := alerts w; activity := activity w; logger_set := logger_set w |}.

Definition set_current (t : Tab) (w : MainWindow) : MainWindow :=
  {| controller := controller w; current := t; books_pane := books_pane w; users_pane := users_pane w;
     alerts := alerts w; activity := activity w; logger_set := logger_set w |}.

(** [_alert(text)] (lines 41-42). *)
Definition alert (text : string) (w : MainWindow) : MainWindow :=
  {| controller := controller w; current := current w; books_pane := books_pane w;
     users_pane := users_pane w; alerts := alerts w ++ [text]; activity := activity w;
     logger_set := logger_set w |}.

(** A controller call: the messages it logs reach [_log] (lines 44-45)
    only once [set_logger] (lines 249-251) has installed it. *)
Definition call (f : LibraryController -> LibraryController) (w : MainWindow) : MainWindow :=
  let c := f (controller w) in
  {| controller := c; current := current w; books_pane := books_pane w; users_pane := users_pane w;
     alerts := alerts w;
     activity := if logger_set w then activity w ++ drop (length (logged (controller w))) (logged c)
                 else activity w;
     logger_set := logger_set w |}.

Definition set_logger (w : MainWindow) : MainWindow :=
  {| controller := controller w; current := current w; books_pane := books_pane w;
     users_pane := users_pane w; alerts := alerts w; activity := activity w; logger_set := true |}.

(** [isVisible()] of a widget of tab [t] shown by [p]. *)
Definition pane_visible (t : Tab) (p : Pane) (w : MainWindow) : bool :=
  listed p && bool_decide (current w = t).

Definition book_rows (w : MainWindow) : list (list string) := book_row <$> get_books (controller w).
Definition user_rows (w : MainWindow) : list (list string) := user_row <$> get_users (controller w).

Definition on_list_books (w : MainWindow) : MainWindow :=
  set_panes (list_pane (book_rows w) (pane_visible TabBooks (books_pane w) w) (books_pane w))
    (users_pane w) w.

Definition on_list_users (w : MainWindow) : MainWindow :=
  set_panes (books_pane w)
    (list_pane (user_rows w) (pane_visible TabUsers (users_pane w) w) (users_pane w)) w.

Definition on_toggle_list_books (w : MainWindow) : MainWindow :=
  set_panes (toggle_pane (book_rows w) (pane_visible TabBooks (books_pane w) w) (books_pane w))
    (users_pane w) w.

Definition on_toggle_list_users (w : MainWindow) : MainWindow :=
  set_panes (books_pane w)
    (toggle_pane (user_rows w) (pane_visible TabUsers (users_pane w) w) (users_pane w)) w.

(** [on_add_book] (lines 138-145): the five texts of the form. *)
Definition on_add_book (id_ title author year_text copies_text : string) (w : MainWindow) : MainWindow :=
  match py_int year_text, py_int copies_text with
  | Some y, Some c => on_list_books (call (ctl_add_book id_ title author y c) w)
  | _, _ => alert "Año y copias deben ser números enteros." w
  end.

(** [on_add_user] (lines 185-190). *)
Definition on_add_user (id_ name email : string) (w : MainWindow) : MainWindow :=
  let uid := strip id_ in let name := strip name in let email := strip email in
  if bool_decide (uid = "") || bool_decide (name = "") || bool_decide (email = "") then
    alert "Todos los campos de usuario son obligatorios." w
  else on_list_users (call (ctl_add_user uid name email) w).

(** [on_borrow] and [on_return] (lines 230-242): [f] is the controller's
    [borrow] or [return_]. *)
Definition on_loan (f : string -> string -> LibraryController -> LibraryController)
    (user_id book_id : string) (w : MainWindow) : MainWindow :=
  let uid := strip user_id in let bid := strip book_id in
  if bool_decide (uid = "") || bool_decide (bid = "") then
    alert "Debes indicar ID de usuario y de libro." w
  else on_list_users (on_list_books (call (f uid bid) w)).

Definition on_borrow := on_loan ctl_borrow.
Definition on_return := on_loan ctl_return.

(** [on_undo] (lines 244-246). *)
Definition on_undo (w : MainWindow) : MainWindow := on_list_users (on_list_books (call ctl_undo w)).

(** [MainWindow(controller)] (lines 11-33): the store is seeded and both
    tables written, hidden; the first tab is current. *)
Definition MainWindow_init (c : LibraryController) : MainWindow :=
  let w := {| controller := ctl_seed c; current := TabBooks; books_pane := pane0 books_table0;
              users_pane := pane0 users_table0; alerts := []; activity := []; logger_set := false |} in
  on_list_users (on_list_books w).

(** [src/main.py], lines 8-10: a fresh controller and its window. *)
Definition main_window : MainWindow := MainWindow_init new_controller.

(** ** The user's actions *)

Inductive Event :=
  | ClickTab (t : Tab)
  | TypeBookFilter (text : string)
  | TypeUserFilter (text : string)
  | ClickToggleBooks
  | ClickToggleUsers
  | ClickAddBook (id_ title author year copies : string)
  | ClickAddUser (id_ name email : string)
  | ClickBorrow (user_id book_id : string)
  | ClickReturn (user_id book_id : string)
  | ClickUndo.

(** The widgets of an action are those of the current tab; a filter is
    typed into only when it is shown. *)
Definition enabled (e : Event) (w : MainWindow) : bool :=
  match e with
  | ClickTab _ => true
  | TypeBookFilter _ => pane_visible TabBooks (books_pane w) w
  | TypeUserFilter _ => pane_visible TabUsers (users_pane w) w
  | ClickToggleBooks | ClickAddBook _ _ _ _ _ => bool_decide (current w = TabBooks)
  | ClickToggleUsers | ClickAddUser _ _ _ => bool_decide (current w = TabUsers)
  | ClickBorrow _ _ | ClickReturn _ _ | ClickUndo => bool_decide (current w = TabLoans)
  end.

Definition handle (e : Event) (w : MainWindow) : MainWindow :=
  match e with
  | ClickTab t => set_current t w
  | TypeBookFilter text => set_panes (set_filter_text text (books_pane w)) (users_pane w) w
  | TypeUserFilter text => set_panes (books_pane w) (set_filter_text text (users_pane w)) w
  | ClickToggleBooks => on_toggle_list_books w
  | ClickToggleUsers => on_toggle_list_users w
  | ClickAddBook i t a y k => on_add_book i t a y k w
  | ClickAddUser i n e => on_add_user i n e w
  | ClickBorrow u b => on_borrow u b w
  | ClickReturn u b => on_return u b w
  | ClickUndo => on_undo w
  end.

Inductive view_step : MainWindow -> MainWindow -> Prop :=
  | view_step_event e w : enabled e w = true -> view_step w (handle e w).

Definition view_reachable (w : MainWindow) : Prop := rtc view_step main_window w.

(** A run of actions, each taken when enabled. *)
Fixpoint run_events (es : list Event) (w : MainWindow) : option MainWindow :=
  match es with
  | [] => Some w
  | e :: es => if enabled e w then run_events es (handle e w) else None
  end.

(** ** [int()] reads back what [str()] writes *)

Definition is_digit (c : ascii) : Prop := is_Some (digit_val c).

Lemma digit_not_space c : is_digit c -> is_space c = false.
Proof. destruct c as [[] [] [] [] [] [] [] []]; try reflexivity; by intros [? [=]]. Qed.

Lemma digit_not_sign c : is_digit c -> c ≠ "-"%char /\ c ≠ "+"%char.
Proof. intros [d Hd]. split; intros ->; discriminate Hd. Qed.

Lemma digit_val_pretty_N_char d : (d < 10)%N -> digit_val (pretty_N_char d) = Some (Z.of_N d).
Proof.
  intros Hd. destruct d as [|p]; [done|].
  do 4 (destruct p as [p|p|]; try done); lia.
Qed.

Lemma strip_id s : Forall (fun c => is_space c = false) (String.list_ascii_of_string s) -> strip s = s.
Proof.
  intros Hs. unfold strip. rewrite (drop_spaces_id (String.list_ascii_of_string s)).
  2:{ intros c l' Hl. rewrite Hl in Hs. by inversion Hs. }
  rewrite drop_spaces_id.
  2:{ intros c l' Hl. apply Forall_rev in Hs. rewrite Hl in Hs. by inversion Hs. }
  rewrite rev_involutive. apply String.string_of_list_ascii_of_string.
Qed.

(** [pretty_N_go x s] writes the digits of [x] in front of [s]. *)
Lemma pretty_N_go_digits x s :
  Forall is_digit (String.list_ascii_of_string s) ->
  Forall is_digit (String.list_ascii_of_string (pretty_N_go x s)).
Proof.
  revert s. induction (N.lt_wf_0 x) as [x _ IH]; intros s Hs.
  destruct (decide (x = 0)%N) as [->|Hx]; [by rewrite pretty_N_go_0|].
  rewrite pretty_N_go_step by lia. apply IH; [apply N.div_lt; lia|].
  constructor; [|done]. red. rewrite digit_val_pretty_N_char; [done|]. apply N.mod_lt; lia.
Qed.

Lemma py_digits_pretty_N_go x s b :
  py_digits (String.list_ascii_of_string (pretty_N_go x s)) 0 b =
  py_digits (String.list_ascii_of_string s) (Z.of_N x) (b || bool_decide (0 < x)%N).
Proof.
  revert s b. induction (N.lt_wf_0 x) as [x _ IH]; intros s b.
  destruct (decide (x = 0)%N) as [->|Hx]; [by rewrite pretty_N_go_0, orb_false_r|].
  rewrite pretty_N_go_step by lia. rewrite IH by (apply N.div_lt; lia). simpl.
  rewrite digit_val_pretty_N_char by (apply N.mod_lt; lia).
  rewrite (bool_decide_true (0 < x)%N) by lia. rewrite orb_true_r. f_equal.
  pose proof (N.div_mod x 10 ltac:(lia)). lia.
Qed.

Lemma pretty_pos_digits p :
  Forall is_digit (String.list_ascii_of_string (pretty (Npos p))) /\
  py_digits (String.list_ascii_of_string (pretty (Npos p))) 0 false = Some (Zpos p).
Proof.
  unfold pretty, pretty_N. rewrite decide_False by done. split.
  - apply pretty_N_go_digits. constructor.
  - by rewrite py_digits_pretty_N_go.
Qed.

(** [int(str(z)) == z]: the text [str] gives for a number is read back by
    [int()] as the same number. *)
Theorem py_int_pretty z : py_int (pretty z) = Some z.
Proof.
  destruct z as [|p|p]; [reflexivity| |]; destruct (pretty_pos_digits p) as [Hd Hv]; unfold py_int.
  - change (pretty (Zpos p)) with (pretty (Npos p)).
    rewrite strip_id by (eapply Forall_impl; [exact Hd|apply digit_not_space]).
    destruct (String.list_ascii_of_string (pretty (Npos p))) as [|c l]; [discriminate|].
    apply Forall_cons in Hd as [Hc _]. destruct (digit_not_sign c Hc).
    by rewrite !bool_decide_false.
  - change (pretty (Zneg p)) with (String "-" (pretty (Npos p))).
    rewrite strip_id; cbn [String.list_ascii_of_string].
    + rewrite bool_decide_true by done. by rewrite Hv.
    + constructor; [done|]. eapply Forall_impl; [exact Hd|apply digit_not_space].
Qed.

(** ** The tables *)

(** A pane's table as the listings leave it for the rows [rows]: sorting
    on, by the id column (section 0) in descending order, one row and one
    hidden flag per entity, each row of [ncol] cells, and an item in the
    id column of every row, in that order. *)
Definition pane_table_ok (ncol : nat) (rows : list (list string)) (p : Pane) : Prop :=
  listing_ok ncol (length rows) (table p) /\ length (items (table p)) = length rows /\
  sort_section (table p) = 0 /\ sort_order (table p) = DescendingOrder.

Definition window_tables_ok (w : MainWindow) : Prop :=
  pane_table_ok 7 (book_rows w) (books_pane w) /\ pane_table_ok 4 (user_rows w) (users_pane w).

Lemma book_rows_width l : Forall (fun row => length row = 7%nat) (book_row <$> l).
Proof. apply Forall_fmap, Forall_true. done. Qed.

Lemma user_rows_width l : Forall (fun row => length row = 4%nat) (user_row <$> l).
Proof. apply Forall_fmap, Forall_true. done. Qed.

Lemma filter_table_tables ncol rows text p : pane_table_ok ncol rows p -> pane_table_ok ncol rows (filter_table text p).
Proof.
  intros ((Hon & Hs & Hcc & Hw & Hh & Hcol) & Hl & Hsec & Hord).
  unfold pane_table_ok, listing_ok; simpl. rewrite length_fmap. by split_and!.
Qed.

Lemma set_filter_text_tables ncol rows text p :
  pane_table_ok ncol rows p -> pane_table_ok ncol rows (set_filter_text text p).
Proof. intros Hp. unfold set_filter_text. case_bool_decide; [done|]. by apply filter_table_tables. Qed.

Lemma list_pane_tables ncol rows rows' v p :
  pane_table_ok ncol rows' p -> Forall (fun row => length row = ncol) rows ->
  pane_table_ok ncol rows (list_pane rows v p).
Proof.
  intros (Hok & _ & Hsec & Hord) Hrows.
  destruct (list_table_ok ncol _ rows (table p) Hok Hrows) as [Hok' Hl'].
  destruct (list_table_sort rows (table p)) as [Hs' Ho'].
  assert (H : pane_table_ok ncol rows
    {| listed := listed p; filter_text := filter_text p; table := list_table rows (table p) |}).
  { unfold pane_table_ok; simpl. rewrite Hs', Ho'. by split_and!. }
  unfold list_pane. case_match; [by apply filter_table_tables|done].
Qed.

Lemma toggle_pane_tables ncol rows v p :
  pane_table_ok ncol rows p -> Forall (fun row => length row = ncol) rows ->
  pane_table_ok ncol rows (toggle_pane rows v p).
Proof.
  intros Hp Hrows. unfold toggle_pane. destruct v; [by apply set_filter_text_tables|].
  by apply (list_pane_tables _ _ rows).
Qed.

Create HintDb view.
#[export] Hint Resolve book_rows_width user_rows_width filter_table_tables set_filter_text_tables
  list_pane_tables toggle_pane_tables : view.

(** Unfolds the handlers down to the panes and the controller. *)
Ltac view_simpl :=
  cbn [handle on_borrow on_return on_loan on_undo on_list_books on_list_users
       on_toggle_list_books on_toggle_list_users set_panes set_current alert call set_logger
       controller current books_pane users_pane alerts activity logger_set] in *.

Lemma users_ctl_add_book i t a y k c :
  users (store (ctl_add_book i t a y k c)) = users (store c).
Proof. unfold ctl_add_book, run_store, add_book. simpl. by case_match. Qed.

Lemma books_ctl_add_user i n e c : books (store (ctl_add_user i n e c)) = books (store c).
Proof. unfold ctl_add_user, run_store, add_user. simpl. by case_match. Qed.

Lemma handle_tables e w : window_tables_ok w -> window_tables_ok (handle e w).
Proof.
  intros [Hb Hu]. unfold window_tables_ok, book_rows, user_rows, get_books, get_users in *.
  destruct e; view_simpl; try (split; eauto with view; fail).
  - unfold on_add_book. destruct (py_int year), (py_int copies); try done.
    view_simpl. rewrite users_ctl_add_book. split; eauto with view.
  - unfold on_add_user. case_match; [done|]. view_simpl. rewrite books_ctl_add_user. split; eauto with view.
  - unfold on_borrow, on_loan. case_match; [done|]. view_simpl. split; eauto with view.
  - unfold on_return, on_loan. case_match; [done|]. view_simpl. split; eauto with view.
Qed.

(** Rule induction over the user's actions: a property every enabled
    action preserves holds of every window reached. *)
Lemma view_steps_preserve (P : MainWindow -> Prop) :
  (forall e w, P w -> enabled e w = true -> P (handle e w)) ->
  forall w w', rtc view_step w w' -> P w -> P w'.
Proof. intros HP w w'. induction 1 as [|w1 w2 w3 [e ? He]]; eauto. Qed.

Lemma pane0_tables ncol t :
  listing_ok ncol 0 t -> sort_section t = 0 -> sort_order t = DescendingOrder -> items t = [] ->
  pane_table_ok ncol [] (pane0 t).
Proof. intros Hok Hs Ho Hi. unfold pane_table_ok; simpl. by rewrite Hi. Qed.

Lemma main_window_tables : window_tables_ok main_window.
Proof.
  assert (Hempty : forall ncol, 0 < ncol -> listing_ok ncol 0 (tune_table (set_column_count ncol new_table))).
  { intros ncol Hn. split_and!; simpl; try done. exists []. split_and!; [done|constructor|lia]. }
  split; (eapply list_pane_tables; [apply pane0_tables; [apply Hempty; lia|reflexivity..]|]).
  - apply book_rows_width.
  - apply user_rows_width.
Qed.

(** Splits an action into its branches: the parse and validation tests of
    the handlers, then unfolds the handler of each branch. *)
Ltac handler_cases e :=
  destruct e; cbn [handle];
  unfold on_add_book, on_add_user, on_borrow, on_return, on_loan, on_undo;
  repeat case_match; view_simpl.

Lemma view_reachable_tables w : view_reachable w -> window_tables_ok w.
Proof.
  intros Hw. exact (view_steps_preserve window_tables_ok (fun e w Hw _ => handle_tables e w Hw)
    _ _ Hw main_window_tables).
Qed.

(** What a pane's invariant says of its table. *)
Lemma pane_table_sorted ncol rows p :
  pane_table_ok ncol rows p ->
  length (items (table p)) = length rows /\ Forall (fun row => length row = ncol) (items (table p)) /\
  exists ids, col_cells 0 (items (table p)) = Some <$> ids /\ StronglySorted (col_le DescendingOrder) ids.
Proof.
  intros (Hok & Hl & Hsec & Hord). pose proof Hok as (_ & _ & _ & Hw & _).
  split_and!; [done|done|]. rewrite <-Hsec, <-Hord. apply listing_full with ncol. by rewrite Hl.
Qed.

(** C15: Whatever the user did, each table has one row per entity of the
    store, seven cells in a row of the books table and four in a row of
    the users table, and an id in the first column of every row, sorted
    in descending order: [tune_table]'s [setSortingEnabled(True)] sorts
    by the header's default indicator (section 0, descending) and every
    [setItem] of a listing on column 0 moves the row to its sorted place. *)
Theorem view_tables_sorted w :
  view_reachable w ->
  (length (items (table (books_pane w))) = length (books (store (controller w))) /\
   Forall (fun row => length row = 7%nat) (items (table (books_pane w))) /\
   exists ids, col_cells 0 (items (table (books_pane w))) = Some <$> ids /\
               StronglySorted (col_le DescendingOrder) ids) /\
  (length (items (table (users_pane w))) = length (users (store (controller w))) /\
   Forall (fun row => length row = 4%nat) (items (table (users_pane w))) /\
   exists ids, col_cells 0 (items (table (users_pane w))) = Some <$> ids /\
               StronglySorted (col_le DescendingOrder) ids).
Proof.
  intros Hw. destruct (view_reachable_tables w Hw) as [Hb Hu].
  apply pane_table_sorted in Hb, Hu. unfold book_rows, user_rows, get_books, get_users in *.
  rewrite length_fmap in Hb. rewrite length_fmap in Hu. done.
Qed.









(** ** What reaches the controller *)

Lemma handle_refines e w :
  controller (handle e w) = controller w \/ ctl_call (controller w) (controller (handle e w)).
Proof. handler_cases e; first [left; done | right; constructor]. Qed.

(** Every action of the window either leaves the controller as it is or
    is one command of the controller: the window adds no behaviour of its
    own to the store. *)
Theorem view_step_refines w w' :
  view_step w w' -> controller w' = controller w \/ ctl_call (controller w) (controller w').
Proof. destruct 1 as [e w _]. apply handle_refines. Qed.

Lemma view_reachable_ids_stripped w : view_reachable w -> ids_stripped (store (controller w)).
Proof.
  intros Hw. refine (view_steps_preserve (fun w => ids_stripped (store (controller w))) _ _ _ Hw _).
  - intros e w1 H1 _. destruct (handle_refines e w1) as [->|Hc]; [done|].
    by apply (ids_stripped_call _ _ Hc).
  - apply (ids_stripped_call new_controller _ (ctl_call_seed _)). split; constructor.
Qed.

Definition users_named (s : LibraryStore) : Prop := ""%string ∉ get_id <$> users s.

Lemma handle_users_named e w :
  users_named (store (controller w)) -> users_named (store (controller (handle e w))).
Proof.
  unfold users_named. intros H. handler_cases e; try done.
  - by rewrite users_ctl_add_book.
  - unfold ctl_add_user, run_store, add_user. simpl. case_match; [done|]. simpl.
    rewrite fmap_app, elem_of_app. simpl. rewrite list_elem_of_singleton, strip_idempotent.
    intros [?|Hs]; [done|]. rewrite !orb_false_iff, !bool_decide_eq_false in *. naive_solver.
  - unfold ctl_borrow, run_store. simpl. by rewrite (proj1 (lending_user_ids _)).
  - unfold ctl_return, run_store. simpl. by rewrite (proj1 (proj2 (lending_user_ids _))).
  - unfold ctl_undo, run_store. simpl. by rewrite (proj2 (proj2 (lending_user_ids _))).
Qed.

(** C24: No user with the empty id is ever registered through the window: the
    user form refuses blank fields (line 187).  The undo of a promoted
    return that skips the empty id ([Scenarios.undo_skips_empty_id]) can
    therefore not happen through the window. *)
Theorem view_no_empty_user_id w : view_reachable w -> find_user "" (store (controller w)) = None.
Proof.
  intros Hw. apply find_by_id_None.
  refine (view_steps_preserve (fun w => users_named (store (controller w))) _ _ _ Hw _).
  - intros e w1 H1 _. by apply handle_users_named.
  - unfold users_named. simpl. set_solver.
Qed.

(** ** The activity list *)

(** C26: [set_logger] is never called ([src/main.py] builds the window and
    shows it), so the controller keeps its default logger, which drops
    every message: the activity list of the loans tab stays empty. *)
Theorem view_activity_empty w : view_reachable w -> logger_set w = false /\ activity w = [].
Proof.
  intros Hw. refine (view_steps_preserve (fun w => logger_set w = false /\ activity w = []) _ _ _ Hw _).
  - intros e w1 [Hl Ha] _. handler_cases e; rewrite ?Hl; done.
  - done.
Qed.

(** ** The hidden rows and the filter *)

(** The hidden rows are those the filter text hides, and a hidden list
    has an empty filter. *)
Definition pane_ok (p : Pane) : Prop :=
  row_hidden (table p) = (fun row => negb (row_shown (filter_text p) row)) <$> items (table p) /\
  (listed p = false -> filter_text p = "").

Definition window_ok (w : MainWindow) : Prop := pane_ok (books_pane w) /\ pane_ok (users_pane w).

Definition loan_event (e : Event) : bool :=
  match e with ClickBorrow _ _ | ClickReturn _ _ | ClickUndo => true | _ => false end.

Lemma blank_hidden text rows :
  strip text = "" -> (fun row => negb (row_shown text row)) <$> rows = replicate (length rows) false.
Proof.
  intros H. induction rows as [|r rows IH]; [done|].
  rewrite fmap_cons, IH. unfold row_shown at 1. by rewrite H.
Qed.

Lemma list_pane_ok rows v p :
  pane_ok p -> v = listed p \/ strip (filter_text p) = "" -> pane_ok (list_pane rows v p).
Proof.
  intros [Hh Hl] Hv. unfold list_pane. simpl.
  destruct (v && negb (bool_decide (strip (filter_text p) = ""))) eqn:E; [done|].
  assert (Hb : strip (filter_text p) = "").
  { apply andb_false_iff in E as [E|E]; [|by apply negb_false_iff, bool_decide_eq_true in E].
    destruct Hv as [Hv|Hv]; [|done]. rewrite Hl; [done|congruence]. }
  split; [|done]. simpl. rewrite blank_hidden by done.
  destruct (list_table_lengths rows (table p)) as [Hli Hlh].
  assert (Hf : Forall (fun b => b = false) (row_hidden (list_table rows (table p)))).
  { apply list_table_shown. rewrite Hh, blank_hidden by done. by apply Forall_replicate. }
  symmetry. apply replicate_as_Forall_2; [by rewrite Hli, Hlh|]. eapply Forall_impl; [exact Hf|done].
Qed.

Lemma set_filter_text_ok text p :
  (text = filter_text p -> pane_ok p) -> listed p = true \/ text = "" ->
  pane_ok (set_filter_text text p).
Proof.
  intros Hp Ht. unfold set_filter_text. case_bool_decide; [auto|].
  split; [done|]. simpl. destruct Ht as [-> | ->]; done.
Qed.

Lemma toggle_pane_ok rows p : pane_ok p -> pane_ok (toggle_pane rows (listed p) p).
Proof.
  intros Hp. pose proof Hp as [Hh Hl]. unfold toggle_pane. destruct (listed p) eqn:L.
  - apply set_filter_text_ok; [|by right]. intros Ht. simpl in Ht. split; simpl; [done|congruence].
  - destruct (list_pane_ok rows false p) as [H _]; [exact Hp|left; by rewrite L|]. by split.
Qed.

Lemma pane_visible_current t p w : current w = t -> pane_visible t p w = listed p.
Proof. intros <-. unfold pane_visible. by rewrite bool_decide_true, andb_true_r. Qed.

Lemma pane_visible_other t p w : current w ≠ t -> pane_visible t p w = false.
Proof. intros H. unfold pane_visible. by rewrite bool_decide_false, andb_false_r. Qed.

(** C25: After every action, the hidden rows of both tables are those their
    filter text hides, except after a loans-tab action while a filter is
    not blank: that action redraws the tables, but the filters are not
    visible from the loans tab and are not run again
    ([Scenarios]-style counterexample: [stale_filter_after_loan]). *)
Theorem view_filter_consistent e w :
  window_ok w -> enabled e w = true ->
  loan_event e = false \/
    (strip (filter_text (books_pane w)) = "" /\ strip (filter_text (users_pane w)) = "") ->
  window_ok (handle e w).
Proof.
  intros [Hb Hu] He Hl. unfold window_ok.
  handler_cases e; cbn [enabled loan_event] in *; try (split; done).
  all: repeat match goal with
    | H : bool_decide _ = true |- _ => apply bool_decide_eq_true in H
    | H : pane_visible _ _ _ = true |- _ => apply andb_true_iff in H as [H _]
    end.
  all: rewrite ?pane_visible_current, ?pane_visible_other by (simpl; congruence).
  all: try (destruct Hl as [?|[Hl1 Hl2]]; [done|]).
  all: split; first [ by apply list_pane_ok; auto | by apply toggle_pane_ok
                    | by apply set_filter_text_ok; auto | done ].
Qed.

(** ** The loan form *)

(** C27: [on_borrow]/[on_return] refuse a blank user or book id with an alert
    and no call; otherwise they call the controller with the stripped ids
    (which the controller strips again, to the same effect). *)
Theorem loan_form_validation user_id book_id w :
  (strip user_id = "" \/ strip book_id = "" ->
   on_borrow user_id book_id w = alert "Debes indicar ID de usuario y de libro." w /\
   on_return user_id book_id w = alert "Debes indicar ID de usuario y de libro." w) /\
  (strip user_id ≠ "" -> strip book_id ≠ "" ->
   controller (on_borrow user_id book_id w) = ctl_borrow user_id book_id (controller w) /\
   controller (on_return user_id book_id w) = ctl_return user_id book_id (controller w)).
Proof.
  unfold on_borrow, on_return, on_loan. split.
  - intros Hb. assert (H : bool_decide (strip user_id = "") || bool_decide (strip book_id = "") = true).
    { apply orb_true_iff. by destruct Hb; [left|right]; apply bool_decide_eq_true. }
    by rewrite H.
  - intros Hu Hb. rewrite !bool_decide_false by done. simpl.
    unfold ctl_borrow, ctl_return. by rewrite !strip_idempotent.
Qed.

(** ** The book form *)

(** C20: The book form registers a new book with any integer total, negative
    ones included: [on_add_book] only checks that [int()] accepts the year
    and the copies (lines 139-142) and the store's [add_book] checks
    nothing more, so typing [str(y)] and [str(z)] into the form, with an
    id no book has, appends the book with [z] copies in total and [z]
    available. *)
Theorem book_form_any_total i t a y z w :
  find_book (strip i) (store (controller w)) = None ->
  books (store (controller (on_add_book i t a (pretty y) (pretty z) w))) =
    (books (store (controller w)) ++ [mk_book (strip i) (strip t) (strip a) y z])%list.
Proof.
  intros Hnew. unfold on_add_book. rewrite !py_int_pretty. view_simpl.
  unfold ctl_add_book, run_store, add_book. simpl. by rewrite Hnew.
Qed.

(** ** Runs *)

Lemma run_events_steps es w w' : run_events es w = Some w' -> rtc view_step w w'.
Proof.
  revert w. induction es as [|e es IH]; intros w; simpl; [by intros [= ->]|].
  destruct (enabled e w) eqn:He; [|done]. intros H. eapply rtc_l; [by constructor|]. by apply IH.
Qed.

(** ** Behaviours found while modelling, and the theorems at work *)

(** List the users, filter on ["B00"] (no user holds a book, every row
    is hidden), lend [B001] to [U002] from the loans tab and come back. *)
Definition stale_events : list Event :=
  [ClickTab TabUsers; ClickToggleUsers; TypeUserFilter "B00"; ClickTab TabLoans;
   ClickBorrow "U002" "B001"; ClickTab TabUsers].

Definition stale_window : MainWindow := default main_window (run_events stale_events main_window).

Lemma stale_window_reachable : view_reachable stale_window.
Proof. apply (run_events_steps stale_events). vm_compute. reflexivity. Qed.

(** After the loan a row of the users table lists [B001] and matches the
    filter, but stays hidden: the filter ran before the loan and the loans
    tab redraws the table without running it again (lines 214 and 235). *)
Example stale_filter_after_loan :
  filter_text (users_pane stale_window) = "B00" /\
  items (table (users_pane stale_window)) !! 1 =
    Some [Some "U001"; Some "Luis"; Some "luis@example.com"; Some "B001"] /\
  row_shown "B00" [Some "U001"; Some "Luis"; Some "luis@example.com"; Some "B001"] = true /\
  row_hidden (table (users_pane stale_window)) !! 1 = Some true /\
  ~ window_ok stale_window.
Proof.
  split_and!; [vm_compute; reflexivity..|]. intros [_ [Hh _]]. vm_compute in Hh. discriminate.
Qed.

(** At start the books table shows the data of [B002] in the row of [B001]
    and nothing but its id in the row of [B002]; the users table the data
    of [U002] in the row of [U001]. *)
Example startup_tables_scrambled :
  items (table (books_pane main_window)) =
    [[Some "B002"; None; None; None; None; None; None];
     [Some "B001"; Some "Cien años de soledad"; Some "García Márquez"; Some "1967"; Some "1"; Some "1"; Some "0"]] /\
  items (table (users_pane main_window)) =
    [[Some "U002"; None; None; None]; [Some "U001"; Some "Luis"; Some "luis@example.com"; Some "—"]].
Proof. vm_compute. split; reflexivity. Qed.

(** Register [B003], then press [Deshacer último] with nothing to undo:
    the second listing writes the books over the three rows the first one
    left, and the id column then shows [B003], [B002], [B002]; [B001] is
    not shown. *)
Example relisting_loses_book :
  option_map (fun w => col_cells 0 (items (table (books_pane w))))
    (run_events [ClickAddBook "B003" "Rayuela" "Cortazar" "1963" "1"; ClickTab TabLoans; ClickUndo]
       main_window) =
  Some [Some "B003"; Some "B002"; Some "B002"].
Proof. vm_compute. reflexivity. Qed.

Lemma view_tables_sorted_witness :
  view_reachable stale_window /\
  (length (items (table (books_pane stale_window))) = length (books (store (controller stale_window))) /\
   Forall (fun row => length row = 7%nat) (items (table (books_pane stale_window))) /\
   exists ids, col_cells 0 (items (table (books_pane stale_window))) = Some <$> ids /\
               StronglySorted (col_le DescendingOrder) ids) /\
  (length (items (table (users_pane stale_window))) = length (users (store (controller stale_window))) /\
   Forall (fun row => length row = 4%nat) (items (table (users_pane stale_window))) /\
   exists ids, col_cells 0 (items (table (users_pane stale_window))) = Some <$> ids /\
               StronglySorted (col_le DescendingOrder) ids).
Proof. exact (conj stale_window_reachable (view_tables_sorted _ stale_window_reachable)). Defined.


Lemma view_no_empty_user_id_witness :
  view_reachable stale_window /\ find_user "" (store (controller stale_window)) = None.
Proof. exact (conj stale_window_reachable (view_no_empty_user_id _ stale_window_reachable)). Defined.

Lemma view_activity_empty_witness :
  view_reachable stale_window /\ logger_set stale_window = false /\ activity stale_window = [].
Proof. exact (conj stale_window_reachable (view_activity_empty _ stale_window_reachable)). Defined.

Lemma view_filter_consistent_witness :
  window_ok main_window /\ enabled ClickToggleBooks main_window = true /\
  window_ok (handle ClickToggleBooks main_window).
Proof.
  assert (Hw : window_ok main_window) by (vm_compute; split; split; first [reflexivity | done]).
  assert (He : enabled ClickToggleBooks main_window = true) by reflexivity.
  exact (conj Hw (conj He (view_filter_consistent _ _ Hw He (or_introl eq_refl)))).
Defined.

Lemma loan_form_validation_witness :
  strip " " = "" /\
  on_borrow " " "B001" main_window = alert "Debes indicar ID de usuario y de libro." main_window.
Proof.
  assert (H : strip " " = "") by reflexivity.
  exact (conj H (proj1 (proj1 (loan_form_validation " " "B001" main_window) (or_introl H)))).
Defined.

Lemma book_form_any_total_witness :
  find_book (strip "B9") (store (controller main_window)) = None /\
  books (store (controller (on_add_book "B9" "T" "A" (pretty 2000%Z) (pretty (-1)%Z) main_window))) =
    (books (store (controller main_window)) ++ [mk_book (strip "B9") (strip "T") (strip "A") 2000 (-1)])%list.
Proof.
  assert (H : find_book (strip "B9") (store (controller main_window)) = None) by (vm_compute; reflexivity).
  exact (conj H (book_form_any_total "B9" "T" "A" 2000 (-1) main_window H)).
Defined.
