(* ===== verification/System.v ===== *)
(** * System: undo seen from the window

    [src/main.py] builds one [MainWindow] over one [LibraryController]
    over one [LibraryStore].  [View] shows that each action of the window
    is one controller command or nothing ([View.handle_refines]); here the
    undo theorem of [Undo] is followed through the window's handlers: in
    the loans tab, [Prestar] on a book with a free copy followed by
    [Deshacer último] gives the store back, and the controller logs the
    two messages.  The ids typed in the loan form are stripped twice, by
    [on_borrow] and by the controller; [Controller.strip_idempotent] makes
    the second strip harmless. *)

From S2P Require Import Prelude Lookup Book User Store Lending Undo Controller View.
From stdpp Require Import list relations.

(** ** Undo from the window *)

(** The loans tab's buttons: [Prestar] with a free copy, then
    [Deshacer último]. *)
Lemma handle_borrow w u b :
  strip u <> "" -> strip b <> "" ->
  handle (ClickBorrow u b) w = on_list_users (on_list_books (call (ctl_borrow (strip u) (strip b)) w)).
Proof.
  intros Hu Hb. cbn [handle]. unfold on_borrow, on_loan.
  by rewrite !bool_decide_false by done.
Qed.

(** C17: Pressing [Prestar] with a copy free and then [Deshacer último] in the
    loans tab: both actions are taken, the store behind the window is the
    one before the loan (up to the order of the borrower's list), and the
    controller logged the loan's message and the undo's, in that order. *)
Theorem view_borrow_then_undo w u b usr bk :
  current w = TabLoans -> strip u <> "" -> strip b <> "" ->
  find_user (strip u) (store (controller w)) = Some usr ->
  find_book (strip b) (store (controller w)) = Some bk -> (0 < copies_available bk)%Z ->
  let w' := handle ClickUndo (handle (ClickBorrow u b) w) in
  rtc view_step w w' /\
  store (controller w') ≈ store (controller w) /\
  logged (controller w') =
    logged (controller w) ++ [Borrowed (title bk) (User.name usr) (copies_available bk - 1)%Z;
                              UndoneBorrow (title bk) (User.name usr)].
Proof.
  intros Ht Hu Hb Hfu Hfb Hpos w'.
  pose proof (undo_last_after_borrow _ _ _ _ _ Hfu Hfb Hpos) as [Hs Hm].
  assert (Hmsg : snd (borrow_book (strip u) (strip b) (store (controller w))) =
                 Borrowed (title bk) (User.name usr) (copies_available bk - 1)%Z).
  { unfold borrow_book. rewrite Hfu, Hfb. by apply Z.ltb_lt in Hpos as ->. }
  assert (Hen : enabled ClickUndo (handle (ClickBorrow u b) w) = true).
  { rewrite handle_borrow by done. unfold enabled. cbn. by rewrite Ht. }
  split.
  { apply (rtc_l _ _ (handle (ClickBorrow u b) w)); [constructor; unfold enabled; by rewrite Ht|].
    apply rtc_once. by constructor. }
  subst w'. rewrite handle_borrow by done. cbn [handle on_undo].
  view_simpl. cbn [ctl_undo ctl_borrow run_store store logged]. rewrite !strip_idempotent.
  split_and!.
  - exact Hs.
  - rewrite Hm, Hmsg, <-app_assoc. done.
Qed.

Local Open Scope string_scope.

(** The window at start, on the loans tab; U001 borrows B001 (two copies)
    and undoes the loan. *)
Definition loans_window : MainWindow := set_current TabLoans main_window.

Definition demo_ana : User :=
  default (mk_user "" "" "") (find_user "U001" (store (controller loans_window))).
Definition demo_quijote : Book :=
  default (mk_book "" "" "" 0 0) (find_book "B001" (store (controller loans_window))).

Lemma view_borrow_then_undo_witness :
  let w' := handle ClickUndo (handle (ClickBorrow " U001 " "B001") loans_window) in
  rtc view_step loans_window w' /\
  logged (controller w') =
    (logged (controller loans_window) ++
      [Borrowed (title demo_quijote) (User.name demo_ana) (copies_available demo_quijote - 1)%Z;
       UndoneBorrow (title demo_quijote) (User.name demo_ana)])%list.
Proof.
  pose proof (view_borrow_then_undo loans_window " U001 " "B001" demo_ana demo_quijote
    ltac:(reflexivity) ltac:(vm_compute; discriminate) ltac:(vm_compute; discriminate)
    ltac:(vm_compute; reflexivity) ltac:(vm_compute; reflexivity) ltac:(vm_compute; reflexivity))
    as (Hr & _ & Hl).
  exact (conj Hr Hl).
Defined.
