(* ===== verification/Scenarios.v ===== *)
(** * Scenarios: the specification's examples and what modelling found

    Section 8 of the specification lists scenarios A to D; each is run here
    on the model, from [LibraryStore()], and checked by evaluation.  The
    second half states, as closed theorems about concrete runs, the
    behaviours of [src/controllers/store.py] that differ from the
    specification's text or that it does not cover:
    - the undo stack is multi-level, where the specification says "exactly
      one level";
    - undoing a promoted return puts the promoted user back at the front of
      the queue (the specification's step 1 says the original user), and
      can queue that user twice;
    - undoing a loan frees a copy without serving the queue, so a later
      caller takes it ahead of the waiting user;
    - a promoted user whose id is the empty string is not taken back by
      the undo ([if next_user_id:] is false for [""]);
    - [add_book] accepts a negative [copies_total], and the available count
      starts negative;
    - a user can hold two copies of the same book.
    The general theorems behind the undo behaviours are
    [Undo.undo_n_run_cmds], [Undo.undo_return_requeues_front] and
    [Undo.undo_borrow_skips_queue]; the window's side of the negative total
    is [View.book_form_any_total]. *)

From S2P Require Import Prelude Lookup Book User Store Lending Invariant Undo.

Local Open Scope string_scope.

(** Observations of a store: the available copies and the queue of a book,
    whether a user holds a book. *)
Definition available (book_id : string) (s : LibraryStore) : option Z :=
  copies_available <$> find_book book_id s.

Definition queue (book_id : string) (s : LibraryStore) : option (list string) :=
  reservations <$> find_book book_id s.

Definition holds (user_id book_id : string) (s : LibraryStore) : bool :=
  match find_user user_id s with
  | Some u => book_id ∈? borrowed u
  | None => false
  end.

(** One book [B1] with [copies] copies and users [U1], [U2], [U3]. *)
Definition library (copies : Z) : LibraryStore :=
  let s := fst (add_book (mk_book "B1" "Rayuela" "Cortazar" 1963 copies) empty_store) in
  let s := fst (add_user (mk_user "U1" "Ana" "ana@example.com") s) in
  let s := fst (add_user (mk_user "U2" "Luis" "luis@example.com") s) in
  fst (add_user (mk_user "U3" "Eva" "eva@example.com") s).

Definition scenario_A : LibraryStore :=
  let s := fst (borrow_book "U1" "B1" (library 1)) in
  let s := fst (borrow_book "U2" "B1" s) in
  fst (return_book "U1" "B1" s).

(** ** The scenarios of the specification *)

(** The scenarios of the specification, from a fresh store with one book
    [B1] and users [U1], [U2], [U3].
    - A: with one copy, U1 borrows it (none left), U2 is queued at
      position 1, U1 returns it and U2 gets it at once;
    - C: with two copies lent, the third caller is queued at position 1,
      the position counting the queue only;
    - D: returning a book the user never borrowed is refused and changes
      nothing;
    - B: undoing the return of A takes the book back from U2, puts U2
      back at the front of the queue and gives the copy to U1 again;
    - two undos after a single loan: the second has nothing to undo. *)
Example spec_scenarios :
  (available "B1" (fst (borrow_book "U1" "B1" (library 1))) = Some 0%Z /\
   snd (borrow_book "U2" "B1" (fst (borrow_book "U1" "B1" (library 1)))) = Queued "Luis" "Rayuela" 1 /\
   available "B1" scenario_A = Some 0%Z /\ holds "U2" "B1" scenario_A = true /\
   holds "U1" "B1" scenario_A = false /\ queue "B1" scenario_A = Some []) /\
  (let s := fst (borrow_book "U2" "B1" (fst (borrow_book "U1" "B1" (library 2)))) in
   snd (borrow_book "U3" "B1" s) = Queued "Eva" "Rayuela" 1) /\
  (let s := fst (borrow_book "U1" "B1" (library 1)) in
   return_book "U2" "B1" s = (s, NotBorrowed "Luis" "Rayuela")) /\
  (let s := fst (undo_last scenario_A) in
   snd (undo_last scenario_A) = UndoneReturn "Rayuela" "Ana" /\
   holds "U2" "B1" s = false /\ holds "U1" "B1" s = true /\
   queue "B1" s = Some ["U2"] /\ available "B1" s = Some 0%Z) /\
  snd (undo_last (fst (undo_last (fst (borrow_book "U1" "B1" (library 1)))))) = NothingToUndo.
Proof. vm_compute. done. Qed.

(** ** Behaviours found while modelling *)

(** The stack is not of depth one: after two loans, the second undo
    undoes the first loan instead of reporting [NothingToUndo]. *)
Example undo_is_multi_level :
  let s := fst (borrow_book "U2" "B1" (fst (borrow_book "U1" "B1" (library 2)))) in
  snd (undo_last (fst (undo_last s))) = UndoneBorrow "Rayuela" "Ana" /\
  available "B1" (fst (undo_last (fst (undo_last s)))) = Some 2%Z.
Proof. vm_compute. done. Qed.

(** Three ways the undo of a return or a loan differs from "the state
    before the operation", on concrete runs:
    - undoing a promoted return queues the promoted user again at the
      front even when that user is already waiting: U2 appears twice;
    - undoing a loan while a user waits leaves a copy free and the queue
      as it was: the next caller (U3) takes the copy ahead of U2;
    - a user registered with the empty id (the controller does not reject
      it) who is promoted is not taken back by the undo
      ([if next_user_id:] is false for [""]): the original user gets no
      copy and the promoted user keeps it. *)
Example undo_differs_from_restore :
  (let s := fst (borrow_book "U2" "B1" scenario_A) in
   queue "B1" s = Some ["U2"] /\ queue "B1" (fst (undo_last s)) = Some ["U2"; "U2"]) /\
  (let s := fst (borrow_book "U2" "B1" (fst (borrow_book "U1" "B1" (library 1)))) in
   let s := fst (undo_last s) in
   available "B1" s = Some 1%Z /\ queue "B1" s = Some ["U2"] /\
   holds "U3" "B1" (fst (borrow_book "U3" "B1" s)) = true /\
   queue "B1" (fst (borrow_book "U3" "B1" s)) = Some ["U2"]) /\
  (let s := fst (add_user (mk_user "" "Nadie" "x@example.com") (library 1)) in
   let s := fst (borrow_book "U1" "B1" s) in
   let s := fst (borrow_book "" "B1" s) in
   let s := fst (return_book "U1" "B1" s) in
   holds "" "B1" s = true /\ snd (undo_last s) = UndoNoCopy /\
   holds "" "B1" (fst (undo_last s)) = true /\ holds "U1" "B1" (fst (undo_last s)) = false).
Proof. vm_compute. done. Qed.

(** [add_book] does not check the total: a book registered with [-1]
    copies has [-1] available. *)
Example negative_total_accepted :
  available "B9" (fst (add_book (mk_book "B9" "T" "A" 2000 (-1)) empty_store)) = Some (-1)%Z.
Proof. vm_compute. done. Qed.

(** A user may borrow a second copy of a book already held. *)
Example same_book_twice :
  let s := fst (borrow_book "U1" "B1" (fst (borrow_book "U1" "B1" (library 2)))) in
  borrowed <$> find_user "U1" s = Some ["B1"; "B1"].
Proof. vm_compute. done. Qed.
